(** * Shallow embedding of the pharma-search matching, normalization and grouping core

    The Python sources live under [src/backend/src]: [preprocessor.py]
    ([PharmaPreprocessor]), [normalizer.py] ([PharmaNormalizer]),
    [search_engine.py] ([PharmaSearchEngine]), [search_engine_duckdb.py]
    ([DuckDBPharmaSearchEngine]) and [similarity_matcher.py]
    ([SimilarityMatcher]).

    Python strings are modelled as Rocq [string]s of ASCII characters; the
    model therefore covers ASCII titles and queries.  Character classes follow
    Python 3's [str] semantics restricted to ASCII ([\s] is [str.isspace],
    [\w] is alphanumeric or underscore, [\d] is 0-9). *)

From Stdlib Require Import String Ascii List Bool Arith ZArith QArith Lia.
From Stdlib Require Import NArith Floats Sorted Permutation.
Import ListNotations.

Open Scope nat_scope.
Open Scope bool_scope.
Open Scope string_scope.

(** [string_scope] rebinds [=?], [<?] and [<=?]; numbers use these. *)
Infix "=n" := Nat.eqb (at level 70).
Infix "<n" := Nat.ltb (at level 70).
Infix "<=n" := Nat.leb (at level 70).

(** ** Characters *)

Definition code (c : ascii) : nat := nat_of_ascii c.

Definition is_digit (c : ascii) : bool := (48 <=n code c) && (code c <=n 57).
Definition is_upper (c : ascii) : bool := (65 <=n code c) && (code c <=n 90).
Definition is_lower (c : ascii) : bool := (97 <=n code c) && (code c <=n 122).
Definition is_alpha (c : ascii) : bool := is_upper c || is_lower c.
Definition is_word (c : ascii) : bool := is_alpha c || is_digit c || (code c =n 95).

(** [str.isspace] on ASCII: tab to carriage return, the four separators
    0x1c-0x1f and the space. *)
Definition is_space (c : ascii) : bool :=
  ((9 <=n code c) && (code c <=n 13)) || ((28 <=n code c) && (code c <=n 31))
  || (code c =n 32).

Definition lower_char (c : ascii) : ascii :=
  if is_upper c then ascii_of_nat (code c + 32) else c.
Definition upper_char (c : ascii) : ascii :=
  if is_lower c then ascii_of_nat (code c - 32) else c.

(** ** Python string methods *)

Fixpoint str_map (f : ascii -> ascii) (s : string) : string :=
  match s with
  | EmptyString => EmptyString
  | String c s' => String (f c) (str_map f s')
  end.

(** [str.lower] *)
Definition py_lower (s : string) : string := str_map lower_char s.

Fixpoint lstrip_sp (s : string) : string :=
  match s with
  | String c s' => if is_space c then lstrip_sp s' else s
  | EmptyString => EmptyString
  end.

Definition rev_str (s : string) : string :=
  string_of_list_ascii (rev (list_ascii_of_string s)).

(** [str.strip()] *)
Definition py_strip (s : string) : string := rev_str (lstrip_sp (rev_str (lstrip_sp s))).

(** [str.split()]: maximal runs of non-space characters. *)
Fixpoint split_go (s : string) (cur : string) (acc : list string) : list string :=
  match s with
  | EmptyString => rev (if String.eqb cur "" then acc else rev_str cur :: acc)
  | String c s' =>
      if is_space c
      then split_go s' "" (if String.eqb cur "" then acc else rev_str cur :: acc)
      else split_go s' (String c cur) acc
  end.
Definition py_split (s : string) : list string := split_go s "" [].

(** [sep.join(xs)] *)
Fixpoint py_join (sep : string) (xs : list string) : string :=
  match xs with
  | [] => ""
  | [x] => x
  | x :: xs' => x ++ sep ++ py_join sep xs'
  end.

(** [str.title]: a cased character is upper-cased when the previous
    character is not cased, lower-cased otherwise. *)
Fixpoint title_go (prev_cased : bool) (s : string) : string :=
  match s with
  | EmptyString => EmptyString
  | String c s' =>
      String (if prev_cased then lower_char c else upper_char c) (title_go (is_alpha c) s')
  end.
Definition py_title (s : string) : string := title_go false s.

(** [s[a:b]] *)
Definition slice (s : list ascii) (a b : nat) : string :=
  string_of_list_ascii (firstn (b - a) (skipn a s)).

(** Lexicographic order on code points, as Python compares [str]. *)
Fixpoint str_ltb (a b : string) : bool :=
  match a, b with
  | EmptyString, EmptyString => false
  | EmptyString, String _ _ => true
  | String _ _, EmptyString => false
  | String x a', String y b' =>
      if code x <n code y then true
      else if code y <n code x then false
      else str_ltb a' b'
  end.

Fixpoint insert_str (x : string) (l : list string) : list string :=
  match l with
  | [] => [x]
  | y :: l' => if str_ltb y x then y :: insert_str x l' else x :: l
  end.
(** [sorted(xs)] on strings *)
Definition sort_strs (l : list string) : list string := fold_right insert_str [] l.

(** [sorted(set(xs))] *)
Definition sorted_set (l : list string) : list string :=
  sort_strs (nodup string_dec l).

(** ** Python's [re]: a backtracking matcher

    A regular expression is matched as Python's engine does: alternatives and
    greedy repetitions are tried in priority order and the first successful
    path is the match.  [mt] is written in continuation-passing style; the
    [fuel] argument bounds the recursion and [search] supplies enough of it. *)

Inductive regex : Type :=
| Cls (p : ascii -> bool)        (** one character satisfying [p] *)
| Cat (r1 r2 : regex)
| Alt (r1 r2 : regex)            (** [r1|r2], [r1] first *)
| Star (r : regex)               (** greedy [r*] *)
| Grp (n : nat) (r : regex)      (** capturing group [n] *)
| WordB                          (** [\b] *)
| Bol                            (** [^] *)
| Eol                            (** [$] *)
| NegAhead (r : regex)           (** [(?!r)] *)
| Eps.

Fixpoint re_size (r : regex) : nat :=
  match r with
  | Cat a b | Alt a b => S (re_size a + re_size b)
  | Star a | Grp _ a | NegAhead a => S (re_size a)
  | _ => 1
  end.

Definition caps := list (nat * (nat * nat)).

Definition word_at (s : list ascii) (i : nat) : bool :=
  match nth_error s i with Some c => is_word c | None => false end.

Definition at_word_boundary (s : list ascii) (i : nat) : bool :=
  let before := match i with 0 => false | S j => word_at s j end in
  xorb before (word_at s i).

Definition at_eol (s : list ascii) (i : nat) : bool :=
  (i =n length s)
  || ((S i =n length s) && match nth_error s i with
                           | Some c => code c =n 10 | None => false end).

Fixpoint mt (fuel : nat) (s : list ascii) (r : regex) (i : nat) (cp : caps)
  (k : nat -> caps -> option (nat * caps)) : option (nat * caps) :=
  match fuel with
  | O => None
  | S f =>
    match r with
    | Cls p =>
        match nth_error s i with
        | Some c => if p c then k (S i) cp else None
        | None => None
        end
    | Cat r1 r2 => mt f s r1 i cp (fun j c => mt f s r2 j c k)
    | Alt r1 r2 =>
        match mt f s r1 i cp k with
        | Some x => Some x
        | None => mt f s r2 i cp k
        end
    | Star r1 =>
        match mt f s r1 i cp (fun j c => if j =n i then None else mt f s (Star r1) j c k) with
        | Some x => Some x
        | None => k i cp
        end
    | Grp n r1 => mt f s r1 i cp (fun j c => k j ((n, (i, j)) :: c))
    | WordB => if at_word_boundary s i then k i cp else None
    | Bol => if i =n 0 then k i cp else None
    | Eol => if at_eol s i then k i cp else None
    | NegAhead r1 =>
        match mt f s r1 i cp (fun j c => Some (j, c)) with
        | Some _ => None
        | None => k i cp
        end
    | Eps => k i cp
    end
  end.

Record rmatch := RMatch { m_start : nat; m_end : nat; m_caps : caps }.

Definition re_fuel (s : list ascii) (r : regex) : nat := S (re_size r * (length s + 2)).

Definition match_at (s : list ascii) (r : regex) (i : nat) : option rmatch :=
  match mt (re_fuel s r) s r i [] (fun j c => Some (j, c)) with
  | Some (j, c) => Some (RMatch i j c)
  | None => None
  end.

(** [re.search] starting at position [pos]: the leftmost match. *)
Fixpoint search_from_go (s : list ascii) (r : regex) (i : nat) (n : nat) : option rmatch :=
  match match_at s r i with
  | Some m => Some m
  | None => match n with O => None | S n' => search_from_go s r (S i) n' end
  end.
Definition search_from (s : list ascii) (r : regex) (pos : nat) : option rmatch :=
  search_from_go s r pos (length s - pos).

Definition re_search (r : regex) (t : string) : option rmatch :=
  search_from (list_ascii_of_string t) r 0.

Definition m_group0 (t : string) (m : rmatch) : string :=
  slice (list_ascii_of_string t) (m_start m) (m_end m).

(** [match.group(n)]: [None] when the group did not take part. *)
Definition m_group (t : string) (m : rmatch) (n : nat) : option string :=
  match find (fun e => Nat.eqb (fst e) n) (m_caps m) with
  | Some (_, (a, b)) => Some (slice (list_ascii_of_string t) a b)
  | None => None
  end.

Definition group_or_empty (t : string) (m : rmatch) (n : nat) : string :=
  match m_group t m n with Some g => g | None => "" end.

(** [re.sub(pattern, repl, text)] with a literal replacement. *)
Fixpoint sub_go (s : list ascii) (r : regex) (repl : string) (pos : nat) (n : nat) : string :=
  match n with
  | O => slice s pos (length s)
  | S n' =>
    match search_from s r pos with
    | None => slice s pos (length s)
    | Some m =>
        if m_end m =n m_start m then
          slice s pos (m_start m) ++ repl ++ slice s (m_start m) (S (m_start m))
          ++ (if m_start m <n length s then sub_go s r repl (S (m_start m)) n' else "")
        else slice s pos (m_start m) ++ repl ++ sub_go s r repl (m_end m) n'
    end
  end.
Definition re_sub (r : regex) (repl : string) (t : string) : string :=
  let s := list_ascii_of_string t in sub_go s r repl 0 (S (length s)).

(** [re.findall]: group 1 of each match when the pattern has a group
    ([grp = true]), the whole match otherwise. *)
Fixpoint findall_go (t : string) (s : list ascii) (r : regex) (grp : bool) (pos : nat) (n : nat)
  : list string :=
  match n with
  | O => []
  | S n' =>
    match search_from s r pos with
    | None => []
    | Some m =>
        (if grp then group_or_empty t m 1 else m_group0 t m)
        :: findall_go t s r grp (if m_end m =n m_start m then S (m_end m) else m_end m) n'
    end
  end.
Definition re_findall (r : regex) (grp : bool) (t : string) : list string :=
  let s := list_ascii_of_string t in findall_go t s r grp 0 (S (length s)).

(** *** Pattern combinators *)

Definition ch (c : ascii) : regex := Cls (fun x => Ascii.eqb x c).
(** a character under [re.IGNORECASE] *)
Definition chi (c : ascii) : regex := Cls (fun x => Ascii.eqb (lower_char x) (lower_char c)).

Fixpoint lit_with (f : ascii -> regex) (s : string) : regex :=
  match s with
  | EmptyString => Eps
  | String c EmptyString => f c
  | String c s' => Cat (f c) (lit_with f s')
  end.
(** a literal, as [re.escape] makes it *)
Definition lit (s : string) : regex := lit_with ch s.
Definition liti (s : string) : regex := lit_with chi s.

Fixpoint alts (rs : list regex) : regex :=
  match rs with
  | [] => Cls (fun _ => false)
  | [r] => r
  | r :: rs' => Alt r (alts rs')
  end.

Fixpoint cats (rs : list regex) : regex :=
  match rs with
  | [] => Eps
  | [r] => r
  | r :: rs' => Cat r (cats rs')
  end.

Definition plus (r : regex) : regex := Cat r (Star r).
Definition opt (r : regex) : regex := Alt r Eps.

Definition digit : regex := Cls is_digit.
Definition wordc : regex := Cls is_word.
Definition space : regex := Cls is_space.
Definition az : regex := Cls is_lower.
Definition oneof (cs : string) : regex :=
  Cls (fun x => existsb (Ascii.eqb x) (list_ascii_of_string cs)).

(** [(a|b|...)] as group [n] of literal words *)
Definition words (n : nat) (ws : list string) : regex := Grp n (alts (map lit ws)).
Definition wordsi (n : nat) (ws : list string) : regex := Grp n (alts (map liti ws)).

(** Every character class of [r] (outside lookaheads) accepts only
    characters satisfying [P]. *)
Fixpoint cls_all (P : ascii -> Prop) (r : regex) : Prop :=
  match r with
  | Cls p => forall c, p c = true -> P c
  | Cat r1 r2 | Alt r1 r2 => cls_all P r1 /\ cls_all P r2
  | Star r1 | Grp _ r1 => cls_all P r1
  | _ => True
  end.


(** The first pattern of a list that has a match, with that match
    ([for pattern in patterns: match = re.search(...); if match: ...]). *)
Fixpoint first_search {A : Type} (ps : list (regex * A)) (t : string) : option (rmatch * A) :=
  match ps with
  | [] => None
  | (r, a) :: ps' =>
      match re_search r t with
      | Some m => Some (m, a)
      | None => first_search ps' t
      end
  end.

(** [d.get(k, default)] on a dict literal, kept as an association list in
    its insertion order. *)
Fixpoint dict_get (d : list (string * string)) (k default : string) : string :=
  match d with
  | [] => default
  | (k', v) :: d' => if String.eqb k k' then v else dict_get d' k default
  end.

Definition str_in (x : string) (l : list string) : bool := existsb (String.eqb x) l.

Definition nonempty (s : string) : bool := negb (String.eqb s "").

(** ** Decimal numbers *)

Fixpoint digits_to_N (acc : N) (s : string) : N :=
  match s with
  | EmptyString => acc
  | String c s' => digits_to_N (acc * 10 + N.of_nat (code c - 48))%N s'
  end.

Fixpoint N_to_digits (fuel : nat) (n : N) (acc : string) : string :=
  match fuel with
  | O => acc
  | S f =>
      let d := String (ascii_of_nat (48 + N.to_nat (n mod 10))) acc in
      if (n <? 10)%N then d else N_to_digits f (n / 10)%N d
  end.
(** [str(n)] for a non-negative integer *)
Definition N_to_str (n : N) : string := N_to_digits (S (N.to_nat (N.log2 n))) n "".

(** ** [preprocessor.py]: [PharmaPreprocessor] *)

Module Preprocessor.

Record ProductIdentity := mkIdentity {
  base_name : string;
  brand : string;
  strength : string;
  form : string;
  size : string;
  variant : string;
  category : string;
  normalized_name : string;
  search_tokens : list string;
  grouping_key : string }.

Definition brand_mappings : list (string * string) :=
  [("dr", "dr."); ("prof", "prof."); ("pharm", "pharma");
   ("laboratoires", "laboratories"); ("lab", "laboratories");
   ("gmbh", ""); ("ltd", ""); ("inc", ""); ("co", "company"); ("corp", "corporation")].

Definition form_mappings : list (string * string) :=
  [("tbl", "tableta"); ("tab", "tableta"); ("tabs", "tablete"); ("caps", "kapsula");
   ("cap", "kapsula"); ("cps", "kapsula"); ("syr", "sirup"); ("syrup", "sirup");
   ("sol", "rastvor"); ("solution", "rastvor"); ("susp", "suspenzija");
   ("suspension", "suspenzija"); ("inj", "injekcija"); ("injection", "injekcija");
   ("oint", "mast"); ("ointment", "mast"); ("cr", "krema"); ("cream", "krema");
   ("gel", "gel"); ("spray", "sprej"); ("drops", "kapi"); ("drop", "kapi");
   ("powder", "prah"); ("pwd", "prah")].

(** The entry for the micro sign is left out: it is not ASCII. *)
Definition dosage_mappings : list (string * string) :=
  [("mg", "mg"); ("milligram", "mg"); ("miligram", "mg"); ("mcg", "mcg");
   ("microgram", "mcg"); ("mikrogram", "mcg"); ("g", "g"); ("gram", "g");
   ("kg", "kg"); ("kilogram", "kg"); ("iu", "iu"); ("i.u.", "iu");
   ("international unit", "iu"); ("ml", "ml"); ("milliliter", "ml");
   ("mililitr", "ml"); ("l", "l"); ("liter", "l"); ("litr", "l"); ("%", "%");
   ("percent", "%"); ("procenat", "%")].

Definition synonym_mappings : list (string * list string) :=
  [("vitamin", ["vit"; "vitam"]);
   ("calcium", ["calc"; "ca"; "kalcijum"]);
   ("magnesium", ["mag"; "mg"; "magnezijum"]);
   ("probiotic", ["prob"; "probiotik"]);
   ("omega", ["omega-3"; "omega3"; "n-3"]);
   ("coenzyme", ["coq"; "koenzim"]);
   ("acetaminophen", ["paracetamol"; "acetaminofen"]);
   ("ibuprofen", ["brufen"; "advil"]);
   ("ascorbic acid", ["vitamin c"; "askorbinska"])].

Definition bw (r : regex) : regex := cats [WordB; r; WordB].

(** [category_patterns], searched with [re.IGNORECASE]; the non-ASCII
    alternative [gvožđe] of the minerals pattern is left out. *)
Definition category_patterns : list (string * list regex) :=
  [("vitamins",
     [bw (wordsi 1 ["vitamin"; "vit"; "multivit"]);
      bw (wordsi 1 ["a"; "b"; "c"; "d"; "e"; "k"; "b1"; "b2"; "b6"; "b12"; "d3"]);
      bw (wordsi 1 ["thiamine"; "riboflavin"; "niacin"; "folate"; "biotin"])]);
   ("minerals",
     [bw (wordsi 1 ["calcium"; "magnesium"; "zinc"; "iron"; "selenium"]);
      bw (wordsi 1 ["kalcijum"; "magnezijum"; "cink"])]);
   ("probiotics",
     [bw (wordsi 1 ["probiotic"; "lactobacillus"; "bifidobacterium"]);
      bw (wordsi 1 ["probiotik"; "laktobacil"; "bifidus"])]);
   ("supplements",
     [bw (wordsi 1 ["omega"; "coq10"; "coenzyme"; "glucosamine"]);
      bw (wordsi 1 ["supplement"; "dodatak"; "ishrani"])]);
   ("painkillers",
     [bw (wordsi 1 ["ibuprofen"; "paracetamol"; "aspirin"; "diclofenac"]);
      bw (Grp 1 (alts [liti "analgesic"; liti "analgetik";
                       cats [liti "protiv"; plus space; liti "bola"]]))]);
   ("antibiotics",
     [bw (wordsi 1 ["amoxicillin"; "penicillin"; "erythromycin"]);
      bw (wordsi 1 ["antibiotic"; "antibiotik"])])].

Definition noise_words : list string :=
  ["za"; "od"; "do"; "sa"; "na"; "u"; "i"; "a"; "the"; "of"; "for"; "with"; "and";
   "plus"; "extra"; "special"; "premium"; "advanced"; "new"; "novo"; "original"].

Definition empty_identity : ProductIdentity :=
  mkIdentity "" "" "" "" "" "" "" "" [] "".

(** [_basic_clean].  [unicodedata.normalize('NFKD', .)] is the identity on
    ASCII, and the trademark class [[®™©]] has no ASCII member. *)
Definition basic_clean (text : string) : string :=
  let text := py_strip (py_lower text) in
  let text := re_sub (Cls (fun _ => false)) "" text in
  let text := re_sub (plus (oneof ",.()[]/\")) " " text in
  let text := re_sub (plus space) " " text in
  let text := re_sub (bw (ch "l")) "1" text in
  let text := re_sub (bw (ch "o")) "0" text in
  py_strip text.

(** [_standardize_brand] *)
Definition standardize_brand (b : string) : string :=
  py_strip (fold_left (fun b kv => re_sub (bw (lit (fst kv))) (snd kv) b) brand_mappings b).

Definition brand_patterns : list (regex * unit) :=
  [(Cat WordB (Grp 1 (cats [lit "dr"; opt (ch "."); Star space; plus wordc])), tt);
   (Cat WordB (Grp 1 (cats [lit "prof"; opt (ch "."); Star space; plus wordc])), tt);
   (Cat WordB (Grp 1 (cats [plus wordc; Star space; lit "pharm"; Star wordc])), tt);
   (Cat WordB (Grp 1 (cats [plus wordc; Star space; lit "lab"; Star wordc])), tt);
   (cats [Bol; Grp 1 (cats [plus az; plus space; plus az]); WordB], tt)].

(** [_extract_brand] *)
Definition extract_brand (text brand_name : string) : string :=
  if negb (String.eqb brand_name "") then standardize_brand (py_lower brand_name)
  else match first_search brand_patterns text with
       | Some (m, _) => standardize_brand (py_strip (group_or_empty text m 1))
       | None => ""
       end.

Definition num_dot : regex := Grp 1 (Cat (plus digit) (opt (Cat (ch ".") (plus digit)))).

(** [strength_patterns] with their number of groups; the micro-sign unit is
    left out of the first one. *)
Definition strength_patterns : list (regex * nat) :=
  [(cats [num_dot; Star space; words 2 ["mg"; "mcg"; "iu"; "g"; "ml"; "l"; "%"]], 2);
   (cats [num_dot; Star space; words 2 ["milligram"; "miligram"; "microgram"; "mikrogram"]], 2);
   (cats [num_dot; Star space; words 2 ["gram"; "kilogram"]], 2);
   (cats [num_dot; Star space; words 2 ["milliliter"; "mililitr"; "liter"; "litr"]], 2);
   (cats [num_dot; Star space; words 2 ["percent"; "procenat"]], 2);
   (cats [Grp 1 (plus digit); Star space; words 2 ["k"; "mil"; "million"; "billion"];
          Star space; words 3 ["iu"; "mg"; "mcg"]], 3)].

Definition multipliers : list (string * N) :=
  [("k", 1000%N); ("mil", 1000000%N); ("million", 1000000%N); ("billion", 1000000000%N)].

(** [_extract_strength].  In the multiplier branch the value is a digit
    string, and [int(float(value) * m)] is computed exactly. *)
Definition extract_strength (text : string) : string :=
  match first_search strength_patterns text with
  | None => ""
  | Some (m, ngroups) =>
      let value := group_or_empty text m 1 in
      let unit := py_lower (group_or_empty text m 2) in
      let normalized_unit := dict_get dosage_mappings unit unit in
      let g3 := group_or_empty text m 3 in
      let '(value, normalized_unit) :=
        if (2 <n ngroups) && negb (String.eqb g3 "") then
          let multiplier := py_lower (group_or_empty text m 2) in
          let base_unit := py_lower g3 in
          match find (fun kv => String.eqb (fst kv) multiplier) multipliers with
          | Some (_, k) => (N_to_str (digits_to_N 0 value * k)%N,
                            dict_get dosage_mappings base_unit base_unit)
          | None => (value, normalized_unit)
          end
        else (value, normalized_unit) in
      value ++ " " ++ normalized_unit
  end.

Definition form_patterns : list (regex * unit) :=
  map (fun ws => (bw (words 1 ws), tt))
    [["tableta"; "tablete"; "tbl"; "tab"; "tabs"];
     ["kapsula"; "kapsule"; "caps"; "cap"; "cps"];
     ["sirup"; "syrup"; "syr"];
     ["sprej"; "spray"];
     ["kapi"; "drops"; "drop"];
     ["mast"; "ointment"; "oint"];
     ["krema"; "cream"; "cr"];
     ["gel"];
     ["prah"; "powder"; "pwd"];
     ["rastvor"; "solution"; "sol"];
     ["suspenzija"; "suspension"; "susp"];
     ["injekcija"; "injection"; "inj"];
     ["kesica"; "kesice"; "sachet"; "sachets"]].

(** [_extract_form] *)
Definition extract_form (text : string) : string :=
  match first_search form_patterns text with
  | Some (m, _) => let f := py_lower (group_or_empty text m 1) in dict_get form_mappings f f
  | None => ""
  end.

Definition size_patterns : list (regex * unit) :=
  [(bw (Grp 1 (Cat (ch "a") (plus digit))), tt);
   (cats [WordB; Grp 1 (plus digit); ch "x"; WordB], tt);
   (cats [WordB; Grp 1 (plus digit); Star space; words 2 ["kom"; "komada"; "pieces"; "pcs"]; WordB], tt);
   (cats [WordB; Grp 1 (plus digit); Star space; lit "ml"; WordB], tt);
   (cats [WordB; Grp 1 (plus digit); Star space; ch "g"; WordB;
          NegAhead (Cat (Star space) (words 2 ["mg"; "mcg"]))], tt)].

(** [_extract_size] *)
Definition extract_size (text : string) : string :=
  match first_search size_patterns text with
  | Some (m, _) => py_strip (m_group0 text m)
  | None => ""
  end.

Definition variant_patterns : list regex :=
  [bw (words 1 ["forte"; "plus"; "max"; "ultra"; "premium"; "advanced"; "complex"; "complete"]);
   bw (words 1 ["extra"; "special"; "imuno"; "junior"; "mini"; "midi"; "maxi"]);
   bw (words 1 ["sensitive"; "gentle"; "soft"; "comfort"; "active"; "protect"])].

(** [_extract_variant] *)
Definition extract_variant (text : string) : string :=
  let variants := flat_map (fun p => re_findall p true text) variant_patterns in
  match variants with
  | [] => ""
  | _ => py_join " " (sorted_set variants)
  end.

(** [_detect_category] *)
Definition detect_category (text : string) : string :=
  match find (fun cp => existsb (fun p => match re_search p text with
                                          | Some _ => true | None => false end) (snd cp))
             category_patterns with
  | Some (c, _) => c
  | None => "other"
  end.

(** [_extract_base_name] *)
Definition remove_component (base comp : string) : string :=
  if String.eqb comp "" then base
  else
    let base := re_sub (bw (liti comp)) "" base in
    fold_left (fun b w => if 2 <n String.length w then re_sub (bw (liti w)) "" b else b)
      (py_split comp) base.

Definition packaging_patterns : list regex :=
  [bw (Grp 1 (Cat (chi "a") (plus digit)));
   cats [WordB; Grp 1 (plus digit); chi "x"; WordB];
   cats [WordB; plus digit; Star space; wordsi 1 ["kom"; "komada"; "pack"; "box"; "pcs"]; WordB]].

Definition extract_base_name (text brand strength form size variant : string) : string :=
  let base := fold_left remove_component [brand; strength; form; size; variant] text in
  let base := fold_left (fun b p => re_sub p "" b) packaging_patterns base in
  let meaningful := filter (fun w => negb (str_in w noise_words) && (1 <n String.length w))
                      (py_split base) in
  let base := py_join " " meaningful in
  py_strip (re_sub (plus space) " " base).

(** [_apply_synonyms] *)
Definition apply_synonyms (text : string) : string :=
  fold_left (fun t cs => fold_left (fun t syn => re_sub (bw (liti syn)) (fst cs) t) (snd cs) t)
    synonym_mappings text.

(** [_generate_normalized_name] *)
Definition generate_normalized_name (base_name brand strength form variant : string) : string :=
  let parts := concat
    [if String.eqb brand "" then [] else [py_title brand];
     if String.eqb base_name "" then [] else [py_title base_name];
     if String.eqb variant "" then [] else [py_title variant];
     if String.eqb strength "" then [] else [strength];
     if String.eqb form "" || str_in form ["tableta"; "kapsula"] then [] else [py_title form]] in
  py_join " " parts.

Definition token_pattern : regex := cats [WordB; wordc; plus wordc; WordB].

(** [_generate_search_tokens]: the token set is built and returned as
    [sorted(list(tokens))]. *)
Definition generate_search_tokens (original base_name brand strength form variant : string)
  : list string :=
  let tokens := re_findall token_pattern false (py_lower original) in
  let tokens := app tokens (flat_map (fun comp => if String.eqb comp "" then []
                                                else re_findall token_pattern false (py_lower comp))
                               [base_name; brand; strength; form; variant]) in
  let syn_tokens :=
    flat_map (fun token =>
                flat_map (fun cs => if str_in token (snd cs) then [fst cs]
                                    else if String.eqb token (fst cs) then snd cs else [])
                         synonym_mappings) tokens in
  let tokens := filter (fun t => negb (str_in t noise_words) && (1 <n String.length t))
                       (app tokens syn_tokens) in
  sorted_set tokens.

(** [_generate_grouping_key] *)
Definition generate_grouping_key (base_name brand strength form category : string) : string :=
  let key_parts := concat
    [if String.eqb base_name "" then [] else [py_lower base_name];
     if String.eqb brand "" then [] else [py_lower brand];
     if String.eqb strength "" then [] else [py_lower strength];
     if String.eqb category "" then [] else [category];
     if String.eqb form "" || str_in form ["tableta"; "kapsula"; "tablete"; "kapsule"]
     then [] else [py_lower form]] in
  py_join "|" key_parts.

(** [preprocess_product(title, brand_name)]; a [None] brand is the empty
    string, which Python treats the same way ([if brand_name:]). *)
Definition preprocess_product (title brand_name : string) : ProductIdentity :=
  if String.eqb title "" then empty_identity
  else
    let cleaned_title := basic_clean title in
    let brand := extract_brand cleaned_title brand_name in
    let strength := extract_strength cleaned_title in
    let form := extract_form cleaned_title in
    let size := extract_size cleaned_title in
    let variant := extract_variant cleaned_title in
    let category := detect_category cleaned_title in
    let base_name := extract_base_name cleaned_title brand strength form size variant in
    let base_name := apply_synonyms base_name in
    let normalized_name := generate_normalized_name base_name brand strength form variant in
    let search_tokens := generate_search_tokens cleaned_title base_name brand strength form variant in
    let grouping_key := generate_grouping_key base_name brand strength form category in
    mkIdentity base_name brand strength form size variant category normalized_name
      search_tokens grouping_key.

End Preprocessor.

(** ** [rapidfuzz.fuzz.ratio]

    The normalized Indel similarity, scaled to 0..100:
    [100 * 2 * lcs / (len1 + len2)], and 100 for two empty strings.  Scores
    are kept as exact rationals. *)

Fixpoint lcs_row (c : ascii) (s2 : list ascii) (prev : list nat) (diag left : nat) : list nat :=
  match s2, prev with
  | b :: s2', up :: prev' =>
      let v := if Ascii.eqb c b then S diag else Nat.max up left in
      v :: lcs_row c s2' prev' up v
  | _, _ => []
  end.

Definition lcs (s1 s2 : string) : nat :=
  let l2 := list_ascii_of_string s2 in
  last (fold_left (fun row c => lcs_row c l2 row 0 0) (list_ascii_of_string s1)
          (repeat 0 (length l2))) 0.

Definition fuzz_ratio (s1 s2 : string) : Q :=
  let lensum := String.length s1 + String.length s2 in
  if lensum =n 0 then 100
  else (inject_Z (Z.of_nat (200 * lcs s1 s2)) / inject_Z (Z.of_nat lensum))%Q.

(** [str.split(sep)] for a one-character separator *)
Fixpoint split_on_go (sep : ascii) (s : string) (cur : string) : list string :=
  match s with
  | EmptyString => [rev_str cur]
  | String c s' =>
      if Ascii.eqb c sep then rev_str cur :: split_on_go sep s' ""
      else split_on_go sep s' (String c cur)
  end.
Definition split_on (sep : ascii) (s : string) : list string := split_on_go sep s "".


Definition sumQ (l : list Q) : Q := fold_left Qplus l 0%Q.

(** [should_group_by_keys(key1, key2, similarity_threshold)] *)
Definition should_group_by_keys (key1 key2 : string) (similarity_threshold : Q) : bool :=
  if String.eqb key1 "" || String.eqb key2 "" then false
  else if String.eqb key1 key2 then true
  else
    let parts1 := split_on "|" key1 in
    let parts2 := split_on "|" key2 in
    if negb (length parts1 =n length parts2) then false
    else
      let similarities :=
        map (fun pq => if String.eqb (fst pq) (snd pq) then 1%Q
                       else (fuzz_ratio (fst pq) (snd pq) / 100)%Q)
            (combine parts1 parts2) in
      let avg_similarity := (sumQ similarities / inject_Z (Z.of_nat (length similarities)))%Q in
      Qle_bool similarity_threshold avg_similarity.

(** [a < b] on scores and prices *)
Definition Qltb (a b : Q) : bool := negb (Qle_bool b a).
(** Python's [max(a, b)]: [a] unless [b] is greater *)
Definition qmax (a b : Q) : Q := if Qltb a b then b else a.

(** [fuzz.token_sort_ratio]: the ratio of the whitespace tokens sorted and
    re-joined. *)
Definition token_sort_ratio (s1 s2 : string) : Q :=
  fuzz_ratio (py_join " " (sort_strs (py_split s1))) (py_join " " (sort_strs (py_split s2))).

(** rapidfuzz's normalized Indel similarity from a distance *)
Definition norm_sim (dist lensum : nat) : Q :=
  if lensum =n 0 then 100
  else (100 - inject_Z (Z.of_nat (100 * dist)) / inject_Z (Z.of_nat lensum))%Q.

(** [fuzz.token_set_ratio], as rapidfuzz computes it from the token sets:
    100 when one token set contains the other and they share a token, else
    the best of the ratios of [sect+ab] against [sect+ba] and of [sect]
    against each of them. *)
Definition token_set_ratio (s1 s2 : string) : Q :=
  let ta := nodup string_dec (py_split s1) in
  let tb := nodup string_dec (py_split s2) in
  match ta, tb with
  | [], _ | _, [] => 0
  | _, _ =>
    let inter := filter (fun t => str_in t tb) ta in
    let diff_ab := filter (fun t => negb (str_in t tb)) ta in
    let diff_ba := filter (fun t => negb (str_in t ta)) tb in
    match inter, diff_ab, diff_ba with
    | _ :: _, [], _ | _ :: _, _, [] => 100
    | _, _, _ =>
      let ab := py_join " " (sort_strs diff_ab) in
      let ba := py_join " " (sort_strs diff_ba) in
      let ab_len := String.length ab in
      let ba_len := String.length ba in
      let sect_len := String.length (py_join " " (sort_strs inter)) in
      let sep := if sect_len =n 0 then 0 else 1 in
      let sect_ab_len := sect_len + sep + ab_len in
      let sect_ba_len := sect_len + sep + ba_len in
      let dist := ab_len + ba_len - 2 * lcs ab ba in
      let result := norm_sim dist (sect_ab_len + sect_ba_len) in
      if sect_len =n 0 then result
      else
        let r_ab := norm_sim (sep + ab_len) (sect_len + sect_ab_len) in
        let r_ba := norm_sim (sep + ba_len) (sect_len + sect_ba_len) in
        qmax result (qmax r_ab r_ba)
    end
  end.

(** The fallback text similarity of [_group_products_hybrid]:
    [max(ratio, token_sort_ratio, token_set_ratio) / 100.0] of the
    lower-cased titles. *)
Definition text_similarity (a b : string) : Q :=
  (qmax (fuzz_ratio (py_lower a) (py_lower b))
        (qmax (token_sort_ratio (py_lower a) (py_lower b))
              (token_set_ratio (py_lower a) (py_lower b))) / 100)%Q.

(** ** [search_engine.py]: grouping of [PharmaSearchEngine] *)

Module Hybrid.
Import Preprocessor.

(** A product row as [_create_dynamic_groups] fetches it. *)
Record Product := mkProduct {
  p_id : string;
  p_title : string;
  p_price : Q;
  p_vendor : string;
  p_brand_name : string }.

(** The ML preprocessor returned by [get_ml_preprocessor()] when one is
    loaded; its embedding-based decisions are inputs of the model. *)
Record MLPreprocessor := mkML {
  should_group_products_ml : string -> string -> Q -> bool;
  compute_similarity : string -> string -> Q;
  get_ml_clusters : list string -> list (string * list string) }.

(** A result group.  The display name and the dosage fields, which no
    property below reads, are left out. *)
Record Group := mkGroup {
  g_id : string;
  g_products : list Product;
  g_min : Q;
  g_max : Q;
  g_vendor_count : nat;
  g_product_count : nat;
  g_search_rank : nat }.

Definition Item : Type := (Product * ProductIdentity)%type.

Definition item_key (it : Item) : string := grouping_key (snd it).
Definition item_id (it : Item) : string := p_id (fst it).


(** [groups_dict[k].append(v)] on a [defaultdict(list)] kept in insertion
    order. *)
Fixpoint dict_append {V : Type} (d : list (string * list V)) (k : string) (v : V)
  : list (string * list V) :=
  match d with
  | [] => [(k, [v])]
  | (k', vs) :: d' => if String.eqb k k' then (k', app vs [v]) :: d'
                      else (k', vs) :: dict_append d' k v
  end.

(** Stable insertion sort: [sorted(l, key=...)] given [le] on keys. *)
Fixpoint insert_by {A : Type} (le : A -> A -> bool) (x : A) (l : list A) : list A :=
  match l with
  | [] => [x]
  | y :: l' => if le y x then y :: insert_by le x l' else x :: l
  end.
Definition stable_sort {A : Type} (le : A -> A -> bool) (l : list A) : list A :=
  fold_left (fun acc x => insert_by le x acc) l [].

(** [{pid: idx for idx, pid in enumerate(product_ids)}.get(pid, default)]:
    the last index of [pid]. *)
Fixpoint last_index (ids : list string) (pid : string) (i : nat) (found : option nat) : option nat :=
  match ids with
  | [] => found
  | x :: ids' => last_index ids' pid (S i) (if String.eqb x pid then Some i else found)
  end.

Definition py_minQ (x : Q) (l : list Q) : Q := fold_left (fun acc y => if Qltb y acc then y else acc) l x.
Definition py_maxQ (x : Q) (l : list Q) : Q := fold_left (fun acc y => if Qltb acc y then y else acc) l x.

(** [_create_group_from_products] (for a non-empty list) *)
Definition create_group_from_products (group_products : list Product) (product_ids : list string)
  (group_id : string) : Group :=
  let group_products := stable_sort (fun a b => Qle_bool (p_price a) (p_price b)) group_products in
  let prices := map p_price (filter (fun p => negb (Qeq_bool (p_price p) 0)) group_products) in
  let '(mn, mx) := match prices with
                   | [] => (0%Q, 0%Q)
                   | x :: xs => (py_minQ x xs, py_maxQ x xs)
                   end in
  let search_rank :=
    match group_products with
    | [] => length product_ids
    | p0 :: _ => match last_index product_ids (p_id p0) 0 None with
                 | Some i => i
                 | None => length product_ids
                 end
    end in
  mkGroup group_id group_products mn mx
    (length (nodup string_dec (map p_vendor group_products)))
    (length group_products) search_rank.

(** [final_groups.sort(key=lambda x: (x["search_rank"], -x["vendor_count"]))] *)
Definition group_key_le (a b : Group) : bool :=
  (g_search_rank a <n g_search_rank b)
  || ((g_search_rank a =n g_search_rank b) && (g_vendor_count b <=n g_vendor_count a)).

Definition sort_groups (gs : list Group) : list Group := stable_sort group_key_le gs.

(** [list.remove(x)]: drop the first element with the id of [x] *)
Fixpoint remove_first (x : Product) (l : list Product) : list Product :=
  match l with
  | [] => []
  | y :: l' => if String.eqb (p_id y) (p_id x) then l' else y :: remove_first x l'
  end.

Section Grouping.

(** The ML preprocessor of the process, if any, and Python's [hash] on
    strings in this process (randomised per process for [str]). *)
Variable ml : option MLPreprocessor.
Variable py_hash : string -> Z.

Definition ml_similar (it : Item) (entry : string * list Item) : bool :=
  match ml, snd entry with
  | Some m, first :: _ =>
      let existing_product_id := item_id first in
      nonempty existing_product_id && nonempty (item_id it)
      && should_group_products_ml m (item_id it) existing_product_id (4 # 5)
  | _, _ => false
  end.

(** One step of the first loop over [product_identities]. *)
Definition place_item (st : list (string * list Item) * list Item) (it : Item)
  : list (string * list Item) * list Item :=
  let '(groups, ungrouped) := st in
  let key := item_key it in
  if String.eqb key "" then (groups, app ungrouped [it])
  else
    match find (fun e => should_group_by_keys key (fst e) (3 # 4) || ml_similar it e) groups with
    | Some (existing_key, _) => (dict_append groups existing_key it, ungrouped)
    | None => (dict_append groups key it, ungrouped)
    end.

(** The scan for the best group of an ungrouped item. *)
Definition best_group_step (it : Item) (best : option string * Q) (entry : string * list Item)
  : option string * Q :=
  let '(best_group_key, best_similarity) := best in
  let '(group_key, group_items) := entry in
  match group_items with
  | [] => best
  | first :: _ =>
    let ml_choice :=
      match ml with
      | Some m =>
          if nonempty (item_id it) && nonempty (item_id first) then
            let ml_sim := compute_similarity m (item_id it) (item_id first) in
            if Qltb best_similarity ml_sim && Qltb (7 # 10) ml_sim
            then Some (Some group_key, ml_sim) else None
          else None
      | None => None
      end in
    match ml_choice with
    | Some b => b
    | None =>
        let ts := text_similarity (p_title (fst it)) (p_title (fst first)) in
        if Qltb best_similarity ts && Qltb (7 # 10) ts then (Some group_key, ts) else best
    end
  end.

Definition place_ungrouped (groups : list (string * list Item)) (it : Item)
  : list (string * list Item) :=
  match fold_left (best_group_step it) groups (None, 0%Q) with
  | (Some k, _) => if nonempty k then dict_append groups k it
                   else dict_append groups (if nonempty (item_key it) then item_key it
                                            else "single_" ++ item_id it) it
  | (None, _) => dict_append groups (if nonempty (item_key it) then item_key it
                                     else "single_" ++ item_id it) it
  end.

Definition hash_id (prefix key : string) : string :=
  prefix ++ N_to_str (Z.abs_N (py_hash key)).

(** [_group_products_hybrid(products, query, product_ids)] *)
Definition group_products_hybrid (products : list Product) (product_ids : list string)
  : list Group :=
  let product_identities :=
    map (fun p => (p, preprocess_product (p_title p) (p_brand_name p))) products in
  let '(groups, ungrouped) := fold_left place_item product_identities ([], []) in
  let groups := fold_left place_ungrouped ungrouped groups in
  let final_groups :=
    flat_map (fun e => match snd e with
                       | [] => []
                       | items => [create_group_from_products (map fst items) product_ids
                                     (hash_id "hybrid_" (fst e))]
                       end) groups in
  sort_groups final_groups.

(** [_create_groups_from_ml_clusters]; products are told apart by id, which
    is what [list.remove] on the fetched rows amounts to. *)
Definition create_groups_from_ml_clusters (m : MLPreprocessor) (products : list Product)
  (ml_clusters : list (string * list string)) (product_ids : list string) : list Group :=
  let lookup pid := find (fun p => String.eqb (p_id p) pid) (rev products) in
  let '(final_groups, unclustered) :=
    fold_left (fun st cl =>
      let '(gs, uncl) := st in
      let cluster_products := flat_map (fun pid => match lookup pid with
                                                   | Some p => [p] | None => [] end) (snd cl) in
      let uncl := fold_left (fun u p => remove_first p u) cluster_products uncl in
      match cluster_products with
      | [] => (gs, uncl)
      | _ => (app gs [create_group_from_products cluster_products product_ids
                        ("ml_cluster_" ++ fst cl)], uncl)
      end) ml_clusters ([], products) in
  let singles := map (fun p => create_group_from_products [p] product_ids ("single_" ++ p_id p))
                   unclustered in
  sort_groups (app final_groups singles).

(** [_group_products_with_preprocessor] (through [_group_products_dynamically]) *)
Definition group_products_with_preprocessor (products : list Product) (product_ids : list string)
  : list Group :=
  match products with
  | [] => []
  | _ =>
    match ml with
    | Some m =>
        match get_ml_clusters m product_ids with
        | [] => group_products_hybrid products product_ids
        | cl => create_groups_from_ml_clusters m products cl product_ids
        end
    | None => group_products_hybrid products product_ids
    end
  end.

Record Page := mkPage { pg_groups : list Group; pg_total : nat; pg_offset : nat; pg_limit : nat }.

(** [_create_dynamic_groups] after its query: [products] are the fetched
    rows (filtered, [ORDER BY p.price]); the page is [groups[offset:offset+limit]]. *)
Definition create_dynamic_groups (products : list Product) (product_ids : list string)
  (limit offset : nat) : Page :=
  match products with
  | [] => mkPage [] 0 offset limit
  | _ =>
    let groups := group_products_with_preprocessor products product_ids in
    mkPage (firstn limit (skipn offset groups)) (length groups) offset limit
  end.

End Grouping.
End Hybrid.
(** [str.startswith] and [in] on strings *)
Fixpoint starts_with (pre s : string) : bool :=
  match pre, s with
  | EmptyString, _ => true
  | String a pre', String b s' => Ascii.eqb a b && starts_with pre' s'
  | String _ _, EmptyString => false
  end.

Fixpoint str_contains (sub s : string) : bool :=
  starts_with sub s || match s with
                       | EmptyString => false
                       | String _ s' => str_contains sub s'
                       end.

(** ** [search_engine_duckdb.py]: grouping and price statistics of
    [DuckDBPharmaSearchEngine]

    Prices are Python floats.  The section is generic in the number type and
    its operations, so that the same definitions run on IEEE doubles
    (Rocq's primitive floats, below) and can be reasoned about over any
    ordered type. *)

Module DuckDB.

Section Numbers.

Variable F : Type.
Variables (F_ltb F_eqb : F -> F -> bool) (F_add F_sub F_div : F -> F -> F).
Variable F_of_nat : nat -> F.
(** [hashlib.md5(name.encode()).hexdigest()[:12]] *)
Variable md5_12 : string -> string.

(** A row of [_get_fts_matches] ([price] is [None] for a NULL price). *)
Record Row := mkRow {
  r_id : string;
  r_title : string;
  r_normalized_name : string;
  r_price : option F;
  r_vendor_id : string }.

Record Group := mkGroup {
  g_id : string;
  g_normalized_name : string;
  g_products : list Row;
  g_min : F;
  g_max : F;
  g_avg : F;
  g_range : F;
  g_vendor_count : nat;
  g_product_count : nat }.

(** Python's [min(xs)] and [max(xs)] on a non-empty list: the running value
    is replaced only by a strictly smaller (greater) item. *)
Definition py_min (x : F) (xs : list F) : F := fold_left (fun acc y => if F_ltb y acc then y else acc) xs x.
Definition py_max (x : F) (xs : list F) : F := fold_left (fun acc y => if F_ltb acc y then y else acc) xs x.

(** [sum(prices)]: left-to-right float addition from the integer 0. *)
Definition py_sum (x : F) (xs : list F) : F := fold_left F_add xs x.

Definition row_prices (rows : list Row) : list F :=
  flat_map (fun r => match r_price r with Some x => [x] | None => [] end) rows.

(** The group object built for one [(group_name, products)] entry, or
    [None] when no product has a price ([if not prices: continue]). *)
Definition make_group (group_name : string) (products : list Row) : option Group :=
  match row_prices products with
  | [] => None
  | x :: xs =>
      let min_price := py_min x xs in
      let max_price := py_max x xs in
      let avg_price := F_div (py_sum x xs) (F_of_nat (length (x :: xs))) in
      let vendors := nodup string_dec (filter (fun v => negb (String.eqb v "")) (map r_vendor_id products)) in
      Some (mkGroup (md5_12 group_name) (py_title group_name) products min_price max_price
              avg_price (F_sub max_price min_price) (length vendors) (length products))
  end.

(** [group_relevance] *)
Definition group_relevance (query : string) (g : Group) : nat :=
  let name := py_lower (g_normalized_name g) in
  let max_relevance := if str_contains query name then 1000
                       else if starts_with query name then 500 else 100 in
  if 1 <n g_vendor_count g then max_relevance + 50 else max_relevance.

(** [groups.sort(key=group_relevance, reverse=True)]: stable, descending *)
Definition sort_by_relevance (query : string) (gs : list Group) : list Group :=
  Hybrid.stable_sort (fun a b => group_relevance query b <=n group_relevance query a) gs.

(** The grouping dict: key [(normalizedName or title).lower()], insertion
    order kept. *)
Definition group_rows (matches : list Row) : list (string * list Row) :=
  fold_left (fun d r =>
      let group_key := if String.eqb (r_normalized_name r) "" then r_title r else r_normalized_name r in
      if String.eqb group_key "" then d else Hybrid.dict_append d (py_lower group_key) r)
    matches [].

Record Page := mkPage { pg_groups : list Group; pg_total : nat; pg_offset : nat; pg_limit : nat }.

(** [_create_dynamic_groups(matches, query, filters, limit, offset, search_type)] *)
Definition create_dynamic_groups (matches : list Row) (query : string) (limit offset : nat) : Page :=
  let groups := flat_map (fun e => match make_group (fst e) (snd e) with
                                   | Some g => [g] | None => [] end) (group_rows matches) in
  let groups := sort_by_relevance query groups in
  mkPage (firstn limit (skipn offset groups)) (length groups) offset limit.

(** A row of [PriceComparisonView] as [get_price_comparison] reads it. *)
Record ViewRow := mkViewRow {
  v_product_id : string;
  v_price : F;
  v_min_price : option F;
  v_max_price : option F }.

Record PriceAnalysis := mkAnalysis { is_best_deal : bool; is_worst_deal : bool }.

(** [get_price_comparison]: the group's [min] and [max] come from the first
    row ([.get('min_price', 0)]); [None] stands for the [ValueError] raised
    on an empty result. *)
Definition get_price_comparison (zero : F) (results : list ViewRow)
  : option (F * F * list (string * F * PriceAnalysis)) :=
  match results with
  | [] => None
  | first :: _ =>
      let mn := match v_min_price first with Some m => m | None => zero end in
      let mx := match v_max_price first with Some m => m | None => zero end in
      Some (mn, mx, map (fun r => (v_product_id r, v_price r,
                                   mkAnalysis (F_eqb (v_price r) mn) (F_eqb (v_price r) mx)))
                        results)
  end.

End Numbers.

End DuckDB.

(** ** [normalizer.py]: [PharmaNormalizer._extract_dosage]

    A title is the UTF-8 encoding of the Python string, one [ascii] per byte:
    ["μg"] below is the three bytes [CE BC 67].  The character classes
    ([\d], [\s], [\b]) and case folding are read on ASCII characters, as in
    the rest of this development. *)

Module Normalizer.

(** [unit_mappings] *)
Definition unit_mappings : list (string * string) :=
  [("gr", "g"); ("grams", "g"); ("gram", "g"); ("kg", "kg"); ("kilogram", "kg");
   ("mg", "mg"); ("miligram", "mg"); ("milligram", "mg"); ("mcg", "mcg");
   ("μg", "mcg"); ("mikrogram", "mcg"); ("ml", "ml"); ("mililitar", "ml");
   ("milliliter", "ml"); ("l", "L"); ("litar", "L"); ("liter", "L");
   ("c", "caps"); ("cap", "caps"); ("caps", "caps"); ("capsule", "caps");
   ("kapsule", "caps"); ("kapsula", "caps"); ("t", "tab"); ("tab", "tab");
   ("tabs", "tab"); ("tablet", "tab"); ("tableta", "tab"); ("tablete", "tab");
   ("gc", "softgel"); ("gelcaps", "softgel"); ("gb", "gummies");
   ("gummies", "gummies"); ("ser", "serving"); ("serving", "serving");
   ("iu", "IU"); ("ie", "IU")].

(** [(\d+(?:[.,]\d+)?)] *)
Definition num_sep : regex := Grp 1 (Cat (plus digit) (opt (Cat (oneof ".,") (plus digit)))).

(** [μg] under [re.IGNORECASE]: the Greek letter [μ] also matches its
    capital [Μ] and the micro sign [µ], which [re] folds together. *)
Definition mu_g : regex := Cat (alts [lit "μ"; lit "Μ"; lit "µ"]) (chi "g").

(** [self.patterns["dosage"]] under [re.IGNORECASE], with the number of
    groups of each pattern. *)
Definition dosage_patterns : list (regex * nat) :=
  [(cats [num_sep; Star space;
          Grp 2 (alts [liti "mg"; liti "g"; liti "mcg"; mu_g; liti "iu"; liti "ie"]); WordB], 2);
   (cats [num_sep; Star space; wordsi 2 ["miligram"; "gram"; "mikrogram"]], 2);
   (cats [num_sep; Star space; ch "%"], 1);
   (cats [Grp 1 (plus digit); ch "-"; Grp 2 (plus digit); ch "-"; Grp 3 (plus digit)], 3)].

(** [s.replace(",", ".")] *)
Definition replace_comma (s : string) : string :=
  str_map (fun c => if Ascii.eqb c "," then "."%char else c) s.

(** [float(s)] on a string [\d+(\.\d+)?], as the exact decimal it denotes
    (the double nearest to it in the program). *)
Definition parse_decimal (s : string) : Q :=
  match split_on "." s with
  | [a; b] => (inject_Z (Z.of_N (digits_to_N 0 a))
               + inject_Z (Z.of_N (digits_to_N 0 b)) / inject_Z (10 ^ Z.of_nat (String.length b)))%Q
  | _ => inject_Z (Z.of_N (digits_to_N 0 s))
  end.

(** [str.lower] on what group 2 of a dosage pattern holds: ASCII letters,
    and on the first pattern [μ], [Μ] or [µ] before a [g]; [Μ] (bytes
    [CE 9C]) lowers to [μ] ([CE BC]), and the micro sign is already lower
    case. *)
Fixpoint unit_lower (s : string) : string :=
  match s with
  | EmptyString => EmptyString
  | String a t =>
      match t with
      | String b t' =>
          if (code a =n 206) && (code b =n 156) then String a (String (ascii_of_nat 188) (unit_lower t'))
          else String (lower_char a) (unit_lower t)
      | EmptyString => String (lower_char a) EmptyString
      end
  end.

Record Dosage := mkDosage { dosage_value : option Q; dosage_unit : option string; dosage_conf : Q }.

Definition no_dosage : Dosage := mkDosage None None 0.

(** [_extract_dosage(title)].  On the strings the patterns match, [float]
    does not raise, so the [except: continue] branch is never taken. *)
Definition extract_dosage (title : string) : Dosage :=
  match first_search dosage_patterns title with
  | None => no_dosage
  | Some (m, ngroups) =>
      if str_contains "-" (m_group0 title m) then no_dosage
      else
        let value := parse_decimal (replace_comma (group_or_empty title m 1)) in
        let unit := if 1 <n ngroups then Some (unit_lower (group_or_empty title m 2)) else None in
        let unit := match unit with
                    | Some u => if nonempty u then Some (dict_get unit_mappings u u) else Some u
                    | None => None
                    end in
        mkDosage (Some value) unit (9 # 10)
  end.

End Normalizer.

(** ** Python dicts in insertion order *)

Fixpoint dict_lookup {V : Type} (k : string) (d : list (string * V)) : option V :=
  match d with
  | [] => None
  | (k', v) :: d' => if String.eqb k' k then Some v else dict_lookup k d'
  end.

(** [d[k] = v]: an existing key keeps its place, a new one goes last. *)
Fixpoint dict_set {V : Type} (k : string) (v : V) (d : list (string * V)) : list (string * V) :=
  match d with
  | [] => [(k, v)]
  | (k', v') :: d' => if String.eqb k' k then (k', v) :: d' else (k', v') :: dict_set k v d'
  end.

(** [del d[k]] *)
Definition dict_delete {V : Type} (k : string) (d : list (string * V)) : list (string * V) :=
  filter (fun e => negb (String.eqb (fst e) k)) d.

(** [suffix in s] helpers: [str.endswith] *)
Definition ends_with (suffix s : string) : bool := starts_with (rev_str suffix) (rev_str s).
(** ** [search_engine.py]: the result cache of [PharmaSearchEngine.search]

    Times are [time.time()] values; the model takes them as exact rationals.
    Two such doubles within a factor of two of each other subtract exactly,
    so [time.time() - timestamp < 300] is decided as on the reals. *)

Module Cache.

Section Cache.

Variables (Result Filters : Type).
(** [hashlib.md5(s.encode()).hexdigest()] *)
Variable md5_hexdigest : string -> string.
(** [json.dumps(filters, sort_keys=True)] for a filters dict *)
Variable dumps_filters : Filters -> string.
(** [_db_search_groups_enhanced] and [_search_products] on the current
    database snapshot *)
Variable db_search_groups_enhanced : string -> option Filters -> nat -> nat -> Result.
Variable search_products : string -> option Filters -> nat -> nat -> Result.

Definition dq : string := String (ascii_of_nat 34) EmptyString.
Definition bs : string := String (ascii_of_nat 92) EmptyString.

Definition hex_digit (n : nat) : ascii :=
  if n <n 10 then ascii_of_nat (48 + n) else ascii_of_nat (87 + n).

(** One character of a JSON string as [json.dumps] (with [ensure_ascii])
    writes it: its [ESCAPE_ASCII] pattern escapes the double quote,
    the backslash and every character outside [' '..'~'], the controls with
    their short forms where there is one, the rest as [\u] and four lower-case
    hex digits.  A string of the cache key is a sequence of code points below
    256, one [ascii] each. *)
Definition json_char (c : ascii) : string :=
  let n := code c in
  if n =n 34 then bs ++ dq
  else if n =n 92 then bs ++ bs
  else if n =n 10 then bs ++ "n"
  else if n =n 13 then bs ++ "r"
  else if n =n 9 then bs ++ "t"
  else if n =n 8 then bs ++ "b"
  else if n =n 12 then bs ++ "f"
  else if (n <n 32) || (126 <n n) then bs ++ "u00" ++ String (hex_digit (n / 16)) (String (hex_digit (n mod 16)) "")
  else String c "".

Fixpoint json_chars (s : string) : string :=
  match s with
  | EmptyString => ""
  | String c s' => json_char c ++ json_chars s'
  end.

Definition json_str (s : string) : string := dq ++ json_chars s ++ dq.

(** [json.dumps(key_data, sort_keys=True)] *)
Definition dumps_key_data (query : string) (filters : option Filters) (limit offset : nat)
  (search_type : string) : string :=
  "{" ++ json_str "filters" ++ ": "
      ++ match filters with Some f => dumps_filters f | None => "{}" end ++ ", "
      ++ json_str "limit" ++ ": " ++ N_to_str (N.of_nat limit) ++ ", "
      ++ json_str "offset" ++ ": " ++ N_to_str (N.of_nat offset) ++ ", "
      ++ json_str "query" ++ ": " ++ json_str query ++ ", "
      ++ json_str "search_type" ++ ": " ++ json_str search_type ++ "}".

(** [_get_cache_key(query, filters, limit, offset, search_type)]; the
    filters are [None] or a dict ([filters or {}] dumps an empty one as
    [{}] either way). *)
Definition _get_cache_key (query : string) (filters : option Filters) (limit offset : nat)
  (search_type : string) : string :=
  md5_hexdigest (dumps_key_data (py_strip (py_lower query)) filters limit offset search_type).

Record CacheEntry := mkEntry { ce_result : Result; ce_timestamp : Q }.

Record SearchState := mkState {
  search_cache : list (string * CacheEntry);
  cache_hits : nat;
  cache_misses : nat }.

(** [_is_cache_valid(entry)] at time [now], [max_age = 300] *)
Definition _is_cache_valid (now : Q) (e : CacheEntry) : bool := Qltb (now - ce_timestamp e) 300.

(** [search(query, filters, group_results, limit, offset, force_db_search)]:
    [t_check] is the [time.time()] read by [_is_cache_valid] and [t_insert]
    the one stored with a fresh result. *)
Definition search (st : SearchState) (query : string) (filters : option Filters)
  (group_results : bool) (limit offset : nat) (force_db_search : bool) (t_check t_insert : Q)
  : Result * SearchState :=
  let search_type := if force_db_search then "db" else "hybrid" in
  let cache_key := _get_cache_key query filters limit offset search_type in
  let '(hit, c) :=
    match dict_lookup cache_key (search_cache st) with
    | Some e => if _is_cache_valid t_check e then (Some e, search_cache st)
                else (None, dict_delete cache_key (search_cache st))
    | None => (None, search_cache st)
    end in
  match hit with
  | Some e => (ce_result e, mkState c (S (cache_hits st)) (cache_misses st))
  | None =>
      let result := if group_results then db_search_groups_enhanced query filters limit offset
                    else search_products query filters limit offset in
      let c := dict_set cache_key (mkEntry result t_insert) c in
      let c := if 1000 <n length c then skipn (length c - 500) c else c in
      (result, mkState c (cache_hits st) (S (cache_misses st)))
  end.

End Cache.

End Cache.

Arguments Cache._get_cache_key {Filters}.
Arguments Cache.mkEntry {Result}.
Arguments Cache.ce_result {Result}.
Arguments Cache.ce_timestamp {Result}.
Arguments Cache.mkState {Result}.
Arguments Cache.search_cache {Result}.
Arguments Cache.cache_hits {Result}.
Arguments Cache.cache_misses {Result}.
Arguments Cache._is_cache_valid {Result}.
Arguments Cache.search {Result Filters}.

(** ** [similarity_matcher.py]: [SimilarityMatcher.find_similar_products] *)

Module Matcher.

(** A hit [(product_id, score, name)]; scores are only compared, and are
    taken as exact rationals. *)
Definition Hit : Type := (string * Q * string)%type.

Definition hit_id (h : Hit) : string := fst (fst h).
Definition hit_score (h : Hit) : Q := snd (fst h).

(** [_combine_and_deduplicate_results(all_results, threshold)] *)
Definition best_scores (all_results : list Hit) : list (string * (Q * string)) :=
  fold_left (fun d h =>
      let '(product_id, score, name) := h in
      match dict_lookup product_id d with
      | None => dict_set product_id (score, name) d
      | Some (best, _) => if Qltb best score then dict_set product_id (score, name) d else d
      end) all_results [].

(** [[(pid, score, product_names[pid]) for pid, score in best_scores.items()
    if score >= threshold]] *)
Definition survivors (threshold : Q) (best : list (string * (Q * string))) : list Hit :=
  flat_map (fun e => let '(pid, (score, name)) := e in
                     if Qle_bool threshold score then [(pid, score, name)] else []) best.

Definition _combine_and_deduplicate_results (all_results : list Hit) (threshold : Q) : list Hit :=
  let combined := survivors threshold (best_scores all_results) in
  Hybrid.stable_sort (fun a b => Qle_bool (hit_score b) (hit_score a)) combined.

(** [effective_threshold] of [find_similar_products] *)
Definition effective_threshold (query_len : nat) (threshold : Q) : Q :=
  if query_len <=n 2 then qmax (1 # 5) (threshold * (3 # 10))
  else if query_len <=n 4 then qmax (2 # 5) (threshold * (3 # 5))
  else threshold.

(** The exact-word tier, over [(product_id, product_name)] pairs. *)
Definition exact_word_matches (query_lower : string) (query_len : nat)
  (products : list (string * string)) : list Hit :=
  flat_map (fun p =>
      let '(pid, name) := p in
      let name_lower := py_lower name in
      let short :=
        if query_len <=n 3 then
          if existsb (starts_with query_lower) (py_split name_lower) then [(pid, 9 # 10, name)]
          else if starts_with query_lower name_lower then [(pid, 19 # 20, name)]
          else []
        else [] in
      let long :=
        if str_in query_lower (py_split name_lower) then [(pid, 1%Q, name)]
        else if str_contains (" " ++ query_lower ++ " ") (" " ++ name_lower ++ " ")
                || starts_with query_lower name_lower
                || ends_with (" " ++ query_lower) name_lower
        then [(pid, 19 # 20, name)] else [] in
      app short long) products.

Section Tiers.

(** The loaded FAISS index, if any, and what [encoder.encode] followed by
    [index.search] returns for a query: [(index, L2 distance)] pairs. *)
Variable Index : Type.
Variable faiss_search : Index -> string -> nat -> list (Z * Q).
(** [_fuzzy_search(query, k, query_len)] (rapidfuzz [process.extract]). *)
Variable _fuzzy_search : string -> nat -> nat -> list Hit.

(** [_semantic_search(query, k, query_len)] *)
Definition _semantic_search (index : option Index) (products : list (string * string))
  (query : string) (k query_len : nat) : list Hit :=
  match index with
  | None => []
  | Some ix =>
      let search_k := if query_len <=n 4 then k * 3 else k * 2 in
      let min_similarity := if query_len <=n 3 then 1 # 4
                            else if query_len <=n 4 then 7 # 20 else 2 # 5 in
      flat_map (fun r =>
          let '(idx, dist) := r in
          if (idx <? Z.of_nat (length products))%Z && (0 <=? idx)%Z then
            let similarity := qmax 0 (1 - dist / 2) in
            if Qltb min_similarity similarity then
              match nth_error products (Z.to_nat idx) with
              | Some (pid, name) => [(pid, similarity, name)]
              | None => []
              end
            else []
          else []) (faiss_search ix query search_k)
  end.

(** [find_similar_products(query, k, threshold)] *)
Definition find_similar_products (index : option Index) (products : list (string * string))
  (query : string) (k : nat) (threshold : Q) : list Hit :=
  let query_lower := py_strip (py_lower query) in
  let query_len := String.length query_lower in
  let effective := effective_threshold query_len threshold in
  let results := exact_word_matches query_lower query_len products in
  let fuzzy_results := _fuzzy_search query k query_len in
  let semantic_results := _semantic_search index products query k query_len in
  firstn k (_combine_and_deduplicate_results (app (app results fuzzy_results) semantic_results)
              effective).

End Tiers.

End Matcher.

(** ** Observations on the results and sample inputs *)


(** Two products of one title from two manufacturers. *)
Definition vitc_hemofarm : Hybrid.Product := Hybrid.mkProduct "p1" "Vitamin C 500 mg" 10 "v1" "Hemofarm".

(** [float(n)] for a list length *)
Definition float_of_nat (n : nat) : float := PrimFloat.of_uint63 (Uint63.of_Z (Z.of_nat n)).

(** The DuckDB grouping on IEEE doubles. *)
Definition duckdb_groups_float (md5_12 : string -> string) (matches : list (DuckDB.Row float))
  (query : string) (limit offset : nat) : DuckDB.Page float :=
  DuckDB.create_dynamic_groups float PrimFloat.ltb PrimFloat.add PrimFloat.sub PrimFloat.div
    float_of_nat md5_12 matches query limit offset.

Definition priced_row (id name : string) (x : float) : DuckDB.Row float :=
  DuckDB.mkRow float id name name (Some x) id.

(** Position of the first candidate of [matches] that is a member of [g]. *)
Fixpoint first_pos_go (matches : list (DuckDB.Row float)) (g : DuckDB.Group float) (i : nat) : nat :=
  match matches with
  | [] => i
  | r :: rs => if existsb (fun p => String.eqb (DuckDB.r_id float p) (DuckDB.r_id float r)) (DuckDB.g_products float g)
               then i else first_pos_go rs g (S i)
  end.

(** Groups listed by increasing position of their first-appearing member. *)
Fixpoint ordered_by_first_appearance (matches : list (DuckDB.Row float))
  (gs : list (DuckDB.Group float)) : bool :=
  match gs with
  | g1 :: (g2 :: _) as gs' => (first_pos_go matches g1 0 <=n first_pos_go matches g2 0)
                              && ordered_by_first_appearance matches gs'
  | _ => true
  end.

(** ** Theorems *)

(** *** Lists, sorting and dicts *)

Lemma insert_by_In {A : Type} (le : A -> A -> bool) (x a : A) (l : list A) :
  In x (Hybrid.insert_by le a l) <-> a = x \/ In x l.
Proof.
  induction l as [|y l IH]; simpl.
  - tauto.
  - destruct (le y a); simpl; rewrite ?IH; tauto.
Qed.

Lemma insert_by_perm {A : Type} (le : A -> A -> bool) (a : A) (l : list A) :
  Permutation (a :: l) (Hybrid.insert_by le a l).
Proof.
  induction l as [|y l IH]; simpl.
  - constructor; constructor.
  - destruct (le y a).
    + eapply perm_trans; [apply perm_swap|]. constructor. exact IH.
    + apply Permutation_refl.
Qed.

Lemma stable_sort_perm {A : Type} (le : A -> A -> bool) (l : list A) :
  Permutation l (Hybrid.stable_sort le l).
Proof.
  unfold Hybrid.stable_sort.
  assert (G : forall acc, Permutation (app (rev l) acc)
                            (fold_left (fun acc x => Hybrid.insert_by le x acc) l acc)).
  { induction l as [|x l IH]; intro acc; simpl.
    - apply Permutation_refl.
    - rewrite <- app_assoc. simpl.
      eapply perm_trans; [|apply IH].
      apply Permutation_app_head. apply insert_by_perm. }
  specialize (G []). rewrite app_nil_r in G.
  eapply perm_trans; [apply Permutation_rev|]. exact G.
Qed.

Lemma stable_sort_In {A : Type} (le : A -> A -> bool) (x : A) (l : list A) :
  In x (Hybrid.stable_sort le l) <-> In x l.
Proof.
  split; intro H.
  - eapply Permutation_in; [apply Permutation_sym, stable_sort_perm|exact H].
  - eapply Permutation_in; [apply stable_sort_perm|exact H].
Qed.

Section Sorting.

Variable A : Type.
Variable le : A -> A -> bool.
Hypothesis le_total : forall a b, le a b = false -> le b a = true.

Lemma insert_by_sorted (a : A) (l : list A) :
  LocallySorted (fun x y => le x y = true) l ->
  LocallySorted (fun x y => le x y = true) (Hybrid.insert_by le a l).
Proof.
  induction 1 as [|y|y z l Hs IH Hyz]; simpl.
  - constructor.
  - destruct (le y a) eqn:E; constructor; auto; constructor.
  - destruct (le y a) eqn:E.
    + simpl in IH. destruct (le z a) eqn:E2.
      * constructor; auto.
      * constructor; auto.
    + constructor; [constructor; auto|apply le_total; exact E].
Qed.

Lemma stable_sort_sorted (l : list A) :
  Sorted (fun x y => le x y = true) (Hybrid.stable_sort le l).
Proof.
  apply Sorted_LocallySorted_iff. unfold Hybrid.stable_sort.
  assert (G : forall acc, LocallySorted (fun x y => le x y = true) acc ->
            LocallySorted (fun x y => le x y = true)
              (fold_left (fun acc x => Hybrid.insert_by le x acc) l acc)).
  { induction l as [|x l IH]; intros acc H; simpl; auto.
    apply IH. apply insert_by_sorted. exact H. }
  apply G. constructor.
Qed.

End Sorting.

Lemma Sorted_skipn {A : Type} (R : A -> A -> Prop) (n : nat) (l : list A) :
  Sorted R l -> Sorted R (skipn n l).
Proof.
  revert l; induction n as [|n IH]; intros l H; simpl; auto.
  destruct l; auto. apply IH. inversion H; auto.
Qed.

Lemma Sorted_firstn {A : Type} (R : A -> A -> Prop) (n : nat) (l : list A) :
  Sorted R l -> Sorted R (firstn n l).
Proof.
  revert l; induction n as [|n IH]; intros l H; simpl; auto.
  destruct l as [|a l]; auto.
  inversion H as [|? ? Hs Hh]; subst. constructor; auto.
  destruct n; simpl; auto. destruct l; simpl; auto.
  inversion Hh; subst. constructor. auto.
Qed.

Lemma Sorted_weaken {A : Type} (R R' : A -> A -> Prop) (l : list A) :
  (forall a b, R a b -> R' a b) -> Sorted R l -> Sorted R' l.
Proof.
  intros HR H. induction H as [|a l Hs IH Hh]; constructor; auto.
  destruct Hh; constructor; auto.
Qed.

Lemma NoDup_snoc {A : Type} (l : list A) (x : A) :
  NoDup l -> ~ In x l -> NoDup (app l [x]).
Proof.
  intros H Hx. apply Permutation_NoDup with (l := x :: l).
  - apply Permutation_cons_append.
  - constructor; auto.
Qed.

Section Dicts.

Variable V : Type.
Implicit Types (d : list (string * V)) (k : string) (v : V).

Lemma dict_lookup_Some d k v : dict_lookup k d = Some v -> In (k, v) d.
Proof.
  induction d as [|[k' v'] d IH]; simpl; [discriminate|].
  destruct (String.eqb k' k) eqn:E.
  - apply String.eqb_eq in E. subst. intro H. injection H as <-. auto.
  - auto.
Qed.

Lemma dict_lookup_None d k : dict_lookup k d = None -> ~ In k (map fst d).
Proof.
  induction d as [|[k' v'] d IH]; simpl; auto.
  destruct (String.eqb k' k) eqn:E; [discriminate|].
  apply String.eqb_neq in E. intros H [H1|H1]; [congruence|]. exact (IH H H1).
Qed.

Lemma dict_lookup_In d k v : NoDup (map fst d) -> In (k, v) d -> dict_lookup k d = Some v.
Proof.
  induction d as [|[k' v'] d IH]; simpl; [tauto|].
  intros Hnd [H|H]; inversion Hnd as [|? ? Hn Hnd']; subst.
  - injection H as -> ->. rewrite String.eqb_refl. reflexivity.
  - destruct (String.eqb k' k) eqn:E.
    + apply String.eqb_eq in E. subst. exfalso. apply Hn.
      apply (in_map fst) in H. exact H.
    + auto.
Qed.

Lemma dict_set_keys_in d k v : In k (map fst d) -> map fst (dict_set k v d) = map fst d.
Proof.
  induction d as [|[k' v'] d IH]; simpl; [tauto|].
  destruct (String.eqb k' k) eqn:E; simpl; [reflexivity|].
  apply String.eqb_neq in E. intros [H|H]; [congruence|]. rewrite IH; auto.
Qed.

Lemma dict_set_keys_notin d k v : ~ In k (map fst d) -> map fst (dict_set k v d) = app (map fst d) [k].
Proof.
  induction d as [|[k' v'] d IH]; simpl; [reflexivity|].
  intro H. destruct (String.eqb k' k) eqn:E.
  - apply String.eqb_eq in E. tauto.
  - simpl. rewrite IH; auto.
Qed.

Lemma In_dict_set d k v e : In e (dict_set k v d) -> e = (k, v) \/ In e d.
Proof.
  induction d as [|[k' v'] d IH]; simpl.
  - intros [H|[]]. auto.
  - destruct (String.eqb k' k) eqn:E; simpl.
    + apply String.eqb_eq in E. subst. intros [H|H]; auto.
    + intros [H|H]; auto. destruct (IH H); auto.
Qed.

Lemma dict_set_In_old d k v e : In e d -> fst e <> k -> In e (dict_set k v d).
Proof.
  induction d as [|[k' v'] d IH]; simpl; [tauto|].
  intros [H|H] Hk.
  - subst. simpl in Hk. apply String.eqb_neq in Hk. rewrite Hk. left. reflexivity.
  - destruct (String.eqb k' k); simpl; auto.
Qed.

Lemma dict_lookup_set_same d k v : dict_lookup k (dict_set k v d) = Some v.
Proof.
  induction d as [|[k' v'] d IH]; simpl.
  - rewrite String.eqb_refl. reflexivity.
  - destruct (String.eqb k' k) eqn:E; simpl; rewrite E; auto.
Qed.

Lemma dict_set_NoDup d k v : NoDup (map fst d) -> NoDup (map fst (dict_set k v d)).
Proof.
  intro H. destruct (in_dec string_dec k (map fst d)) as [Hin|Hin].
  - rewrite dict_set_keys_in; auto.
  - rewrite dict_set_keys_notin; auto. apply NoDup_snoc; auto.
Qed.

End Dicts.

(** *** [_combine_and_deduplicate_results] *)

Section Combine.

Import Matcher.

Lemma Qltb_true (a b : Q) : Qltb a b = true -> (a < b)%Q.
Proof.
  unfold Qltb. intro H. apply negb_true_iff in H.
  apply Qnot_le_lt. intro H'. apply Qle_bool_iff in H'. congruence.
Qed.

Lemma Qltb_false (a b : Q) : Qltb a b = false -> (b <= a)%Q.
Proof.
  unfold Qltb. intro H. apply negb_false_iff in H. apply Qle_bool_iff. exact H.
Qed.

Lemma best_scores_step (seen : list Hit) (d : list (string * (Q * string))) (h : Hit) :
  NoDup (map fst d) ->
  (forall pid s name, In (pid, (s, name)) d -> In (pid, s, name) seen
     /\ forall h', In h' seen -> hit_id h' = pid -> (hit_score h' <= s)%Q) ->
  (forall h', In h' seen -> exists s name, In (hit_id h', (s, name)) d) ->
  let d' := (let '(product_id, score, name) := h in
             match dict_lookup product_id d with
             | None => dict_set product_id (score, name) d
             | Some (best, _) => if Qltb best score then dict_set product_id (score, name) d else d
             end) in
  NoDup (map fst d')
  /\ (forall pid s name, In (pid, (s, name)) d' -> In (pid, s, name) (app seen [h])
       /\ forall h', In h' (app seen [h]) -> hit_id h' = pid -> (hit_score h' <= s)%Q)
  /\ (forall h', In h' (app seen [h]) -> exists s name, In (hit_id h', (s, name)) d').
Proof.
  intros Hnd Hmax Hall d'.
  destruct h as [[pid score] name]. unfold hit_id, hit_score in *. simpl in *.
  (* the cases where [d] changes: the new entry for [pid] *)
  assert (Hset : forall (Hle : forall h', In h' seen -> fst (fst h') = pid -> (snd (fst h') <= score)%Q),
    let d'' := dict_set pid (score, name) d in
    NoDup (map fst d'')
    /\ (forall pid' s name', In (pid', (s, name')) d'' -> In (pid', s, name') (app seen [(pid, score, name)])
         /\ forall h', In h' (app seen [(pid, score, name)]) -> fst (fst h') = pid' -> (snd (fst h') <= s)%Q)
    /\ (forall h', In h' (app seen [(pid, score, name)]) -> exists s name', In (fst (fst h'), (s, name')) d'')).
  { intros Hle d''. split; [apply dict_set_NoDup; exact Hnd|]. split.
    - intros pid' s name' Hin.
      destruct (string_dec pid' pid) as [->|Hne].
      + assert (Hv : Some (s, name') = Some (score, name)).
        { rewrite <- (dict_lookup_set_same _ d pid (score, name)).
          symmetry. apply dict_lookup_In; [apply dict_set_NoDup; exact Hnd|exact Hin]. }
        injection Hv as -> ->. split.
        * apply in_or_app. right. left. reflexivity.
        * intros h' Hh' Hid. apply in_app_or in Hh'. destruct Hh' as [Hh'|[Hh'|[]]].
          -- apply Hle; auto.
          -- subst h'. apply Qle_refl.
      + destruct (In_dict_set _ d pid (score, name) _ Hin) as [E|Hold]; [congruence|].
        destruct (Hmax _ _ _ Hold) as [Hs Hm]. split; [apply in_or_app; left; exact Hs|].
        intros h' Hh' Hid. apply in_app_or in Hh'. destruct Hh' as [Hh'|[Hh'|[]]].
        * apply Hm; auto.
        * subst h'. simpl in Hid. congruence.
    - intros h' Hh'. apply in_app_or in Hh'. destruct Hh' as [Hh'|[Hh'|[]]].
      + destruct (Hall _ Hh') as [s [name' Hin]].
        destruct (string_dec (fst (fst h')) pid) as [E|Hne].
        * rewrite E. exists score, name. apply dict_lookup_Some. apply dict_lookup_set_same.
        * exists s, name'. apply dict_set_In_old; auto.
      + subst h'. exists score, name. apply dict_lookup_Some. apply dict_lookup_set_same. }
  unfold d'. destruct (dict_lookup pid d) as [[best bname]|] eqn:Hl.
  - destruct (Qltb best score) eqn:Hlt.
    + apply Hset. intros h' Hh' Hid.
      destruct (Hmax _ _ _ (dict_lookup_Some _ _ _ _ Hl)) as [_ Hm].
      apply Qle_trans with best; [apply Hm; auto|].
      apply Qlt_le_weak. apply Qltb_true. exact Hlt.
    + apply Qltb_false in Hlt. split; [exact Hnd|]. split.
      * intros pid' s name' Hin. destruct (Hmax _ _ _ Hin) as [Hs Hm].
        split; [apply in_or_app; left; exact Hs|].
        intros h' Hh' Hid. apply in_app_or in Hh'. destruct Hh' as [Hh'|[Hh'|[]]]; [apply Hm; auto|].
        subst h'. simpl in Hid. subst pid'.
        assert (Hv : Some (s, name') = Some (best, bname)).
        { rewrite <- Hl. symmetry. apply dict_lookup_In; auto. }
        injection Hv as -> ->. exact Hlt.
      * intros h' Hh'. apply in_app_or in Hh'. destruct Hh' as [Hh'|[Hh'|[]]]; [apply Hall; auto|].
        subst h'. exists best, bname. apply dict_lookup_Some. exact Hl.
  - apply Hset. intros h' Hh' Hid. exfalso.
    destruct (Hall _ Hh') as [s [name' Hin]].
    apply (dict_lookup_None _ d pid Hl). rewrite <- Hid.
    apply (in_map fst) in Hin. exact Hin.
Qed.

End Combine.

Import Matcher.

Lemma best_scores_spec (hits : list Hit) :
  NoDup (map fst (best_scores hits))
  /\ (forall pid s name, In (pid, (s, name)) (best_scores hits) -> In (pid, s, name) hits
       /\ forall h, In h hits -> hit_id h = pid -> (hit_score h <= s)%Q)
  /\ (forall h, In h hits -> exists s name, In (hit_id h, (s, name)) (best_scores hits)).
Proof.
  unfold best_scores.
  assert (G : forall rest seen d,
    NoDup (map fst d) ->
    (forall pid s name, In (pid, (s, name)) d -> In (pid, s, name) seen
       /\ forall h', In h' seen -> hit_id h' = pid -> (hit_score h' <= s)%Q) ->
    (forall h', In h' seen -> exists s name, In (hit_id h', (s, name)) d) ->
    let d' := fold_left (fun d h =>
      let '(product_id, score, name) := h in
      match dict_lookup product_id d with
      | None => dict_set product_id (score, name) d
      | Some (best, _) => if Qltb best score then dict_set product_id (score, name) d else d
      end) rest d in
    NoDup (map fst d')
    /\ (forall pid s name, In (pid, (s, name)) d' -> In (pid, s, name) (app seen rest)
         /\ forall h', In h' (app seen rest) -> hit_id h' = pid -> (hit_score h' <= s)%Q)
    /\ (forall h', In h' (app seen rest) -> exists s name, In (hit_id h', (s, name)) d')).
  { induction rest as [|h rest IH]; intros seen d H1 H2 H3; simpl.
    - rewrite app_nil_r. auto.
    - destruct (best_scores_step seen d h H1 H2 H3) as [G1 [G2 G3]].
      replace (app seen (h :: rest)) with (app (app seen [h]) rest)
        by (rewrite <- app_assoc; reflexivity).
      apply IH; auto. }
  apply (G hits [] []); simpl; try tauto. constructor.
Qed.

Lemma survivors_In (threshold : Q) (d : list (string * (Q * string))) (pid : string) (s : Q) (name : string) :
  In (pid, s, name) (survivors threshold d) <-> In (pid, (s, name)) d /\ (threshold <= s)%Q.
Proof.
  unfold survivors. rewrite in_flat_map. split.
  - intros [[pid' [s' name']] [Hin Hx]].
    destruct (Qle_bool threshold s') eqn:E; [|destruct Hx].
    destruct Hx as [Hx|[]]. injection Hx as -> -> ->.
    split; [exact Hin|]. apply Qle_bool_iff. exact E.
  - intros [Hin Hle]. exists (pid, (s, name)). split; [exact Hin|].
    apply Qle_bool_iff in Hle. rewrite Hle. left. reflexivity.
Qed.

Lemma survivors_NoDup (threshold : Q) (d : list (string * (Q * string))) :
  NoDup (map fst d) -> NoDup (map hit_id (survivors threshold d)).
Proof.
  induction d as [|[pid [s name]] d IH]; simpl; intro H; [constructor|].
  inversion H as [|? ? Hn Hnd]; subst.
  destruct (Qle_bool threshold s); simpl; auto.
  constructor; auto. intro Hin. apply Hn.
  apply in_map_iff in Hin. destruct Hin as [[[p' s'] n'] [Hp Hin]]. unfold hit_id in Hp. simpl in Hp. subst p'.
  apply survivors_In in Hin. destruct Hin as [Hin _]. apply (in_map fst) in Hin. exact Hin.
Qed.

Lemma combine_spec (hits : list Hit) (threshold : Q) :
  let combined := _combine_and_deduplicate_results hits threshold in
  NoDup (map hit_id combined)
  /\ (forall pid s name, In (pid, s, name) combined ->
        In (pid, s, name) hits /\ (threshold <= s)%Q
        /\ forall h, In h hits -> hit_id h = pid -> (hit_score h <= s)%Q)
  /\ (forall pid, In pid (map hit_id combined) <->
        exists h, In h hits /\ hit_id h = pid /\ (threshold <= hit_score h)%Q)
  /\ Sorted (fun a b => (hit_score b <= hit_score a)%Q) combined.
Proof.
  intro combined. unfold combined, _combine_and_deduplicate_results.
  destruct (best_scores_spec hits) as [B1 [B2 B3]].
  set (le := fun a b : Hit => Qle_bool (hit_score b) (hit_score a)).
  set (sv := survivors threshold (best_scores hits)).
  assert (Hp : Permutation sv (Hybrid.stable_sort le sv)) by apply stable_sort_perm.
  split; [|split; [|split]].
  - eapply Permutation_NoDup; [apply Permutation_map; exact Hp|].
    apply survivors_NoDup. exact B1.
  - intros pid s name Hin. apply (Permutation_in _ (Permutation_sym Hp)) in Hin.
    apply survivors_In in Hin. destruct Hin as [Hin Hle].
    destruct (B2 _ _ _ Hin) as [Hh Hm]. auto.
  - intro pid. split.
    + intro Hin. apply in_map_iff in Hin. destruct Hin as [[[p s] n] [Hid Hin]].
      apply (Permutation_in _ (Permutation_sym Hp)) in Hin.
      apply survivors_In in Hin. destruct Hin as [Hin Hle].
      destruct (B2 _ _ _ Hin) as [Hh _].
      exists (p, s, n). auto.
    + intros [h [Hh [Hid Hle]]].
      destruct (B3 h Hh) as [s [name Hin]].
      destruct (B2 _ _ _ Hin) as [_ Hm].
      apply in_map_iff. exists (hit_id h, s, name). split; [rewrite <- Hid; reflexivity|].
      apply (Permutation_in _ Hp). apply survivors_In. split; [exact Hin|].
      apply Qle_trans with (hit_score h); [exact Hle|]. apply Hm; auto.
  - assert (S : Sorted (fun a b => le a b = true) (Hybrid.stable_sort le sv)).
    { apply stable_sort_sorted. intros a b E. unfold le in *.
      apply Qle_bool_iff. apply Qlt_le_weak. apply Qnot_le_lt.
      intro H. apply Qle_bool_iff in H. congruence. }
    eapply Sorted_weaken; [|exact S]. intros a b H. apply Qle_bool_iff. exact H.
Qed.

(** C5: [find_similar_products] merges the exact, fuzzy and semantic hits
    by product id keeping, for each id, the maximum score of any hit (the
    entry is one of the hits, and no hit of that id scores more); keeps
    exactly the ids whose best score reaches the query-length-adaptive
    threshold; orders them by score, highest first; and returns the first
    [k] of them. *)
Theorem find_similar_products_combines (Index : Type) (faiss_search : Index -> string -> nat -> list (Z * Q))
  (fuzzy_search : string -> nat -> nat -> list Hit) (index : option Index)
  (products : list (string * string)) (query : string) (k : nat) (threshold : Q) :
  let query_lower := py_strip (py_lower query) in
  let query_len := String.length query_lower in
  let thr := effective_threshold query_len threshold in
  let hits := app (app (exact_word_matches query_lower query_len products)
                       (fuzzy_search query k query_len))
                  (_semantic_search Index faiss_search index products query k query_len) in
  let combined := _combine_and_deduplicate_results hits thr in
  let out := find_similar_products Index faiss_search fuzzy_search index products query k threshold in
  out = firstn k combined
  /\ length out <= k
  /\ NoDup (map hit_id combined)
  /\ (forall pid s name, In (pid, s, name) combined ->
        In (pid, s, name) hits /\ (thr <= s)%Q
        /\ forall h, In h hits -> hit_id h = pid -> (hit_score h <= s)%Q)
  /\ (forall pid, In pid (map hit_id combined) <->
        exists h, In h hits /\ hit_id h = pid /\ (thr <= hit_score h)%Q)
  /\ Sorted (fun a b => (hit_score b <= hit_score a)%Q) combined.
Proof.
  intros query_lower query_len thr hits combined out.
  assert (Hout : out = firstn k combined) by reflexivity.
  split; [exact Hout|]. split.
  - rewrite Hout, length_firstn. apply Nat.le_min_l.
  - exact (combine_spec hits thr).
Qed.

(** C9: with no semantic index loaded ([self.index is None]) the semantic
    tier returns the empty list, and [find_similar_products] returns what
    the exact and fuzzy tiers alone give after combination. *)
Theorem semantic_tier_without_index (Index : Type) (faiss_search : Index -> string -> nat -> list (Z * Q))
  (fuzzy_search : string -> nat -> nat -> list Hit)
  (products : list (string * string)) (query : string) (k : nat) (threshold : Q) :
  let query_lower := py_strip (py_lower query) in
  let query_len := String.length query_lower in
  _semantic_search Index faiss_search None products query k query_len = []
  /\ find_similar_products Index faiss_search fuzzy_search None products query k threshold
     = firstn k (_combine_and_deduplicate_results
                   (app (exact_word_matches query_lower query_len products)
                        (fuzzy_search query k query_len))
                   (effective_threshold query_len threshold)).
Proof.
  intros query_lower query_len. split; [reflexivity|].
  unfold find_similar_products. simpl. rewrite app_nil_r. reflexivity.
Qed.

(** *** The result cache *)

Section CacheLemmas.

Variable V : Type.
Implicit Types (d : list (string * V)) (k : string) (v : V).

Lemma dict_lookup_notin d k : ~ In k (map fst d) -> dict_lookup k d = None.
Proof.
  induction d as [|[k' v'] d IH]; simpl; auto.
  intro H. destruct (String.eqb k' k) eqn:E.
  - apply String.eqb_eq in E. tauto.
  - apply IH. tauto.
Qed.

Lemma dict_delete_notin d k : ~ In k (map fst (dict_delete k d)).
Proof.
  unfold dict_delete. intro H. apply in_map_iff in H. destruct H as [[k' v'] [Hk Hin]].
  apply filter_In in Hin. simpl in *. destruct Hin as [_ E]. subst k'.
  rewrite String.eqb_refl in E. discriminate.
Qed.

Lemma dict_set_notin d k v : ~ In k (map fst d) -> dict_set k v d = app d [(k, v)].
Proof.
  induction d as [|[k' v'] d IH]; simpl; auto.
  intro H. destruct (String.eqb k' k) eqn:E.
  - apply String.eqb_eq in E. tauto.
  - rewrite IH; auto.
Qed.

Lemma dict_lookup_app_None d d' k : dict_lookup k d = None -> dict_lookup k (app d d') = dict_lookup k d'.
Proof.
  induction d as [|[k' v'] d IH]; simpl; auto.
  destruct (String.eqb k' k); [discriminate|auto].
Qed.

Lemma In_skipn {A : Type} (x : A) (n : nat) (l : list A) : In x (skipn n l) -> In x l.
Proof.
  revert l; induction n as [|n IH]; intros [|a l]; simpl; auto.
Qed.

(** A key absent from the cache, stored and then past the size clean-up,
    is found again with the stored value. *)
Lemma cache_store_lookup d k v :
  ~ In k (map fst d) ->
  dict_lookup k (let c := dict_set k v d in
                 if 1000 <n length c then skipn (length c - 500) c else c) = Some v.
Proof.
  intro H. cbv zeta. rewrite dict_set_notin by exact H. rewrite length_app. simpl.
  destruct (1000 <n length d + 1).
  - rewrite skipn_app. replace (length d + 1 - 500 - length d) with 0 by lia. simpl.
    rewrite dict_lookup_app_None; [simpl; rewrite String.eqb_refl; reflexivity|].
    apply dict_lookup_notin. intro Hin. apply H.
    rewrite <- (firstn_skipn (length d + 1 - 500) d), map_app. apply in_or_app. right. exact Hin.
  - rewrite dict_lookup_app_None; [simpl; rewrite String.eqb_refl; reflexivity|].
    apply dict_lookup_notin. exact H.
Qed.

End CacheLemmas.

Lemma Qltb_false_le (a b : Q) : (b <= a)%Q -> Qltb a b = false.
Proof.
  intro H. unfold Qltb. apply Qle_bool_iff in H. rewrite H. reflexivity.
Qed.

(** C7: a cache entry stored at time [T] is not served at any time
    [t >= T + 300]: [search] then counts a miss, recomputes the result and
    stores it with the new time. *)
Theorem cache_entry_expires (Result Filters : Type) (md5_hexdigest : string -> string)
  (dumps_filters : Filters -> string)
  (db_search_groups_enhanced search_products : string -> option Filters -> nat -> nat -> Result)
  (st : Cache.SearchState Result) (query : string) (filters : option Filters)
  (group_results : bool) (limit offset : nat) (force_db_search : bool) (t_check t_insert : Q)
  (e : Cache.CacheEntry Result) :
  let key := Cache._get_cache_key md5_hexdigest dumps_filters query filters limit offset
               (if force_db_search then "db" else "hybrid") in
  dict_lookup key (Cache.search_cache st) = Some e ->
  (Cache.ce_timestamp e + 300 <= t_check)%Q ->
  let result := if group_results then db_search_groups_enhanced query filters limit offset
                else search_products query filters limit offset in
  let out := Cache.search md5_hexdigest dumps_filters db_search_groups_enhanced search_products
               st query filters group_results limit offset force_db_search t_check t_insert in
  fst out = result
  /\ Cache.cache_hits (snd out) = Cache.cache_hits st
  /\ Cache.cache_misses (snd out) = S (Cache.cache_misses st)
  /\ dict_lookup key (Cache.search_cache (snd out)) = Some (Cache.mkEntry result t_insert).
Proof.
  intros key Hl Ht result out.
  assert (Hv : Cache._is_cache_valid t_check e = false).
  { unfold Cache._is_cache_valid. apply Qltb_false_le.
    apply (Qplus_le_l _ _ (Cache.ce_timestamp e)).
    setoid_replace (t_check - Cache.ce_timestamp e + Cache.ce_timestamp e)%Q with t_check by ring.
    rewrite Qplus_comm. exact Ht. }
  unfold out, Cache.search. fold key. rewrite Hl, Hv. simpl.
  split; [reflexivity|]. split; [reflexivity|]. split; [reflexivity|].
  apply cache_store_lookup. apply dict_delete_notin.
Qed.

(** C10: queries equal after [lower().strip()] get the same cache key (for
    the same filters, limit, offset and search type).  After a search the
    key holds an entry with the returned result, stored by this search or
    still valid at its time; a second search that differs only in such a
    query, made while that entry is valid, returns the same result. *)
Theorem cache_key_normalises_query (Result Filters : Type) (md5_hexdigest : string -> string)
  (dumps_filters : Filters -> string)
  (db_search_groups_enhanced search_products : string -> option Filters -> nat -> nat -> Result)
  (st : Cache.SearchState Result) (q1 q2 : string) (filters : option Filters)
  (group_results : bool) (limit offset : nat) (force_db_search : bool) (t1_check t1_insert t2_check t2_insert : Q) :
  py_strip (py_lower q1) = py_strip (py_lower q2) ->
  (forall search_type : string,
     Cache._get_cache_key md5_hexdigest dumps_filters q1 filters limit offset search_type
     = Cache._get_cache_key md5_hexdigest dumps_filters q2 filters limit offset search_type)
  /\ let key := Cache._get_cache_key md5_hexdigest dumps_filters q1 filters limit offset
                  (if force_db_search then "db" else "hybrid") in
     let out1 := Cache.search md5_hexdigest dumps_filters db_search_groups_enhanced search_products
                   st q1 filters group_results limit offset force_db_search t1_check t1_insert in
     let out2 := Cache.search md5_hexdigest dumps_filters db_search_groups_enhanced search_products
                   (snd out1) q2 filters group_results limit offset force_db_search t2_check t2_insert in
     exists e, dict_lookup key (Cache.search_cache (snd out1)) = Some e
       /\ Cache.ce_result e = fst out1
       /\ (Cache.ce_timestamp e = t1_insert \/ (t1_check - Cache.ce_timestamp e < 300)%Q)
       /\ ((t2_check - Cache.ce_timestamp e < 300)%Q -> fst out2 = fst out1).
Proof.
  intro Hq.
  assert (Hk : forall search_type,
     Cache._get_cache_key md5_hexdigest dumps_filters q1 filters limit offset search_type
     = Cache._get_cache_key md5_hexdigest dumps_filters q2 filters limit offset search_type).
  { intro stype. unfold Cache._get_cache_key. rewrite Hq. reflexivity. }
  split; [exact Hk|].
  intros key out1 out2.
  (* the entry the first search leaves under [key] *)
  assert (H1 : exists e, dict_lookup key (Cache.search_cache (snd out1)) = Some e
       /\ Cache.ce_result e = fst out1
       /\ (Cache.ce_timestamp e = t1_insert \/ (t1_check - Cache.ce_timestamp e < 300)%Q)).
  { unfold out1, Cache.search. fold key.
    destruct (dict_lookup key (Cache.search_cache st)) as [e|] eqn:Hl.
    - destruct (Cache._is_cache_valid t1_check e) eqn:Hv; simpl.
      + exists e. split; [exact Hl|]. split; [reflexivity|]. right.
        apply Qltb_true. exact Hv.
      + eexists. split; [apply cache_store_lookup, dict_delete_notin|].
        split; [reflexivity|left; reflexivity].
    - simpl. eexists. split; [apply cache_store_lookup, dict_lookup_None; exact Hl|].
      split; [reflexivity|left; reflexivity]. }
  destruct H1 as [e [He [Hr Ht]]]. exists e. split; [exact He|]. split; [exact Hr|].
  split; [exact Ht|].
  intro Hv. unfold out2, Cache.search at 1. rewrite <- (Hk (if force_db_search then "db" else "hybrid")).
  fold key. rewrite He.
  assert (Hv' : Cache._is_cache_valid t2_check e = true).
  { unfold Cache._is_cache_valid, Qltb. apply negb_true_iff.
    destruct (Qle_bool 300 (t2_check - Cache.ce_timestamp e)) eqn:E; [|reflexivity].
    apply Qle_bool_iff in E. exfalso. apply (Qlt_not_le _ _ Hv). exact E. }
  rewrite Hv'. simpl. exact Hr.
Qed.

Lemma cache_entry_expires_witness :
  let st0 := Cache.mkState [(Cache._get_cache_key (fun s => s) (fun _ : unit => "{}") "aspirin" None 10 0 "hybrid",
                             Cache.mkEntry 7%nat 0%Q)] 0 0 in
  let out := Cache.search (fun s => s) (fun _ : unit => "{}") (fun _ _ _ _ => 1%nat) (fun _ _ _ _ => 2%nat)
               st0 " Aspirin" None true 10 0 false 300 301 in
  fst out = 1%nat /\ Cache.cache_misses (snd out) = 1%nat.
Proof.
  intros st0 out.
  pose proof (cache_entry_expires nat unit (fun s => s) (fun _ => "{}") (fun _ _ _ _ => 1%nat)
                (fun _ _ _ _ => 2%nat) st0 " Aspirin" None true 10 0 false 300 301 (Cache.mkEntry 7%nat 0%Q)
                ltac:(vm_compute; reflexivity) ltac:(apply Qle_bool_iff; reflexivity)) as H.
  destruct H as [H1 [_ [H3 _]]]. split; [exact H1|exact H3].
Defined.

Lemma cache_key_normalises_query_witness :
  let st0 := @Cache.mkState nat [] 0 0 in
  let out1 := Cache.search (fun s => s) (fun _ : unit => "{}") (fun _ _ _ _ => 1%nat) (fun _ _ _ _ => 2%nat)
                st0 "Aspirin" None true 10 0 false 0 1 in
  let out2 := Cache.search (fun s => s) (fun _ : unit => "{}") (fun _ _ _ _ => 1%nat) (fun _ _ _ _ => 2%nat)
                (snd out1) "  aspirin " None true 10 0 false 100 101 in
  fst out2 = fst out1.
Proof.
  intros st0 out1 out2.
  pose proof (cache_key_normalises_query nat unit (fun s => s) (fun _ => "{}") (fun _ _ _ _ => 1%nat)
                (fun _ _ _ _ => 2%nat) st0 "Aspirin" "  aspirin " None true 10 0 false 0 1 100 101
                ltac:(vm_compute; reflexivity)) as [_ H].
  destruct H as [e [He [_ [_ Himp]]]].
  vm_compute in He. injection He as <-.
  apply Himp. reflexivity.
Defined.

(** *** Hybrid grouping of [PharmaSearchEngine] *)

Section HybridMembers.

Import Preprocessor Hybrid.

Variables a b : Product.




End HybridMembers.


Lemma create_group_products (ps : list Hybrid.Product) (ids : list string) (gid : string) :
  Hybrid.g_products (Hybrid.create_group_from_products ps ids gid)
  = Hybrid.stable_sort (fun a b => Qle_bool (Hybrid.p_price a) (Hybrid.p_price b)) ps.
Proof.
  unfold Hybrid.create_group_from_products.
  destruct (map Hybrid.p_price _); reflexivity.
Qed.

Section FirstFit.

Import Preprocessor Hybrid.

Variable ml : option MLPreprocessor.






End FirstFit.





(** C2 fails across runs: group ids are ["hybrid_" + str(abs(hash(key)))]
    and Python's [str] hash differs between processes; two runs whose hash
    functions differ give the same group different ids. *)
Lemma group_ids_vary_with_hash_seed :
  map Hybrid.g_id (Hybrid.group_products_with_preprocessor None (fun _ => 1%Z) [vitc_hemofarm] ["p1"]) = ["hybrid_1"]
  /\ map Hybrid.g_id (Hybrid.group_products_with_preprocessor None (fun _ => (-2)%Z) [vitc_hemofarm] ["p1"]) = ["hybrid_2"].
Proof.
  split; vm_compute; reflexivity.
Qed.

(** *** The regular-expression matcher *)

(** What a successful match consumes: the continuation is called at a later
    position, and the characters passed over satisfy what the classes of
    the pattern allow. *)
Lemma mt_consumes (P : ascii -> Prop) (fuel : nat) :
  forall s r i cp k res, cls_all P r -> mt fuel s r i cp k = Some res ->
  exists j cp', i <= j /\ (forall x, i <= x < j -> exists c, nth_error s x = Some c /\ P c)
                /\ k j cp' = Some res.
Proof.
  induction fuel as [|f IH]; intros s r i cp k res Hr H; [discriminate|].
  destruct r as [p|r1 r2|r1 r2|r1|n r1| | | |r1|]; simpl in H, Hr.
  - destruct (nth_error s i) as [c|] eqn:Hc; [|discriminate].
    destruct (p c) eqn:Hp; [|discriminate].
    exists (S i), cp. split; [lia|]. split; [|exact H].
    intros x Hx. assert (x = i) by lia. subst. exists c. auto.
  - destruct Hr as [H1 H2].
    destruct (IH _ _ _ _ _ _ H1 H) as [j1 [cp1 [Hij1 [Hc1 Hk1]]]].
    destruct (IH _ _ _ _ _ _ H2 Hk1) as [j [cp' [Hj [Hc Hk]]]].
    exists j, cp'. split; [lia|]. split; [|exact Hk].
    intros x Hx. destruct (Nat.lt_ge_cases x j1); [apply Hc1|apply Hc]; lia.
  - destruct Hr as [H1 H2].
    destruct (mt f s r1 i cp k) eqn:E.
    + injection H as ->. exact (IH _ _ _ _ _ _ H1 E).
    + exact (IH _ _ _ _ _ _ H2 H).
  - destruct (mt f s r1 i cp _) eqn:E.
    + injection H as ->.
      destruct (IH _ _ _ _ _ _ Hr E) as [j1 [cp1 [Hij1 [Hc1 Hk1]]]].
      cbv beta in Hk1. destruct (j1 =n i); [discriminate|].
      destruct (IH s (Star r1) j1 cp1 k res Hr Hk1) as [j [cp' [Hj [Hc Hk]]]].
      exists j, cp'. split; [lia|]. split; [|exact Hk].
      intros x Hx. destruct (Nat.lt_ge_cases x j1); [apply Hc1|apply Hc]; lia.
    + exists i, cp. split; [lia|]. split; [intros; lia|exact H].
  - destruct (IH _ _ _ _ _ _ Hr H) as [j [cp' [Hj [Hc Hk]]]].
    exists j, ((n, (i, j)) :: cp'). auto.
  - destruct (at_word_boundary s i); [|discriminate].
    exists i, cp. split; [lia|]. split; [intros; lia|exact H].
  - destruct (i =n 0); [|discriminate].
    exists i, cp. split; [lia|]. split; [intros; lia|exact H].
  - destruct (at_eol s i); [|discriminate].
    exists i, cp. split; [lia|]. split; [intros; lia|exact H].
  - destruct (mt f s r1 i cp _); [discriminate|].
    exists i, cp. split; [lia|]. split; [intros; lia|exact H].
  - exists i, cp. split; [lia|]. split; [intros; lia|exact H].
Qed.

Lemma mt_Cat (fuel : nat) s r1 r2 i cp k res :
  mt fuel s (Cat r1 r2) i cp k = Some res ->
  exists f j cp', i <= j /\ mt f s r2 j cp' k = Some res.
Proof.
  destruct fuel as [|f]; simpl; [discriminate|]. intro H.
  destruct (mt_consumes (fun _ => True) f s r1 i cp (fun j c => mt f s r2 j c k) res)
    as [j [cp' [Hj [_ Hk]]]].
  - clear. induction r1; simpl; auto.
  - exact H.
  - exists f, j, cp'. auto.
Qed.

Lemma mt_Cls (fuel : nat) s p i cp k res :
  mt fuel s (Cls p) i cp k = Some res ->
  exists c, nth_error s i = Some c /\ p c = true /\ k (S i) cp = Some res.
Proof.
  destruct fuel as [|f]; simpl; [discriminate|].
  destruct (nth_error s i) as [c|]; [|discriminate].
  destruct (p c) eqn:E; [|discriminate]. intro H. exists c. auto.
Qed.

Lemma match_at_spec s r i m :
  match_at s r i = Some m ->
  m_start m = i /\ mt (re_fuel s r) s r i [] (fun j c => Some (j, c)) = Some (m_end m, m_caps m).
Proof.
  unfold match_at. destruct (mt _ s r i [] _) as [[j c]|] eqn:E; [|discriminate].
  intro H. injection H as <-. simpl. auto.
Qed.

Lemma search_from_go_spec s r i n m :
  search_from_go s r i n = Some m ->
  mt (re_fuel s r) s r (m_start m) [] (fun j c => Some (j, c)) = Some (m_end m, m_caps m).
Proof.
  revert i. induction n as [|n IH]; intros i; simpl.
  - destruct (match_at s r i) eqn:E; [|discriminate].
    intro H. injection H as <-. destruct (match_at_spec _ _ _ _ E) as [-> H]. exact H.
  - destruct (match_at s r i) eqn:E.
    + intro H. injection H as <-. destruct (match_at_spec _ _ _ _ E) as [-> H]. exact H.
    + apply IH.
Qed.

Lemma re_search_spec r t m :
  re_search r t = Some m ->
  mt (re_fuel (list_ascii_of_string t) r) (list_ascii_of_string t) r (m_start m) []
     (fun j c => Some (j, c)) = Some (m_end m, m_caps m).
Proof. apply search_from_go_spec. Qed.

Lemma first_search_spec {A : Type} (ps : list (regex * A)) t m a :
  first_search ps t = Some (m, a) -> exists r, In (r, a) ps /\ re_search r t = Some m.
Proof.
  induction ps as [|[r a'] ps IH]; simpl; [discriminate|].
  destruct (re_search r t) eqn:E.
  - intro H. injection H as -> ->. exists r. auto.
  - intro H. destruct (IH H) as [r' [H1 H2]]. exists r'. auto.
Qed.

Lemma str_contains_dash (l : list ascii) :
  str_contains "-" (string_of_list_ascii l) = existsb (Ascii.eqb "-") l.
Proof.
  induction l as [|a l IH]; [reflexivity|].
  simpl. rewrite IH, andb_true_r. reflexivity.
Qed.

Lemma slice_nth (s : list ascii) a b x :
  a <= x < b -> nth_error (firstn (b - a) (skipn a s)) (x - a) = nth_error s x.
Proof.
  intro Hx. rewrite nth_error_firstn.
  replace (Nat.ltb (x - a) (b - a)) with true by (symmetry; apply Nat.ltb_lt; lia).
  rewrite nth_error_skipn. f_equal. lia.
Qed.

(** A match of a pattern whose classes exclude ['-'] contains no ['-']. *)
Lemma re_search_no_dash r t m :
  cls_all (fun c => c <> "-"%char) r -> re_search r t = Some m ->
  str_contains "-" (m_group0 t m) = false.
Proof.
  intros Hr H. apply re_search_spec in H.
  destruct (mt_consumes _ _ _ _ _ _ _ _ Hr H) as [j [cp' [Hj [Hc Hk]]]].
  injection Hk as -> _.
  unfold m_group0, slice. rewrite str_contains_dash.
  apply not_true_is_false. intro He. apply existsb_exists in He.
  destruct He as [c [Hin Heq]]. apply Ascii.eqb_eq in Heq. subst c.
  apply In_nth_error in Hin. destruct Hin as [x Hx].
  assert (Hlt : x < m_end m - m_start m).
  { rewrite nth_error_firstn in Hx.
    destruct (Nat.ltb x (m_end m - m_start m)) eqn:E; [apply Nat.ltb_lt; exact E|].
    discriminate. }
  replace x with ((x + m_start m) - m_start m) in Hx by lia.
  rewrite slice_nth in Hx by lia.
  destruct (Hc (x + m_start m)) as [c [Hc1 Hc2]]; [lia|].
  rewrite Hx in Hc1. injection Hc1 as <-. apply Hc2. reflexivity.
Qed.

Lemma cls_all_True (r : regex) : cls_all (fun _ => True) r.
Proof. induction r; simpl; auto. Qed.

(** A match of the range pattern [(\d+)-(\d+)-(\d+)] contains a ['-']. *)
Lemma re_search_range_dash t m :
  re_search (cats [Grp 1 (plus digit); ch "-"; Grp 2 (plus digit); ch "-"; Grp 3 (plus digit)]) t
  = Some m -> str_contains "-" (m_group0 t m) = true.
Proof.
  intro H. apply re_search_spec in H. simpl cats in H.
  apply mt_Cat in H. destruct H as [f [j [cp' [Hj H]]]].
  destruct f as [|f]; [discriminate|]. cbn [mt] in H. unfold ch in H.
  apply mt_Cls in H. destruct H as [c [Hc [Heq H]]].
  apply Ascii.eqb_eq in Heq. subst c.
  destruct (mt_consumes _ _ _ _ _ _ _ _ (cls_all_True _) H) as [j2 [cp2 [Hj2 [_ Hk]]]].
  injection Hk as -> _.
  unfold m_group0, slice. rewrite str_contains_dash.
  apply existsb_exists. exists "-"%char. split; [|reflexivity].
  apply (nth_error_In _ (j - m_start m)). rewrite slice_nth by lia. exact Hc.
Qed.

Lemma dosage_patterns_cases r n :
  In (r, n) Normalizer.dosage_patterns ->
  (n <> 3 /\ cls_all (fun c => c <> "-"%char) r) \/
  (n = 3 /\ r = cats [Grp 1 (plus digit); ch "-"; Grp 2 (plus digit); ch "-"; Grp 3 (plus digit)]).
Proof.
  unfold Normalizer.dosage_patterns. simpl In.
  intros [H|[H|[H|[H|[]]]]]; injection H as <- <-;
    [left; split; [lia|] .. | right; split; reflexivity];
    vm_compute; repeat split; intros c Hc ->; vm_compute in Hc; discriminate.
Qed.

Lemma first_search_app {A : Type} (l1 l2 : list (regex * A)) t :
  first_search (app l1 l2) t =
  match first_search l1 t with Some x => Some x | None => first_search l2 t end.
Proof.
  induction l1 as [|[r a] l1 IH]; [reflexivity|].
  simpl. destruct (re_search r t); [reflexivity|exact IH].
Qed.

Lemma dosage_unit_lookup (b : bool) (u : string) :
  match (if b then Some u else None) with
  | Some u => if nonempty u then Some (dict_get Normalizer.unit_mappings u u) else Some u
  | None => None
  end = if b then Some (dict_get Normalizer.unit_mappings u u) else None.
Proof.
  destruct b; [|reflexivity].
  destruct (nonempty u) eqn:Hu; [reflexivity|].
  unfold nonempty in Hu. apply negb_false_iff, String.eqb_eq in Hu. subst u. reflexivity.
Qed.

(** C8.  Strength extraction, [_extract_dosage]: the first of the four
    patterns, in their order, that matches anywhere in the title decides the
    result, and only its leftmost match is read.  The ['-'] test rejects
    exactly the matches of the range pattern [(\d+)-(\d+)-(\d+)], the last
    one: the three unit patterns never match a ['-'], and the range pattern
    is only tried when none of them matches anywhere in the title.  A unit
    match gives the number of group 1 with its comma read as a dot, the
    lower-cased unit of group 2 mapped through [unit_mappings] (no unit for
    the percent pattern), and confidence 0.9.  A strength is recorded if and
    only if one of the three unit patterns matches somewhere in the title. *)
Theorem extract_dosage_spec (title : string) :
  Normalizer.extract_dosage title =
    match first_search Normalizer.dosage_patterns title with
    | None => Normalizer.no_dosage
    | Some (m, n) =>
        if n =n 3 then Normalizer.no_dosage
        else
          let u := Normalizer.unit_lower (group_or_empty title m 2) in
          Normalizer.mkDosage
            (Some (Normalizer.parse_decimal (Normalizer.replace_comma (group_or_empty title m 1))))
            (if 1 <n n then Some (dict_get Normalizer.unit_mappings u u) else None)
            (9 # 10)
    end
  /\ (Normalizer.dosage_value (Normalizer.extract_dosage title) = None <->
      first_search (firstn 3 Normalizer.dosage_patterns) title = None).
Proof.
  assert (Hspec : Normalizer.extract_dosage title =
    match first_search Normalizer.dosage_patterns title with
    | None => Normalizer.no_dosage
    | Some (m, n) =>
        if n =n 3 then Normalizer.no_dosage
        else
          let u := Normalizer.unit_lower (group_or_empty title m 2) in
          Normalizer.mkDosage
            (Some (Normalizer.parse_decimal (Normalizer.replace_comma (group_or_empty title m 1))))
            (if 1 <n n then Some (dict_get Normalizer.unit_mappings u u) else None)
            (9 # 10)
    end).
  { unfold Normalizer.extract_dosage.
    destruct (first_search Normalizer.dosage_patterns title) as [[m n]|] eqn:E; [|reflexivity].
    destruct (first_search_spec _ _ _ _ E) as [r [Hin Hr]].
    destruct (dosage_patterns_cases _ _ Hin) as [[Hn Hcls]|[-> ->]].
    - rewrite (re_search_no_dash _ _ _ Hcls Hr).
      replace (n =n 3) with false by (symmetry; apply Nat.eqb_neq; exact Hn).
      cbv zeta. rewrite dosage_unit_lookup. reflexivity.
    - rewrite (re_search_range_dash _ _ Hr). reflexivity. }
  split; [exact Hspec|].
  rewrite Hspec.
  assert (Hdp : Normalizer.dosage_patterns =
    app (firstn 3 Normalizer.dosage_patterns) (skipn 3 Normalizer.dosage_patterns))
    by reflexivity.
  rewrite Hdp at 1. rewrite first_search_app.
  destruct (first_search (firstn 3 Normalizer.dosage_patterns) title) as [[m n]|] eqn:E.
  - destruct (first_search_spec _ _ _ _ E) as [r [Hin _]].
    assert (Hn : n <> 3).
    { simpl in Hin. destruct Hin as [H|[H|[H|[]]]]; injection H as _ <-; lia. }
    replace (n =n 3) with false by (symmetry; apply Nat.eqb_neq; exact Hn).
    cbn [Normalizer.dosage_value]. split; intro H; discriminate H.
  - simpl first_search.
    destruct (re_search _ title); simpl; split; intros _; reflexivity.
Qed.

(** The range ["20-30-40"] followed by a unit is not rejected: the first
    pattern matches ["40 mg"] and a strength of 40 mg is recorded. *)
Lemma range_with_unit_counterexample :
  Normalizer.extract_dosage "20-30-40 mg" =
  Normalizer.mkDosage (Some (40 # 1)) (Some "mg") (9 # 10).
Proof. vm_compute. reflexivity. Qed.

(** The unit [μg] of the first pattern: ["Vitamin B12 500μg"] and
    ["B12 1000ΜG"] record micrograms as ["mcg"]; the micro sign matches too,
    and its unit stays ["µg"], which [unit_mappings] does not list. *)
Lemma dosage_micro_units :
  Normalizer.extract_dosage "Vitamin B12 500μg" = Normalizer.mkDosage (Some (500 # 1)) (Some "mcg") (9 # 10)
  /\ Normalizer.extract_dosage "B12 1000ΜG" = Normalizer.mkDosage (Some (1000 # 1)) (Some "mcg") (9 # 10)
  /\ Normalizer.extract_dosage "Folna kiselina 400µg" = Normalizer.mkDosage (Some (400 # 1)) (Some "µg") (9 # 10).
Proof. split; [|split]; vm_compute; reflexivity. Qed.

(** *** The preprocessor's fallback *)




(** *** Price statistics of the DuckDB engine *)

Lemma In_firstn {A : Type} (x : A) (n : nat) (l : list A) : In x (firstn n l) -> In x l.
Proof.
  revert l. induction n as [|n IH]; intros [|a l]; simpl; try tauto.
  intros [H|H]; auto.
Qed.

Section DuckDBStats.

Variable F : Type.
Variables (ltb : F -> F -> bool) (add sub div : F -> F -> F) (of_nat : nat -> F).
Variable md5_12 : string -> string.
Hypothesis ltb_irrefl : forall x, ltb x x = false.
Hypothesis ltb_trans : forall x y z, ltb x y = true -> ltb y z = true -> ltb x z = true.
Hypothesis ltb_cotrans : forall x y z, ltb x z = true -> ltb x y = true \/ ltb y z = true.

Lemma ltb_asym x y : ltb x y = true -> ltb y x = false.
Proof.
  intro H. destruct (ltb y x) eqn:E; [|reflexivity].
  pose proof (ltb_irrefl x) as Hx. rewrite (ltb_trans _ _ _ H E) in Hx. discriminate.
Qed.

Lemma py_min_spec (xs : list F) : forall acc,
  (forall y, In y (acc :: xs) -> ltb y (DuckDB.py_min F ltb acc xs) = false) /\
  In (DuckDB.py_min F ltb acc xs) (acc :: xs).
Proof.
  unfold DuckDB.py_min.
  induction xs as [|y xs IH]; intro acc; simpl.
  - split; [intros y [<-|[]]; apply ltb_irrefl|left; reflexivity].
  - destruct (IH (if ltb y acc then y else acc)) as [Hle Hin].
    set (m := fold_left _ xs _) in *.
    destruct (ltb y acc) eqn:Hya.
    + split.
      * intros z [Hz|[Hz|Hz]]; [subst z..|].
        -- destruct (ltb acc m) eqn:E; [|reflexivity].
           destruct (ltb_cotrans _ y _ E) as [H|H].
           ++ rewrite (ltb_asym _ _ Hya) in H. discriminate.
           ++ rewrite (Hle y (or_introl eq_refl)) in H. discriminate.
        -- apply Hle. left. reflexivity.
        -- apply Hle. right. exact Hz.
      * destruct Hin as [H|H]; [right; left; exact H|right; right; exact H].
    + split.
      * intros z [Hz|[Hz|Hz]]; [subst z..|].
        -- apply Hle. left. reflexivity.
        -- destruct (ltb y m) eqn:E; [|reflexivity].
           destruct (ltb_cotrans _ acc _ E) as [H|H].
           ++ rewrite Hya in H. discriminate.
           ++ rewrite (Hle acc (or_introl eq_refl)) in H. discriminate.
        -- apply Hle. right. exact Hz.
      * destruct Hin as [H|H]; [left; exact H|right; right; exact H].
Qed.

Lemma py_max_spec (xs : list F) : forall acc,
  (forall y, In y (acc :: xs) -> ltb (DuckDB.py_max F ltb acc xs) y = false) /\
  In (DuckDB.py_max F ltb acc xs) (acc :: xs).
Proof.
  unfold DuckDB.py_max.
  induction xs as [|y xs IH]; intro acc; simpl.
  - split; [intros y [<-|[]]; apply ltb_irrefl|left; reflexivity].
  - destruct (IH (if ltb acc y then y else acc)) as [Hle Hin].
    set (m := fold_left _ xs _) in *.
    destruct (ltb acc y) eqn:Hya.
    + split.
      * intros z [Hz|[Hz|Hz]]; [subst z..|].
        -- destruct (ltb m acc) eqn:E; [|reflexivity].
           destruct (ltb_cotrans _ y _ E) as [H|H].
           ++ rewrite (Hle y (or_introl eq_refl)) in H. discriminate.
           ++ rewrite (ltb_asym _ _ Hya) in H. discriminate.
        -- apply Hle. left. reflexivity.
        -- apply Hle. right. exact Hz.
      * destruct Hin as [H|H]; [right; left; exact H|right; right; exact H].
    + split.
      * intros z [Hz|[Hz|Hz]]; [subst z..|].
        -- apply Hle. left. reflexivity.
        -- destruct (ltb m y) eqn:E; [|reflexivity].
           destruct (ltb_cotrans _ acc _ E) as [H|H].
           ++ rewrite (Hle acc (or_introl eq_refl)) in H. discriminate.
           ++ rewrite Hya in H. discriminate.
        -- apply Hle. right. exact Hz.
      * destruct Hin as [H|H]; [left; exact H|right; right; exact H].
Qed.

End DuckDBStats.

Lemma make_group_spec {F : Type} ltb (add sub div : F -> F -> F) of_nat md5_12 name prods g :
  DuckDB.make_group F ltb add sub div of_nat md5_12 name prods = Some g ->
  DuckDB.g_products F g = prods /\
  exists x xs, DuckDB.row_prices F prods = x :: xs /\
               DuckDB.g_min F g = DuckDB.py_min F ltb x xs /\
               DuckDB.g_max F g = DuckDB.py_max F ltb x xs.
Proof.
  unfold DuckDB.make_group. destruct (DuckDB.row_prices F prods) as [|x xs]; [discriminate|].
  intro H. injection H as <-. simpl. split; [reflexivity|]. exists x, xs. auto.
Qed.

Lemma row_prices_In {F : Type} (rows : list (DuckDB.Row F)) x :
  In x (DuckDB.row_prices F rows) <-> exists r, In r rows /\ DuckDB.r_price F r = Some x.
Proof.
  unfold DuckDB.row_prices. rewrite in_flat_map. split.
  - intros [r [Hr Hx]]. exists r. split; [exact Hr|].
    destruct (DuckDB.r_price F r); [destruct Hx as [<-|[]]; reflexivity|destruct Hx].
  - intros [r [Hr Hx]]. exists r. rewrite Hx. simpl. auto.
Qed.

Lemma create_dynamic_groups_In {F : Type} ltb (add sub div : F -> F -> F) of_nat md5_12
    matches query limit offset g :
  In g (DuckDB.pg_groups F (DuckDB.create_dynamic_groups F ltb add sub div of_nat md5_12
                              matches query limit offset)) ->
  exists e, In e (DuckDB.group_rows F matches) /\
            DuckDB.make_group F ltb add sub div of_nat md5_12 (fst e) (snd e) = Some g.
Proof.
  unfold DuckDB.create_dynamic_groups. cbn [DuckDB.pg_groups].
  intro Hg. apply In_firstn, In_skipn in Hg.
  unfold DuckDB.sort_by_relevance in Hg. apply stable_sort_In, in_flat_map in Hg.
  destruct Hg as [e [He Hin]]. exists e. split; [exact He|].
  destruct (DuckDB.make_group _ _ _ _ _ _ _ _ _); [destruct Hin as [<-|[]]; reflexivity|destruct Hin].
Qed.

(** C3.  Price statistics of the DuckDB search with grouping, for prices
    ordered by a strict order [ltb] that is irreflexive, transitive and
    co-transitive (the doubles without NaN under [<]).  For every group of
    the page of [_create_dynamic_groups], no member's price is below the
    reported [min] or above the reported [max], and both are prices of
    members.  In [get_price_comparison], the [min] is the [min_price] column
    of the first result row (0 when absent), and a product is a best deal
    exactly when its price equals that value.  Nothing is stated of [avg]. *)
Theorem duckdb_price_stats (F : Type) (ltb eqb : F -> F -> bool) (add sub div : F -> F -> F)
    (of_nat : nat -> F) (md5_12 : string -> string)
    (ltb_irrefl : forall x, ltb x x = false)
    (ltb_trans : forall x y z, ltb x y = true -> ltb y z = true -> ltb x z = true)
    (ltb_cotrans : forall x y z, ltb x z = true -> ltb x y = true \/ ltb y z = true)
    (matches : list (DuckDB.Row F)) (query : string) (limit offset : nat) :
  (forall g, In g (DuckDB.pg_groups F (DuckDB.create_dynamic_groups F ltb add sub div of_nat md5_12
                                         matches query limit offset)) ->
     (forall r x, In r (DuckDB.g_products F g) -> DuckDB.r_price F r = Some x ->
        ltb x (DuckDB.g_min F g) = false /\ ltb (DuckDB.g_max F g) x = false) /\
     (exists r, In r (DuckDB.g_products F g) /\ DuckDB.r_price F r = Some (DuckDB.g_min F g)) /\
     (exists r, In r (DuckDB.g_products F g) /\ DuckDB.r_price F r = Some (DuckDB.g_max F g))) /\
  (forall zero first rest mn mx prods,
     DuckDB.get_price_comparison F eqb zero (first :: rest) = Some (mn, mx, prods) ->
     mn = match DuckDB.v_min_price F first with Some m => m | None => zero end /\
     forall id p an, In (id, p, an) prods -> DuckDB.is_best_deal an = eqb p mn).
Proof.
  split.
  - intros g Hg.
    destruct (create_dynamic_groups_In _ _ _ _ _ _ _ _ _ _ _ Hg) as [e [_ Hm]].
    destruct (make_group_spec _ _ _ _ _ _ _ _ _ Hm) as [Hp [x [xs [Hx [Hmin Hmax]]]]].
    destruct (py_min_spec F ltb ltb_irrefl ltb_trans ltb_cotrans xs x) as [Hlo Hinlo].
    destruct (py_max_spec F ltb ltb_irrefl ltb_trans ltb_cotrans xs x) as [Hhi Hinhi].
    rewrite Hp, Hmin, Hmax. rewrite <- Hx in Hlo, Hinlo, Hhi, Hinhi.
    split; [|split].
    + intros r y Hr Hy.
      assert (Hin : In y (DuckDB.row_prices F (snd e))) by (apply row_prices_In; eauto).
      split; [apply Hlo|apply Hhi]; exact Hin.
    + apply row_prices_In. exact Hinlo.
    + apply row_prices_In. exact Hinhi.
  - intros zero first rest mn mx prods H. simpl in H. injection H as <- <- <-.
    split; [reflexivity|].
    intros id p an Hin. simpl in Hin.
    destruct Hin as [Hin|Hin].
    + injection Hin as _ <- <-. reflexivity.
    + apply in_map_iff in Hin. destruct Hin as [r [Hr _]]. injection Hr as _ <- <-. reflexivity.
Qed.

Lemma duckdb_price_stats_witness :
  let rows := [DuckDB.mkRow nat "a" "x" "x" (Some 3) "v1"; DuckDB.mkRow nat "b" "x" "x" (Some 5) "v2"] in
  let page := DuckDB.create_dynamic_groups nat Nat.ltb Nat.add Nat.sub Nat.div (fun n => n)
                (fun s => s) rows "x" 10 0 in
  map (fun g => (DuckDB.g_min nat g, DuckDB.g_max nat g)) (DuckDB.pg_groups nat page) = [(3, 5)] /\
  (forall g, In g (DuckDB.pg_groups nat page) ->
     (forall r x, In r (DuckDB.g_products nat g) -> DuckDB.r_price nat r = Some x ->
        Nat.ltb x (DuckDB.g_min nat g) = false /\ Nat.ltb (DuckDB.g_max nat g) x = false) /\
     (exists r, In r (DuckDB.g_products nat g) /\ DuckDB.r_price nat r = Some (DuckDB.g_min nat g)) /\
     (exists r, In r (DuckDB.g_products nat g) /\ DuckDB.r_price nat r = Some (DuckDB.g_max nat g))).
Proof.
  cbv zeta. split; [vm_compute; reflexivity|].
  apply (duckdb_price_stats nat Nat.ltb Nat.eqb Nat.add Nat.sub Nat.div (fun n => n) (fun s => s)).
  - intro x. apply Nat.ltb_irrefl.
  - intros x y z H1 H2. apply Nat.ltb_lt in H1, H2. apply Nat.ltb_lt. lia.
  - intros x y z H. apply Nat.ltb_lt in H.
    destruct (Nat.lt_ge_cases x y) as [Hxy|Hxy]; [left; apply Nat.ltb_lt; lia|right; apply Nat.ltb_lt; lia].
Defined.

(** Three members at 1.35: the float mean is 1.3500000000000003, above the
    maximum 1.35. *)
Lemma avg_above_max_counterexample :
  map (fun g => PrimFloat.ltb (DuckDB.g_max float g) (DuckDB.g_avg float g))
    (DuckDB.pg_groups float
       (duckdb_groups_float (fun s => s)
          [priced_row "a" "vitamin c" 1.35%float; priced_row "b" "vitamin c" 1.35%float;
           priced_row "c" "vitamin c" 1.35%float] "vitamin" 10 0)) = [true].
Proof. vm_compute. reflexivity. Qed.

(** *** Order of the grouped results *)

Lemma group_key_le_total (a b : Hybrid.Group) :
  Hybrid.group_key_le a b = false -> Hybrid.group_key_le b a = true.
Proof.
  unfold Hybrid.group_key_le. intro H.
  apply orb_false_iff in H. destruct H as [H1 H2].
  apply Nat.ltb_ge in H1.
  destruct (Hybrid.g_search_rank a =n Hybrid.g_search_rank b) eqn:E.
  - apply Nat.eqb_eq in E. simpl in H2. apply Nat.leb_gt in H2.
    apply orb_true_iff. right. apply andb_true_iff.
    split; [apply Nat.eqb_eq; lia|apply Nat.leb_le; lia].
  - apply Nat.eqb_neq in E. apply orb_true_iff. left. apply Nat.ltb_lt. lia.
Qed.

Lemma sort_groups_sorted (gs : list Hybrid.Group) :
  Sorted (fun a b => Hybrid.g_search_rank a < Hybrid.g_search_rank b \/
                     (Hybrid.g_search_rank a = Hybrid.g_search_rank b /\
                      Hybrid.g_vendor_count b <= Hybrid.g_vendor_count a))
         (Hybrid.sort_groups gs).
Proof.
  eapply Sorted_weaken; [|apply (stable_sort_sorted _ _ group_key_le_total)].
  intros a b H. unfold Hybrid.group_key_le in H.
  apply orb_true_iff in H. destruct H as [H|H].
  - left. apply Nat.ltb_lt. exact H.
  - right. apply andb_true_iff in H. destruct H as [H1 H2].
    split; [apply Nat.eqb_eq; exact H1|apply Nat.leb_le; exact H2].
Qed.

(** C4.  The order of the grouped results.  In the PostgreSQL engine
    ([_create_dynamic_groups] through [_group_products_with_preprocessor])
    the groups of a page are in ascending order of [search_rank] and, at
    equal rank, in descending order of vendor count; [search_rank] is the
    position in the ranked id list of the group's first member after the
    members are sorted by price, that is of its cheapest member.  In the
    DuckDB engine the groups of a page are in descending order of
    [group_relevance] (1000 when the lower-cased name contains the query,
    plus 50 for more than one vendor), not of candidate position. *)
Theorem grouped_results_order (ml : option Hybrid.MLPreprocessor) (py_hash : string -> Z)
    (products : list Hybrid.Product) (product_ids : list string)
    (F : Type) (ltb : F -> F -> bool) (add sub div : F -> F -> F) (of_nat : nat -> F)
    (md5_12 : string -> string) (matches : list (DuckDB.Row F)) (query : string)
    (limit offset : nat) :
  Sorted (fun a b => Hybrid.g_search_rank a < Hybrid.g_search_rank b \/
                     (Hybrid.g_search_rank a = Hybrid.g_search_rank b /\
                      Hybrid.g_vendor_count b <= Hybrid.g_vendor_count a))
    (Hybrid.pg_groups (Hybrid.create_dynamic_groups ml py_hash products product_ids limit offset)) /\
  Sorted (fun a b => DuckDB.group_relevance F query b <= DuckDB.group_relevance F query a)
    (DuckDB.pg_groups F (DuckDB.create_dynamic_groups F ltb add sub div of_nat md5_12
                           matches query limit offset)).
Proof.
  split.
  - unfold Hybrid.create_dynamic_groups.
    destruct products as [|p ps]; [constructor|].
    cbn [Hybrid.pg_groups]. apply Sorted_firstn, Sorted_skipn.
    unfold Hybrid.group_products_with_preprocessor.
    destruct ml as [m|].
    + destruct (Hybrid.get_ml_clusters m product_ids) as [|cl cls].
      * unfold Hybrid.group_products_hybrid.
        match goal with |- context [fold_left ?f ?l ?a] => destruct (fold_left f l a) end.
        apply sort_groups_sorted.
      * unfold Hybrid.create_groups_from_ml_clusters.
        match goal with |- context [fold_left ?f ?l ?a] => destruct (fold_left f l a) end.
        apply sort_groups_sorted.
    + unfold Hybrid.group_products_hybrid.
      match goal with |- context [fold_left ?f ?l ?a] => destruct (fold_left f l a) end.
      apply sort_groups_sorted.
  - unfold DuckDB.create_dynamic_groups. cbn [DuckDB.pg_groups].
    apply Sorted_firstn, Sorted_skipn. unfold DuckDB.sort_by_relevance.
    eapply Sorted_weaken; [|apply stable_sort_sorted].
    + intros a b H. apply Nat.leb_le. exact H.
    + intros a b H. apply Nat.leb_gt in H. apply Nat.leb_le. lia.
Qed.

(** Two counterexamples to ordering by first-appearing member.  PostgreSQL
    engine: candidates ranked x, z, y, where x and y are the same product
    and y is the cheaper; the group of x and y takes the rank of y (2) and
    comes after the group of z (rank 1), although x is the first candidate.
    DuckDB engine: candidates "ibuprofen 400 mg" then "brufen sirup" for
    the query "brufen"; the second one's group comes first. *)
Lemma first_member_order_counterexample :
  map (fun g => map Hybrid.p_id (Hybrid.g_products g))
    (Hybrid.pg_groups
       (Hybrid.create_dynamic_groups None (fun _ => 0%Z)
          [Hybrid.mkProduct "y" "Vitamin C 500 mg" 5 "v2" "Hemofarm";
           Hybrid.mkProduct "z" "Magnezijum 300 mg" 10 "v3" "Galenika";
           Hybrid.mkProduct "x" "Vitamin C 500 mg" 20 "v1" "Hemofarm"]
          ["x"; "z"; "y"] 10 0)) = [["z"]; ["y"; "x"]] /\
  ordered_by_first_appearance
    [priced_row "a" "ibuprofen 400 mg" 3%float; priced_row "b" "brufen sirup" 4%float]
    (DuckDB.pg_groups float
       (duckdb_groups_float (fun s => s)
          [priced_row "a" "ibuprofen 400 mg" 3%float; priced_row "b" "brufen sirup" 4%float]
          "brufen" 10 0)) = false.
Proof. split; vm_compute; reflexivity. Qed.

(** *** Hybrid grouping keeps every product exactly once *)

Lemma perm_flat_map {A B : Type} (f : A -> list B) (l l' : list A) :
  Permutation l l' -> Permutation (flat_map f l) (flat_map f l').
Proof.
  induction 1; simpl.
  - constructor.
  - apply Permutation_app_head. assumption.
  - rewrite !app_assoc. apply Permutation_app_tail, Permutation_app_comm.
  - eapply perm_trans; eassumption.
Qed.

Section HybridPartition.

Import Preprocessor Hybrid.

Lemma dict_append_perm {V : Type} (d : list (string * list V)) (k : string) (v : V) :
  Permutation (flat_map snd (dict_append d k v)) (app (flat_map snd d) [v]).
Proof.
  induction d as [|[k' vs] d IH]; simpl; [reflexivity|].
  destruct (String.eqb k k'); simpl.
  - rewrite <- !app_assoc. apply Permutation_app_head, Permutation_app_comm.
  - rewrite <- app_assoc. apply Permutation_app_head. exact IH.
Qed.

Lemma place_items_perm (ml : option MLPreprocessor) (l : list Item) : forall groups ungrouped,
  Permutation (app (flat_map snd (fst (fold_left (place_item ml) l (groups, ungrouped))))
                   (snd (fold_left (place_item ml) l (groups, ungrouped))))
              (app (flat_map snd groups) (app ungrouped l)).
Proof.
  induction l as [|it l IH]; intros groups ungrouped; simpl.
  - rewrite app_nil_r. reflexivity.
  - unfold place_item at 2.
    destruct (String.eqb (item_key it) "").
    + rewrite IH. rewrite <- app_assoc. reflexivity.
    + match goal with |- context [find ?f groups] => destruct (find f groups) as [[k' ?]|] end;
      (rewrite IH; rewrite dict_append_perm;
       rewrite <- !app_assoc; apply Permutation_app_head;
       simpl; apply Permutation_middle).
Qed.

Lemma place_ungrouped_perm (ml : option MLPreprocessor) (l : list Item) : forall groups,
  Permutation (flat_map snd (fold_left (place_ungrouped ml) l groups))
              (app (flat_map snd groups) l).
Proof.
  induction l as [|it l IH]; intro groups; simpl.
  - rewrite app_nil_r. reflexivity.
  - rewrite IH. unfold place_ungrouped.
    destruct (fold_left (best_group_step ml it) groups (None, 0%Q)) as [[k|] _];
      [destruct (nonempty k)|];
      (rewrite dict_append_perm; rewrite <- app_assoc; reflexivity).
Qed.

Lemma final_groups_perm (product_ids : list string) (py_hash : string -> Z)
    (groups : list (string * list Item)) :
  Permutation
    (flat_map g_products
       (flat_map (fun e => match snd e with
                           | [] => []
                           | items => [create_group_from_products (map fst items) product_ids
                                         (hash_id py_hash "hybrid_" (fst e))]
                           end) groups))
    (map fst (flat_map snd groups)).
Proof.
  induction groups as [|[k items] groups IH]; simpl; [reflexivity|].
  rewrite map_app. destruct items as [|it items]; simpl; [exact IH|].
  rewrite create_group_products.
  apply (Permutation_app (l' := fst it :: map fst items)); [|exact IH].
  apply Permutation_sym, stable_sort_perm.
Qed.

Lemma final_groups_nonempty (product_ids : list string) (py_hash : string -> Z)
    (groups : list (string * list Item)) g :
  In g (flat_map (fun e => match snd e with
                           | [] => []
                           | items => [create_group_from_products (map fst items) product_ids
                                         (hash_id py_hash "hybrid_" (fst e))]
                           end) groups) ->
  g_products g <> [].
Proof.
  intro H. apply in_flat_map in H. destruct H as [[k items] [_ H]]. simpl in H.
  destruct items as [|it items]; [destruct H|]. destruct H as [<-|[]].
  rewrite create_group_products. intro E.
  pose proof (stable_sort_perm (fun a b => Qle_bool (p_price a) (p_price b)) (fst it :: map fst items)) as P.
  rewrite E in P. apply Permutation_sym, Permutation_nil in P. discriminate.
Qed.

End HybridPartition.

(** Partition of the hybrid grouping: the products of the groups that
    [_group_products_hybrid] returns are exactly the fetched products, each
    one once (up to order), and no returned group is empty. *)
Theorem hybrid_grouping_partition (ml : option Hybrid.MLPreprocessor) (py_hash : string -> Z)
    (products : list Hybrid.Product) (product_ids : list string) :
  Permutation (flat_map Hybrid.g_products (Hybrid.group_products_hybrid ml py_hash products product_ids))
              products
  /\ (forall g, In g (Hybrid.group_products_hybrid ml py_hash products product_ids) ->
                Hybrid.g_products g <> []).
Proof.
  unfold Hybrid.group_products_hybrid.
  set (pi := map (fun p => (p, Preprocessor.preprocess_product (Hybrid.p_title p) (Hybrid.p_brand_name p)))
                 products).
  pose proof (place_items_perm ml pi [] []) as H1.
  destruct (fold_left (Hybrid.place_item ml) pi ([], [])) as [groups ungrouped]. simpl in H1.
  unfold Hybrid.sort_groups. split.
  - rewrite <- (perm_flat_map _ _ _ (stable_sort_perm _ _)).
    rewrite final_groups_perm.
    assert (Hm : map fst pi = products).
    { unfold pi. rewrite map_map. simpl. apply map_id. }
    rewrite <- Hm. apply Permutation_map.
    rewrite place_ungrouped_perm. exact H1.
  - intros g Hg. eapply Permutation_in in Hg; [|apply Permutation_sym, stable_sort_perm].
    eapply final_groups_nonempty. exact Hg.
Qed.

(** *** Result groups of the PostgreSQL engine *)

Lemma Qltb_true_intro (a b : Q) : (a < b)%Q -> Qltb a b = true.
Proof.
  intro H. unfold Qltb. apply negb_true_iff.
  destruct (Qle_bool b a) eqn:E; [|reflexivity].
  apply Qle_bool_iff in E. exfalso. apply (Qlt_not_le _ _ H E).
Qed.

Lemma Qltb_irrefl (x : Q) : Qltb x x = false.
Proof. apply Qltb_false_le, Qle_refl. Qed.

Lemma Qltb_trans (x y z : Q) : Qltb x y = true -> Qltb y z = true -> Qltb x z = true.
Proof.
  intros H1 H2. apply Qltb_true_intro.
  apply (Qlt_trans _ y); apply Qltb_true; assumption.
Qed.

Lemma Qltb_cotrans (x y z : Q) : Qltb x z = true -> Qltb x y = true \/ Qltb y z = true.
Proof.
  intro H. apply Qltb_true in H.
  destruct (Qlt_le_dec x y) as [Hxy|Hyx].
  - left. apply Qltb_true_intro. exact Hxy.
  - right. apply Qltb_true_intro. apply (Qle_lt_trans _ x); assumption.
Qed.

Lemma py_minQ_spec (x : Q) (xs : list Q) :
  (forall y, In y (x :: xs) -> (Hybrid.py_minQ x xs <= y)%Q) /\ In (Hybrid.py_minQ x xs) (x :: xs).
Proof.
  destruct (py_min_spec Q Qltb Qltb_irrefl Qltb_trans Qltb_cotrans xs x) as [H1 H2].
  split; [|exact H2]. intros y Hy. apply Qltb_false. apply H1. exact Hy.
Qed.

Lemma py_maxQ_spec (x : Q) (xs : list Q) :
  (forall y, In y (x :: xs) -> (y <= Hybrid.py_maxQ x xs)%Q) /\ In (Hybrid.py_maxQ x xs) (x :: xs).
Proof.
  destruct (py_max_spec Q Qltb Qltb_irrefl Qltb_trans Qltb_cotrans xs x) as [H1 H2].
  split; [|exact H2]. intros y Hy. apply Qltb_false. apply H1. exact Hy.
Qed.

Lemma last_index_spec (ids : list string) (pid : string) : forall i found j,
  Hybrid.last_index ids pid i found = Some j ->
  (found = Some j /\ ~ In pid ids) \/
  (i <= j /\ j < i + length ids /\ nth_error ids (j - i) = Some pid).
Proof.
  induction ids as [|x ids IH]; intros i found j H; simpl in H.
  - left. split; [exact H|intros []].
  - destruct (IH _ _ _ H) as [[Hf Hn]|[H1 [H2 H3]]].
    + destruct (String.eqb x pid) eqn:E.
      * apply String.eqb_eq in E. subst x. injection Hf as <-.
        right. simpl. rewrite Nat.sub_diag. split; [lia|split; [lia|reflexivity]].
      * left. split; [exact Hf|]. intros [Hx|Hx]; [|exact (Hn Hx)].
        subst x. rewrite String.eqb_refl in E. discriminate.
    + right. simpl. split; [lia|split; [lia|]].
      replace (j - i) with (S (j - S i)) by lia. exact H3.
Qed.

Lemma last_index_none (ids : list string) (pid : string) : forall i found,
  Hybrid.last_index ids pid i found = None -> found = None /\ ~ In pid ids.
Proof.
  induction ids as [|x ids IH]; intros i found H; simpl in H.
  - split; [exact H|intros []].
  - destruct (IH _ _ H) as [Hf Hn]. destruct (String.eqb x pid) eqn:E; [discriminate|].
    split; [exact Hf|]. intros [Hx|Hx]; [|exact (Hn Hx)].
    subst x. rewrite String.eqb_refl in E. discriminate.
Qed.

Lemma nz_prices_In (sl ps : list Hybrid.Product) y :
  Permutation sl ps ->
  In y (map Hybrid.p_price (filter (fun p => negb (Qeq_bool (Hybrid.p_price p) 0)) sl)) <->
  exists p, In p ps /\ ~ (Hybrid.p_price p == 0)%Q /\ y = Hybrid.p_price p.
Proof.
  intro Hp. rewrite in_map_iff. split.
  - intros [p [<- Hin]]. apply filter_In in Hin. destruct Hin as [Hin Hnz].
    exists p. split; [eapply Permutation_in; eassumption|split; [|reflexivity]].
    intro E. apply Qeq_bool_iff in E. rewrite E in Hnz. discriminate.
  - intros [p [Hin [Hnz ->]]]. exists p. split; [reflexivity|]. apply filter_In.
    split; [eapply Permutation_in; [apply Permutation_sym|]; eassumption|].
    apply negb_true_iff. destruct (Qeq_bool _ _) eqn:E; [|reflexivity].
    apply Qeq_bool_iff in E. contradiction.
Qed.

(** [_create_group_from_products] on prices: the members of the group are the
    given products sorted by ascending price; [min_price] and [max_price] are
    the least and the greatest non-zero member price (both 0 when every price
    is 0), so every non-zero member price lies between them. *)
Theorem create_group_prices (ps : list Hybrid.Product) (ids : list string) (gid : string) :
  let g := Hybrid.create_group_from_products ps ids gid in
  Permutation (Hybrid.g_products g) ps /\
  Sorted (fun a b => (Hybrid.p_price a <= Hybrid.p_price b)%Q) (Hybrid.g_products g) /\
  (Hybrid.g_min g <= Hybrid.g_max g)%Q /\
  (forall p, In p ps -> ~ (Hybrid.p_price p == 0)%Q ->
             (Hybrid.g_min g <= Hybrid.p_price p <= Hybrid.g_max g)%Q) /\
  ((exists p, In p ps /\ ~ (Hybrid.p_price p == 0)%Q) ->
     exists p q, In p ps /\ In q ps /\ Hybrid.g_min g = Hybrid.p_price p /\
                 Hybrid.g_max g = Hybrid.p_price q) /\
  ((forall p, In p ps -> (Hybrid.p_price p == 0)%Q) -> Hybrid.g_min g = 0%Q /\ Hybrid.g_max g = 0%Q).
Proof.
  intro g.
  set (le := fun a b => Qle_bool (Hybrid.p_price a) (Hybrid.p_price b)).
  assert (Hperm : Permutation (Hybrid.stable_sort le ps) ps)
    by (apply Permutation_sym, stable_sort_perm).
  assert (Hsort : Sorted (fun a b => (Hybrid.p_price a <= Hybrid.p_price b)%Q) (Hybrid.stable_sort le ps)).
  { eapply Sorted_weaken; [|apply stable_sort_sorted].
    - intros a b H. apply Qle_bool_iff. exact H.
    - intros a b H. unfold le in *. apply Qle_bool_iff.
      destruct (Qle_bool (Hybrid.p_price a) (Hybrid.p_price b)) eqn:E; [discriminate|].
      apply Qlt_le_weak, Qnot_le_lt. intro H'. apply Qle_bool_iff in H'. congruence. }
  assert (Hgp : Hybrid.g_products g = Hybrid.stable_sort le ps) by apply create_group_products.
  pose proof (fun y => nz_prices_In _ _ y Hperm) as Hin.
  assert (Hmm : exists mn mx, Hybrid.g_min g = mn /\ Hybrid.g_max g = mx /\
     match map Hybrid.p_price (filter (fun p => negb (Qeq_bool (Hybrid.p_price p) 0)) (Hybrid.stable_sort le ps)) with
     | [] => mn = 0%Q /\ mx = 0%Q
     | x :: xs => mn = Hybrid.py_minQ x xs /\ mx = Hybrid.py_maxQ x xs
     end).
  { unfold g, Hybrid.create_group_from_products. fold le.
    destruct (map _ _); do 2 eexists; (split; [reflexivity|split; [reflexivity|split; reflexivity]]). }
  destruct Hmm as [mn [mx [-> [-> Hmm]]]].
  rewrite Hgp. split; [exact Hperm|split; [exact Hsort|]].
  destruct (map Hybrid.p_price _) as [|x xs] eqn:Epr; destruct Hmm as [-> ->].
  - split; [apply Qle_refl|split; [|split]].
    + intros p Hp Hnz. exfalso. apply (proj2 (Hin _) (ex_intro _ p (conj Hp (conj Hnz eq_refl)))).
    + intros [p [Hp Hnz]]. exfalso.
      apply (proj2 (Hin _) (ex_intro _ p (conj Hp (conj Hnz eq_refl)))).
    + intros _. split; reflexivity.
  - destruct (py_minQ_spec x xs) as [Hmn Imn]. destruct (py_maxQ_spec x xs) as [Hmx Imx].
    split; [apply (Qle_trans _ x); [apply Hmn|apply Hmx]; left; reflexivity|].
    split; [|split].
    + intros p Hp Hnz. assert (Hy : In (Hybrid.p_price p) (x :: xs))
        by (apply Hin; exists p; auto).
      split; [apply Hmn|apply Hmx]; exact Hy.
    + intros _. apply Hin in Imn. apply Hin in Imx.
      destruct Imn as [p [Hp [_ Ep]]]. destruct Imx as [q [Hq [_ Eq]]].
      exists p, q. auto.
    + intros Hz. exfalso. assert (Hx : In x (x :: xs)) by (left; reflexivity).
      apply Hin in Hx. destruct Hx as [p [Hp [Hnz _]]]. exact (Hnz (Hz p Hp)).
Qed.

Lemma last_index_last (ids : list string) (pid : string) : forall i found j,
  Hybrid.last_index ids pid i found = Some j ->
  forall k, nth_error ids k = Some pid -> i + k <= j.
Proof.
  induction ids as [|x ids IH]; intros i found j H k Hk; [destruct k; discriminate|].
  simpl in H. destruct k as [|k]; simpl in Hk.
  - injection Hk as ->. rewrite String.eqb_refl in H.
    destruct (last_index_spec _ _ _ _ _ H) as [[Hf _]|[H1 _]].
    + injection Hf as ->. lia.
    + lia.
  - specialize (IH _ _ _ H k Hk). lia.
Qed.

(** [_create_group_from_products] on counts: [product_count] is the number of
    products and [vendor_count] (distinct vendors) is at most that and at
    least 1 for a non-empty group; [search_rank] is at most the number of
    ranked ids, and for the cheapest member it is either the last position of
    its id in [product_ids] or, when the id is absent, [len(product_ids)]. *)
Theorem create_group_counts (ps : list Hybrid.Product) (ids : list string) (gid : string) :
  let g := Hybrid.create_group_from_products ps ids gid in
  Hybrid.g_product_count g = length ps /\
  Hybrid.g_vendor_count g <= Hybrid.g_product_count g /\
  (ps <> [] -> 1 <= Hybrid.g_vendor_count g) /\
  Hybrid.g_search_rank g <= length ids /\
  (forall p0 rest, Hybrid.g_products g = p0 :: rest ->
     (Hybrid.g_search_rank g < length ids /\
      nth_error ids (Hybrid.g_search_rank g) = Some (Hybrid.p_id p0) /\
      forall k, nth_error ids k = Some (Hybrid.p_id p0) -> k <= Hybrid.g_search_rank g)
     \/ (Hybrid.g_search_rank g = length ids /\ ~ In (Hybrid.p_id p0) ids)).
Proof.
  intro g.
  set (le := fun a b => Qle_bool (Hybrid.p_price a) (Hybrid.p_price b)).
  assert (Hperm : Permutation (Hybrid.stable_sort le ps) ps)
    by (apply Permutation_sym, stable_sort_perm).
  assert (Hgp : Hybrid.g_products g = Hybrid.stable_sort le ps) by apply create_group_products.
  assert (Hc : Hybrid.g_product_count g = length (Hybrid.stable_sort le ps) /\
               Hybrid.g_vendor_count g = length (nodup string_dec (map Hybrid.p_vendor (Hybrid.stable_sort le ps))) /\
               Hybrid.g_search_rank g =
                 match Hybrid.stable_sort le ps with
                 | [] => length ids
                 | p0 :: _ => match Hybrid.last_index ids (Hybrid.p_id p0) 0 None with
                              | Some i => i | None => length ids end
                 end).
  { unfold g, Hybrid.create_group_from_products. fold le.
    destruct (map Hybrid.p_price _); (split; [reflexivity|split; reflexivity]). }
  destruct Hc as [Hpc [Hvc Hsr]].
  rewrite (Permutation_length Hperm) in Hpc.
  split; [exact Hpc|split; [|split; [|split]]].
  - rewrite Hvc, Hpc, <- (Permutation_length Hperm), <- (length_map Hybrid.p_vendor).
    apply NoDup_incl_length; [apply NoDup_nodup|].
    intros v Hv. apply nodup_In in Hv. exact Hv.
  - intros Hne. rewrite Hvc. destruct (Hybrid.stable_sort le ps) as [|p l] eqn:E.
    + apply Permutation_nil in Hperm. contradiction.
    + assert (Hv : In (Hybrid.p_vendor p) (nodup string_dec (map Hybrid.p_vendor (p :: l))))
        by (apply nodup_In; left; reflexivity).
      destruct (nodup _ _); [destruct Hv|simpl; lia].
  - rewrite Hsr. destruct (Hybrid.stable_sort le ps) as [|p l]; [lia|].
    destruct (Hybrid.last_index ids (Hybrid.p_id p) 0 None) as [i|] eqn:E; [|lia].
    destruct (last_index_spec _ _ _ _ _ E) as [[Hf _]|[_ [H2 _]]]; [discriminate|lia].
  - intros p0 rest Hp0. rewrite Hsr. rewrite Hgp in Hp0. rewrite Hp0.
    destruct (Hybrid.last_index ids (Hybrid.p_id p0) 0 None) as [i|] eqn:E.
    + left. destruct (last_index_spec _ _ _ _ _ E) as [[Hf _]|[_ [H2 H3]]]; [discriminate|].
      rewrite Nat.sub_0_r in H3. split; [lia|split; [exact H3|]].
      intros k Hk. apply (last_index_last _ _ _ _ _ E k Hk).
    + right. split; [reflexivity|]. apply (last_index_none _ _ _ _ E).
Qed.

(** *** The grouping of the DuckDB engine *)

Section DictAppend.

Context {V : Type}.

Lemma dict_append_keys (d : list (string * list V)) (k : string) (v : V) k' :
  In k' (map fst (Hybrid.dict_append d k v)) <-> k' = k \/ In k' (map fst d).
Proof.
  induction d as [|[k0 vs] d IH]; simpl; [intuition congruence|].
  destruct (String.eqb k k0) eqn:E; simpl.
  - apply String.eqb_eq in E. subst k0. intuition congruence.
  - rewrite IH. intuition congruence.
Qed.

Lemma dict_append_nodup (d : list (string * list V)) (k : string) (v : V) :
  NoDup (map fst d) -> NoDup (map fst (Hybrid.dict_append d k v)).
Proof.
  induction d as [|[k0 vs] d IH]; simpl; intro H; [constructor; [intros []|constructor]|].
  inversion H as [|? ? Hn Hd]; subst.
  destruct (String.eqb k k0) eqn:E; simpl; constructor; auto.
  rewrite dict_append_keys. intros [->|Hk]; [rewrite String.eqb_refl in E; discriminate|auto].
Qed.

Lemma dict_append_In (d : list (string * list V)) (k : string) (v : V) k' rs :
  NoDup (map fst d) -> In (k', rs) (Hybrid.dict_append d k v) ->
  (k' = k /\ ((exists vs, In (k, vs) d /\ rs = app vs [v]) \/ (~ In k (map fst d) /\ rs = [v])))
  \/ (k' <> k /\ In (k', rs) d).
Proof.
  induction d as [|[k0 vs] d IH]; simpl; intros Hnd H.
  - destruct H as [H|[]]. injection H as <- <-. left. split; [reflexivity|right; auto].
  - inversion Hnd as [|? ? Hn Hd]; subst.
    destruct (String.eqb k k0) eqn:E.
    + apply String.eqb_eq in E. subst k0. destruct H as [H|H].
      * injection H as <- <-. left. split; [reflexivity|left]. exists vs. auto.
      * right. split; [|right; exact H]. intros ->.
        apply Hn. apply (in_map fst) in H. exact H.
    + destruct H as [H|H].
      * injection H as <- <-. right. split; [|left; reflexivity].
        intros ->. rewrite String.eqb_refl in E. discriminate.
      * destruct (IH Hd H) as [[-> [[ws [Hw ->]]|[Hk ->]]]|[Hk Hin]].
        -- left. split; [reflexivity|left]. exists ws. auto.
        -- left. split; [reflexivity|right]. split; [|reflexivity].
           intros [Hk0|Hk0]; [subst k0; rewrite String.eqb_refl in E; discriminate|auto].
        -- right. auto.
Qed.

End DictAppend.

Lemma py_lower_nonempty (s : string) : s <> "" -> py_lower s <> "".
Proof. destruct s; simpl; [contradiction|discriminate]. Qed.

Lemma filter_nil_intro {A : Type} (f : A -> bool) (l : list A) :
  (forall x, In x l -> f x = false) -> filter f l = [].
Proof.
  induction l as [|a l IH]; simpl; intro H; [reflexivity|].
  rewrite (H a (or_introl eq_refl)). apply IH. auto.
Qed.

Section DuckDBGrouping.

Variable F : Type.

Lemma group_rows_step (d : list (string * list (DuckDB.Row F))) (p : list (DuckDB.Row F)) (r : DuckDB.Row F) :
  let sel k (r : DuckDB.Row F) :=
    let gk := if String.eqb (DuckDB.r_normalized_name F r) "" then DuckDB.r_title F r
              else DuckDB.r_normalized_name F r in
    negb (String.eqb gk "") && String.eqb (py_lower gk) k in
  let gk := if String.eqb (DuckDB.r_normalized_name F r) "" then DuckDB.r_title F r
            else DuckDB.r_normalized_name F r in
  let d' := if String.eqb gk "" then d else Hybrid.dict_append d (py_lower gk) r in
  NoDup (map fst d) ->
  (forall k rs, In (k, rs) d -> k <> "" /\ rs = filter (sel k) p /\ rs <> []) ->
  (forall k, k <> "" -> In k (map fst d) <-> exists r', In r' p /\ sel k r' = true) ->
  NoDup (map fst d') /\
  (forall k rs, In (k, rs) d' -> k <> "" /\ rs = filter (sel k) (app p [r]) /\ rs <> []) /\
  (forall k, k <> "" -> In k (map fst d') <-> exists r', In r' (app p [r]) /\ sel k r' = true).
Proof.
  intros sel gk d' Hnd Hk Hc.
  assert (Hsel : forall k, sel k r = negb (String.eqb gk "") && String.eqb (py_lower gk) k)
    by reflexivity.
  unfold d'. destruct (String.eqb gk "") eqn:E.
  - split; [exact Hnd|split].
    + intros k rs H. destruct (Hk k rs H) as [H1 [H2 H3]]. split; [exact H1|split; [|exact H3]].
      rewrite filter_app. simpl. rewrite Hsel. simpl. rewrite app_nil_r. exact H2.
    + intros k Hk0. rewrite (Hc k Hk0). split.
      * intros [r' [Hr' Hs]]. exists r'. split; [apply in_or_app; left|]; assumption.
      * intros [r' [Hr' Hs]]. apply in_app_or in Hr'. destruct Hr' as [Hr'|[<-|[]]].
        -- exists r'. auto.
        -- rewrite Hsel in Hs. discriminate.
  - set (K := py_lower gk).
    assert (HK : K <> "") by (apply py_lower_nonempty; apply String.eqb_neq; exact E).
    assert (HselK : forall k, sel k r = String.eqb K k) by (intro k; rewrite Hsel; reflexivity).
    split; [apply dict_append_nodup; exact Hnd|split].
    + intros k rs H. destruct (dict_append_In d K r k rs Hnd H)
        as [[-> [[vs [Hvs ->]]|[Hn ->]]]|[Hne Hin]].
      * destruct (Hk K vs Hvs) as [_ [Hf _]]. split; [exact HK|split].
        -- rewrite filter_app, Hf. simpl. rewrite HselK, String.eqb_refl. reflexivity.
        -- intro Hnil. destruct vs; discriminate.
      * split; [exact HK|split; [|discriminate]].
        rewrite filter_app. simpl. rewrite HselK, String.eqb_refl.
        rewrite filter_nil_intro; [reflexivity|].
        intros x Hx. destruct (sel K x) eqn:Ex; [|reflexivity].
        exfalso. apply Hn. apply (Hc K HK). exists x. auto.
      * destruct (Hk k rs Hin) as [H1 [H2 H3]]. split; [exact H1|split; [|exact H3]].
        rewrite filter_app, H2. simpl. rewrite HselK.
        destruct (String.eqb K k) eqn:Ek; [apply String.eqb_eq in Ek; congruence|].
        rewrite app_nil_r. reflexivity.
    + intros k Hk0. rewrite dict_append_keys. split.
      * intros [->|Hin].
        -- exists r. split; [apply in_or_app; right; left; reflexivity|].
           rewrite HselK. apply String.eqb_refl.
        -- apply (Hc k Hk0) in Hin. destruct Hin as [r' [Hr' Hs]].
           exists r'. split; [apply in_or_app; left|]; assumption.
      * intros [r' [Hr' Hs]]. apply in_app_or in Hr'. destruct Hr' as [Hr'|[<-|[]]].
        -- right. apply (Hc k Hk0). exists r'. auto.
        -- left. rewrite HselK in Hs. apply String.eqb_eq in Hs. congruence.
Qed.

Lemma group_rows_spec (matches : list (DuckDB.Row F)) :
  let sel k (r : DuckDB.Row F) :=
    let gk := if String.eqb (DuckDB.r_normalized_name F r) "" then DuckDB.r_title F r
              else DuckDB.r_normalized_name F r in
    negb (String.eqb gk "") && String.eqb (py_lower gk) k in
  NoDup (map fst (DuckDB.group_rows F matches)) /\
  (forall k rs, In (k, rs) (DuckDB.group_rows F matches) ->
     k <> "" /\ rs = filter (sel k) matches /\ rs <> []) /\
  (forall k, k <> "" -> In k (map fst (DuckDB.group_rows F matches)) <->
                        exists r', In r' matches /\ sel k r' = true).
Proof.
  intro sel. unfold DuckDB.group_rows.
  assert (G : forall l d p,
    NoDup (map fst d) ->
    (forall k rs, In (k, rs) d -> k <> "" /\ rs = filter (sel k) p /\ rs <> []) ->
    (forall k, k <> "" -> In k (map fst d) <-> exists r', In r' p /\ sel k r' = true) ->
    let d' := fold_left (fun d r =>
      let group_key := if String.eqb (DuckDB.r_normalized_name F r) "" then DuckDB.r_title F r
                       else DuckDB.r_normalized_name F r in
      if String.eqb group_key "" then d else Hybrid.dict_append d (py_lower group_key) r) l d in
    NoDup (map fst d') /\
    (forall k rs, In (k, rs) d' -> k <> "" /\ rs = filter (sel k) (app p l) /\ rs <> []) /\
    (forall k, k <> "" -> In k (map fst d') <-> exists r', In r' (app p l) /\ sel k r' = true)).
  { induction l as [|a l IH]; intros d p H1 H2 H3; simpl.
    - rewrite app_nil_r. auto.
    - destruct (group_rows_step d p a H1 H2 H3) as [S1 [S2 S3]].
      replace (app p (a :: l)) with (app (app p [a]) l) by (rewrite <- app_assoc; reflexivity).
      apply IH; assumption. }
  apply (G matches [] []).
  - constructor.
  - intros k rs [].
  - intros k _. simpl. split; [intros []|intros [r' [[] _]]].
Qed.

End DuckDBGrouping.

Lemma make_group_fields {F : Type} ltb (add sub div : F -> F -> F) of_nat md5_12 name prods g :
  DuckDB.make_group F ltb add sub div of_nat md5_12 name prods = Some g ->
  DuckDB.g_id F g = md5_12 name /\ DuckDB.g_products F g = prods /\
  DuckDB.g_product_count F g = length prods /\ DuckDB.row_prices F prods <> [].
Proof.
  unfold DuckDB.make_group. destruct (DuckDB.row_prices F prods) eqn:E; [discriminate|].
  intro H. injection H as <-. simpl. split; [reflexivity|split; [reflexivity|split; [reflexivity|discriminate]]].
Qed.

(** [_create_dynamic_groups] of the DuckDB engine: every group of a page
    comes from one non-empty lower-cased key [k] (the row's [normalizedName],
    or its title when that is empty): its products are exactly the matched
    rows with that key, in their order, at least one of them has a price,
    [product_count] is their number and the id is the digest of [k].  Rows
    whose key is empty are in no group, and a page holds at most [limit]
    groups. *)
Theorem duckdb_groups_by_key (F : Type) ltb (add sub div : F -> F -> F) of_nat md5_12
    (matches : list (DuckDB.Row F)) (query : string) (limit offset : nat) :
  let sel k (r : DuckDB.Row F) :=
    let gk := if String.eqb (DuckDB.r_normalized_name F r) "" then DuckDB.r_title F r
              else DuckDB.r_normalized_name F r in
    negb (String.eqb gk "") && String.eqb (py_lower gk) k in
  let page := DuckDB.create_dynamic_groups F ltb add sub div of_nat md5_12 matches query limit offset in
  Forall (fun g => exists k, k <> "" /\ DuckDB.g_id F g = md5_12 k /\
                             DuckDB.g_products F g = filter (sel k) matches /\
                             DuckDB.row_prices F (DuckDB.g_products F g) <> [] /\
                             DuckDB.g_product_count F g = length (DuckDB.g_products F g))
         (DuckDB.pg_groups F page) /\
  length (DuckDB.pg_groups F page) <= limit.
Proof.
  intros sel page. unfold page, DuckDB.create_dynamic_groups. simpl DuckDB.pg_groups.
  split; [|apply firstn_le_length].
  apply Forall_forall. intros g Hg.
  apply In_firstn, In_skipn in Hg. unfold DuckDB.sort_by_relevance in Hg.
  eapply Permutation_in in Hg; [|apply Permutation_sym, stable_sort_perm].
  apply in_flat_map in Hg. destruct Hg as [[k rs] [He Hg]]. simpl in Hg.
  destruct (DuckDB.make_group F ltb add sub div of_nat md5_12 k rs) as [g0|] eqn:Em; [|destruct Hg].
  destruct Hg as [<-|[]].
  destruct (make_group_fields _ _ _ _ _ _ _ _ _ Em) as [Hid [Hp [Hc Hpr]]].
  destruct (group_rows_spec F matches) as [_ [Hk _]].
  destruct (Hk k rs He) as [Hne [Hf _]].
  exists k. rewrite Hp. split; [exact Hne|split; [exact Hid|split; [exact Hf|split; [exact Hpr|exact Hc]]]].
Qed.

Lemma NoDup_map_filter {X Y : Type} (key : X -> Y) (keep : X -> bool) (xs : list X) :
  NoDup (map key xs) -> NoDup (map key (filter keep xs)).
Proof.
  induction xs as [|x xs IH]; simpl; intro H; [constructor|].
  inversion H as [|? ? Hn Hd]; subst. destruct (keep x); simpl; auto.
  constructor; auto. intro Hin. apply Hn.
  apply in_map_iff in Hin. destruct Hin as [y [Hy Hin]]. apply filter_In in Hin.
  rewrite <- Hy. apply in_map. apply Hin.
Qed.

(** The total of a DuckDB page ([len(groups)] before slicing) is the number
    of distinct non-empty lower-cased keys ([normalizedName], or the title
    when it is empty) among the matched rows that have a price: each such key
    gives one group, and a key whose rows all lack a price gives none. *)
Theorem duckdb_total_counts_priced_keys (F : Type) ltb (add sub div : F -> F -> F) of_nat md5_12
    (matches : list (DuckDB.Row F)) (query : string) (limit offset : nat) :
  DuckDB.pg_total F (DuckDB.create_dynamic_groups F ltb add sub div of_nat md5_12 matches query limit offset)
  = length (nodup string_dec
      (flat_map (fun r =>
         let gk := if String.eqb (DuckDB.r_normalized_name F r) "" then DuckDB.r_title F r
                   else DuckDB.r_normalized_name F r in
         if String.eqb gk "" then []
         else match DuckDB.r_price F r with Some _ => [py_lower gk] | None => [] end) matches)).
Proof.
  unfold DuckDB.create_dynamic_groups. simpl DuckDB.pg_total.
  unfold DuckDB.sort_by_relevance. rewrite <- (Permutation_length (stable_sort_perm _ _)).
  set (G := DuckDB.group_rows F matches).
  set (hp := fun e : string * list (DuckDB.Row F) =>
               match DuckDB.row_prices F (snd e) with [] => false | _ => true end).
  assert (Hl : forall G', length (flat_map (fun e => match DuckDB.make_group F ltb add sub div of_nat md5_12 (fst e) (snd e) with
                                       | Some g => [g] | None => [] end) G')
                  = length (map fst (filter hp G'))).
  { induction G' as [|e G' IH]; simpl; [reflexivity|].
    assert (Hhp : hp e = match DuckDB.row_prices F (snd e) with [] => false | _ => true end)
      by reflexivity.
    rewrite length_app, IH, Hhp. unfold DuckDB.make_group.
    destruct (DuckDB.row_prices F (snd e)); reflexivity. }
  rewrite Hl. apply Permutation_length, NoDup_Permutation.
  - apply NoDup_map_filter. apply (group_rows_spec F matches).
  - apply NoDup_nodup.
  - destruct (group_rows_spec F matches) as [_ [Hk Hc]]. fold G in Hk, Hc.
    intro k. rewrite nodup_In, in_flat_map, in_map_iff. split.
    + intros [[k' rs] [<- Hin]]. apply filter_In in Hin. destruct Hin as [Hin Hh].
      destruct (Hk k' rs Hin) as [Hne [Hf _]].
      unfold hp in Hh. simpl in Hh.
      destruct (DuckDB.row_prices F rs) as [|x xs] eqn:Ep; [discriminate|].
      assert (Hx : In x (DuckDB.row_prices F rs)) by (rewrite Ep; left; reflexivity).
      apply row_prices_In in Hx. destruct Hx as [r [Hr Hpr]].
      rewrite Hf in Hr. apply filter_In in Hr. destruct Hr as [Hr Hs].
      exists r. split; [exact Hr|]. apply andb_true_iff in Hs. destruct Hs as [Hs1 Hs2].
      apply negb_true_iff in Hs1. rewrite Hs1, Hpr. apply String.eqb_eq in Hs2. rewrite Hs2. left. reflexivity.
    + intros [r [Hr Hkr]]. cbv zeta in Hkr.
      remember (if String.eqb (DuckDB.r_normalized_name F r) "" then DuckDB.r_title F r
                else DuckDB.r_normalized_name F r) as gk eqn:Egk.
      destruct (String.eqb gk "") eqn:E1; [destruct Hkr|].
      destruct (DuckDB.r_price F r) as [x|] eqn:Ep; [|destruct Hkr].
      destruct Hkr as [<-|[]].
      assert (Hne : py_lower gk <> "")
        by (apply py_lower_nonempty; apply String.eqb_neq; exact E1).
      assert (Hsel : negb (String.eqb gk "") && String.eqb (py_lower gk) (py_lower gk) = true)
        by (rewrite E1, String.eqb_refl; reflexivity).
      assert (Hin : In (py_lower gk) (map fst G)).
      { apply (Hc _ Hne). exists r. split; [exact Hr|]. subst gk. exact Hsel. }
      apply in_map_iff in Hin. destruct Hin as [[k' rs] [Hk' Hin]]. simpl in Hk'. subst k'.
      exists (py_lower gk, rs). split; [reflexivity|]. apply filter_In. split; [exact Hin|].
      destruct (Hk _ rs Hin) as [_ [Hf _]].
      assert (Hx : In x (DuckDB.row_prices F rs)).
      { apply row_prices_In. exists r. split; [|exact Ep].
        rewrite Hf. apply filter_In. split; [exact Hr|]. subst gk. exact Hsel. }
      unfold hp. simpl. destruct (DuckDB.row_prices F rs); [destruct Hx|reflexivity].
Qed.

(** *** The result cache of [PharmaSearchEngine.search] *)

Lemma dict_set_length {V : Type} (k : string) (v : V) (d : list (string * V)) :
  length (dict_set k v d) <= S (length d).
Proof.
  induction d as [|[k' v'] d IH]; simpl; [lia|].
  destruct (String.eqb k' k); simpl; lia.
Qed.

Lemma NoDup_skipn {A : Type} (n : nat) (l : list A) : NoDup l -> NoDup (skipn n l).
Proof.
  intro H. rewrite <- (firstn_skipn n l) in H. exact (NoDup_app_remove_l _ _ H).
Qed.

(** The size bound, the key discipline and the overflow rule of the search
    cache: when the cache has at most 1000 entries with distinct keys before
    [search], it still has at most 1000 entries with distinct keys after it.
    When it is full (1000 entries) and the request misses, the new entry
    makes 1001 and only the newest 500 are kept: the last 499 old entries,
    in their order, then the new one. *)
Theorem cache_stays_bounded (Result Filters : Type) (md5_hexdigest : string -> string)
  (dumps_filters : Filters -> string)
  (db_search_groups_enhanced search_products : string -> option Filters -> nat -> nat -> Result)
  (st : Cache.SearchState Result) (query : string) (filters : option Filters)
  (group_results : bool) (limit offset : nat) (force_db_search : bool) (t_check t_insert : Q) :
  length (Cache.search_cache st) <= 1000 ->
  NoDup (map fst (Cache.search_cache st)) ->
  let key := Cache._get_cache_key md5_hexdigest dumps_filters query filters limit offset
               (if force_db_search then "db" else "hybrid") in
  let out := Cache.search md5_hexdigest dumps_filters db_search_groups_enhanced search_products
               st query filters group_results limit offset force_db_search t_check t_insert in
  let st' := snd out in
  length (Cache.search_cache st') <= 1000 /\ NoDup (map fst (Cache.search_cache st')) /\
  (length (Cache.search_cache st) = 1000 -> dict_lookup key (Cache.search_cache st) = None ->
   Cache.search_cache st' = app (skipn 501 (Cache.search_cache st)) [(key, Cache.mkEntry (fst out) t_insert)]).
Proof.
  intros Hlen Hnd key out st'.
  cut (length (Cache.search_cache st') <= 1000 /\ NoDup (map fst (Cache.search_cache st'))).
  { intros [H1 H2]. split; [exact H1|]. split; [exact H2|].
    intros Hfull Hnone. unfold st', out, Cache.search. cbv zeta. fold key. rewrite Hnone.
    cbn [snd fst Cache.search_cache].
    rewrite dict_set_notin by (apply dict_lookup_None; exact Hnone).
    rewrite length_app, Hfull. cbn [length Nat.add Nat.ltb Nat.leb Nat.sub].
    rewrite skipn_app, Hfull. reflexivity. }
  clear key. unfold st', out, Cache.search.
  set (key := Cache._get_cache_key _ _ _ _ _ _ _).
  assert (Hc : forall c, length c <= 1000 -> NoDup (map fst c) ->
     let c' := dict_set key (Cache.mkEntry
                 (if group_results then db_search_groups_enhanced query filters limit offset
                  else search_products query filters limit offset) t_insert) c in
     let c' := if 1000 <n length c' then skipn (length c' - 500) c' else c' in
     length c' <= 1000 /\ NoDup (map fst c')).
  { intros c H1 H2 c0 c1.
    assert (Hs : length c0 <= S (length c)) by apply dict_set_length.
    assert (Hn : NoDup (map fst c0)) by (apply dict_set_NoDup; exact H2).
    unfold c1. destruct (Nat.ltb 1000 (length c0)) eqn:E.
    - apply Nat.ltb_lt in E. rewrite length_skipn, <- skipn_map. split; [lia|].
      apply NoDup_skipn. exact Hn.
    - apply Nat.ltb_ge in E. auto. }
  destruct (dict_lookup key (Cache.search_cache st)) as [e|] eqn:Hl.
  - destruct (Cache._is_cache_valid t_check e); simpl; [auto|].
    apply Hc.
    + unfold dict_delete. rewrite <- Hlen. apply filter_length_le.
    + unfold dict_delete. apply NoDup_map_filter. exact Hnd.
  - simpl. apply Hc; assumption.
Qed.

(** The flag [group_results] is not part of the cache key: a request first
    made with [group_results=True] and not in the cache stores the grouped
    result, and the same request made with [group_results=False] while that
    entry is still valid is a hit that returns the grouped result. *)
Theorem cache_ignores_group_results (Result Filters : Type) (md5_hexdigest : string -> string)
  (dumps_filters : Filters -> string)
  (db_search_groups_enhanced search_products : string -> option Filters -> nat -> nat -> Result)
  (st : Cache.SearchState Result) (query : string) (filters : option Filters)
  (limit offset : nat) (force_db_search : bool) (t1 t2 t3 t4 : Q) :
  let key := Cache._get_cache_key md5_hexdigest dumps_filters query filters limit offset
               (if force_db_search then "db" else "hybrid") in
  dict_lookup key (Cache.search_cache st) = None ->
  (t3 - t2 < 300)%Q ->
  let out1 := Cache.search md5_hexdigest dumps_filters db_search_groups_enhanced search_products
                st query filters true limit offset force_db_search t1 t2 in
  let out2 := Cache.search md5_hexdigest dumps_filters db_search_groups_enhanced search_products
                (snd out1) query filters false limit offset force_db_search t3 t4 in
  fst out1 = db_search_groups_enhanced query filters limit offset
  /\ fst out2 = db_search_groups_enhanced query filters limit offset
  /\ Cache.cache_hits (snd out2) = S (Cache.cache_hits (snd out1))
  /\ Cache.search_cache (snd out2) = Cache.search_cache (snd out1).
Proof.
  intros key Hl Ht out1 out2.
  assert (Hs : dict_lookup key (Cache.search_cache (snd out1))
               = Some (Cache.mkEntry (db_search_groups_enhanced query filters limit offset) t2)).
  { unfold out1, Cache.search. fold key. rewrite Hl. simpl.
    apply cache_store_lookup, dict_lookup_None. exact Hl. }
  assert (Hv : Cache._is_cache_valid t3 (Cache.mkEntry (db_search_groups_enhanced query filters limit offset) t2) = true).
  { unfold Cache._is_cache_valid. apply Qltb_true_intro. exact Ht. }
  assert (H1 : fst out1 = db_search_groups_enhanced query filters limit offset).
  { unfold out1, Cache.search. fold key. rewrite Hl. reflexivity. }
  split; [exact H1|].
  unfold out2, Cache.search. fold key. rewrite Hs, Hv. simpl.
  split; [reflexivity|split; reflexivity].
Qed.

Lemma cache_ignores_group_results_witness :
  let st0 := @Cache.mkState nat [] 0 0 in
  let out1 := Cache.search (fun s => s) (fun _ : unit => "{}") (fun _ _ _ _ => 1%nat)
                (fun _ _ _ _ => 2%nat) st0 "aspirin" None true 10 0 false 0 1 in
  let out2 := Cache.search (fun s => s) (fun _ : unit => "{}") (fun _ _ _ _ => 1%nat)
                (fun _ _ _ _ => 2%nat) (snd out1) "aspirin" None false 10 0 false 100 101 in
  fst out2 = 1%nat.
Proof.
  intros st0 out1 out2.
  destruct (cache_ignores_group_results nat unit (fun s => s) (fun _ => "{}") (fun _ _ _ _ => 1%nat)
              (fun _ _ _ _ => 2%nat) st0 "aspirin" None 10 0 false 0 1 100 101
              ltac:(reflexivity) ltac:(vm_compute; reflexivity)) as [_ [H _]].
  exact H.
Defined.

(** *** The JSON text of the cache key *)

Lemma str_app_assoc (a b c : string) : (a ++ b) ++ c = a ++ (b ++ c).
Proof. induction a as [|x a IH]; simpl; [reflexivity|rewrite IH; reflexivity]. Qed.

Lemma str_app_inv_head (a x y : string) : a ++ x = a ++ y -> x = y.
Proof. induction a as [|c a IH]; simpl; [auto|intro H; injection H; auto]. Qed.

Lemma str_app_prefix (a b x y : string) :
  a ++ x = b ++ y -> String.prefix a b = true \/ String.prefix b a = true.
Proof.
  revert b. induction a as [|c a IH]; intros b H; simpl.
  - left. destruct b; reflexivity.
  - destruct b as [|c' b]; [right; reflexivity|].
    simpl in H. injection H as <- H. simpl. destruct (ascii_dec c c); [|contradiction].
    exact (IH b H).
Qed.

Lemma In_all_ascii (a : ascii) : In a (map ascii_of_nat (seq 0 256)).
Proof.
  apply in_map_iff. exists (nat_of_ascii a). split; [apply ascii_nat_embedding|].
  apply in_seq. pose proof (nat_ascii_bounded a). lia.
Qed.

Lemma json_char_prefix_free (c1 c2 : ascii) :
  String.prefix (Cache.json_char c1) (Cache.json_char c2) = true \/
  String.prefix (Cache.json_char c2) (Cache.json_char c1) = true -> c1 = c2.
Proof.
  assert (Hall : forallb (fun c1 => forallb (fun c2 =>
             negb (String.prefix (Cache.json_char c1) (Cache.json_char c2)
                   || String.prefix (Cache.json_char c2) (Cache.json_char c1))
             || Ascii.eqb c1 c2) (map ascii_of_nat (seq 0 256))) (map ascii_of_nat (seq 0 256)) = true)
    by (vm_compute; reflexivity).
  intro H. rewrite forallb_forall in Hall. specialize (Hall c1 (In_all_ascii c1)).
  rewrite forallb_forall in Hall. specialize (Hall c2 (In_all_ascii c2)).
  apply orb_true_iff in Hall. destruct Hall as [Hn|He].
  - apply negb_true_iff in Hn. destruct H as [H|H]; rewrite H in Hn;
      [discriminate|rewrite orb_true_r in Hn; discriminate].
  - apply Ascii.eqb_eq. exact He.
Qed.

Lemma json_char_head (c : ascii) :
  exists c0 t, Cache.json_char c = String c0 t /\ c0 <> ascii_of_nat 34.
Proof.
  assert (Hall : forallb (fun c => match Cache.json_char c with
                                   | String c0 _ => negb (Ascii.eqb c0 (ascii_of_nat 34))
                                   | EmptyString => false end)
                   (map ascii_of_nat (seq 0 256)) = true)
    by (vm_compute; reflexivity).
  rewrite forallb_forall in Hall. specialize (Hall c (In_all_ascii c)).
  destruct (Cache.json_char c) as [|c0 t]; [discriminate|].
  exists c0, t. split; [reflexivity|]. intro E. subst c0.
  rewrite Ascii.eqb_refl in Hall. discriminate.
Qed.

Lemma json_chars_inj (s1 s2 r1 r2 : string) :
  Cache.json_chars s1 ++ Cache.dq ++ r1 = Cache.json_chars s2 ++ Cache.dq ++ r2 ->
  s1 = s2 /\ r1 = r2.
Proof.
  revert s2. induction s1 as [|c1 s1 IH]; intros [|c2 s2] H; simpl in H.
  - injection H as H. auto.
  - exfalso. destruct (json_char_head c2) as [c0 [t [E Hc]]]. rewrite E in H.
    injection H as H _. apply Hc. symmetry. exact H.
  - exfalso. destruct (json_char_head c1) as [c0 [t [E Hc]]]. rewrite E in H.
    injection H as H _. apply Hc. exact H.
  - rewrite !str_app_assoc in H.
    assert (Hc : c1 = c2) by (apply json_char_prefix_free; eapply str_app_prefix; exact H).
    subst c2. apply str_app_inv_head in H. destruct (IH s2 H) as [-> ->]. auto.
Qed.

Lemma digit_char_is_digit (k : nat) : k < 10 -> is_digit (ascii_of_nat (48 + k)) = true.
Proof.
  intro H. unfold is_digit, code. rewrite nat_ascii_embedding by lia.
  apply andb_true_iff. split; apply Nat.leb_le; lia.
Qed.

Lemma N_to_digits_digits (f : nat) : forall n acc,
  Forall (fun c => is_digit c = true) (list_ascii_of_string acc) ->
  Forall (fun c => is_digit c = true) (list_ascii_of_string (N_to_digits f n acc)).
Proof.
  induction f as [|f IH]; intros n acc H; cbn [N_to_digits]; [exact H|].
  assert (Hd : Forall (fun c => is_digit c = true)
                 (list_ascii_of_string (String (ascii_of_nat (48 + N.to_nat (n mod 10))) acc))).
  { cbn [list_ascii_of_string]. constructor; [|exact H]. apply digit_char_is_digit.
    pose proof (N.mod_lt n 10 ltac:(discriminate)) as Hm. lia. }
  destruct (n <? 10)%N; [exact Hd|apply IH; exact Hd].
Qed.

Lemma digits_comma_split (a b x y : string) :
  Forall (fun c => is_digit c = true) (list_ascii_of_string a) ->
  Forall (fun c => is_digit c = true) (list_ascii_of_string b) ->
  a ++ String "," x = b ++ String "," y -> a = b /\ x = y.
Proof.
  revert b. induction a as [|c a IH]; intros [|c' b] Ha Hb H; simpl in H.
  - injection H as ->. auto.
  - injection H as Hc _. inversion Hb as [|? ? Hd _]; subst. discriminate.
  - injection H as Hc _. inversion Ha as [|? ? Hd _]; subst. discriminate.
  - injection H as <- H. inversion Ha; inversion Hb; subst.
    destruct (IH b) as [-> ->]; auto.
Qed.

Lemma digits_to_N_digit (n : N) (acc : string) : (n < 10)%N ->
  digits_to_N 0 (String (ascii_of_nat (48 + N.to_nat n)) acc) = digits_to_N n acc.
Proof.
  intro H. cbn [digits_to_N]. unfold code. rewrite nat_ascii_embedding by lia.
  f_equal. rewrite Nat.add_comm, Nat.add_sub. rewrite N2Nat.id. reflexivity.
Qed.

Lemma N_to_digits_value (f : nat) : forall n acc,
  (n < 10 ^ N.of_nat f)%N -> digits_to_N 0 (N_to_digits f n acc) = digits_to_N n acc.
Proof.
  induction f as [|f IH]; intros n acc H; cbn [N_to_digits].
  - simpl in H. replace n with 0%N by lia. reflexivity.
  - destruct (n <? 10)%N eqn:E.
    + apply N.ltb_lt in E. rewrite N.mod_small by exact E. apply digits_to_N_digit. exact E.
    + apply N.ltb_ge in E. rewrite IH.
      * cbn [digits_to_N]. unfold code. rewrite nat_ascii_embedding.
        -- f_equal. rewrite Nat.add_comm, Nat.add_sub, N2Nat.id.
           rewrite (N.div_mod n 10) at 3 by discriminate. lia.
        -- pose proof (N.mod_lt n 10 ltac:(discriminate)). lia.
      * rewrite Nat2N.inj_succ, N.pow_succ_r' in H.
        apply N.Div0.div_lt_upper_bound. lia.
Qed.

Lemma N_to_str_value (n : N) : digits_to_N 0 (N_to_str n) = n.
Proof.
  unfold N_to_str. rewrite N_to_digits_value; [reflexivity|].
  rewrite Nat2N.inj_succ, N2Nat.id.
  destruct (N.eq_dec n 0) as [->|Hn]; [reflexivity|].
  apply (N.lt_le_trans _ (2 ^ N.succ (N.log2 n))).
  - apply N.log2_spec. lia.
  - apply N.pow_le_mono_l. lia.
Qed.

Lemma N_to_str_digits (n : N) :
  Forall (fun c => is_digit c = true) (list_ascii_of_string (N_to_str n)).
Proof. apply N_to_digits_digits. constructor. Qed.

Lemma N_to_str_comma_split (n1 n2 : N) (x y : string) :
  N_to_str n1 ++ String "," x = N_to_str n2 ++ String "," y -> n1 = n2 /\ x = y.
Proof.
  intro H. apply digits_comma_split in H; [|apply N_to_str_digits..].
  destruct H as [H ->]. split; [|reflexivity].
  rewrite <- (N_to_str_value n1), <- (N_to_str_value n2), H. reflexivity.
Qed.

(** The JSON text that [_get_cache_key] hashes determines the request: for
    the same filters, two key texts are equal exactly when the (normalised)
    queries, the limits, the offsets and the search types are equal, so two
    different requests get the same cache key only through an MD5 collision. *)
Theorem cache_key_data_injective (Filters : Type) (dumps_filters : Filters -> string)
  (q1 q2 : string) (filters : option Filters) (l1 l2 o1 o2 : nat) (s1 s2 : string) :
  Cache.dumps_key_data Filters dumps_filters q1 filters l1 o1 s1
  = Cache.dumps_key_data Filters dumps_filters q2 filters l2 o2 s2
  <-> q1 = q2 /\ l1 = l2 /\ o1 = o2 /\ s1 = s2.
Proof.
  split; [|intros (-> & -> & -> & ->); reflexivity].
  unfold Cache.dumps_key_data. intro H. cbn [String.append] in H.
  repeat first [apply str_app_inv_head in H | injection H as H].
  apply N_to_str_comma_split in H. destruct H as [Hl H]. apply Nat2N.inj in Hl.
  repeat first [apply str_app_inv_head in H | injection H as H].
  apply N_to_str_comma_split in H. destruct H as [Ho H]. apply Nat2N.inj in Ho.
  repeat first [apply str_app_inv_head in H | injection H as H].
  rewrite !str_app_assoc in H. apply json_chars_inj in H. destruct H as [Hq H].
  cbn [String.append Cache.dq] in H.
  repeat first [apply str_app_inv_head in H | injection H as H].
  apply json_chars_inj in H. destruct H as [Hs _].
  auto.
Qed.

Lemma cache_stays_bounded_witness :
  let st0 := Cache.mkState (map (fun n => (N_to_str (N.of_nat n), Cache.mkEntry 0%nat 0%Q)) (seq 0 1000)) 0 0 in
  let key := Cache._get_cache_key (fun s => s) (fun _ : unit => "{}") "aspirin" None 10 0 "hybrid" in
  let out := Cache.search (fun s => s) (fun _ : unit => "{}") (fun _ _ _ _ => 1%nat)
               (fun _ _ _ _ => 2%nat) st0 "aspirin" None true 10 0 false 0 1 in
  length (Cache.search_cache st0) = 1000 /\ dict_lookup key (Cache.search_cache st0) = None /\
  Cache.search_cache (snd out) = app (skipn 501 (Cache.search_cache st0)) [(key, Cache.mkEntry (fst out) 1%Q)].
Proof.
  intros st0 key out.
  assert (Hl : length (Cache.search_cache st0) = 1000)
    by (unfold st0; cbn [Cache.search_cache]; rewrite length_map, length_seq; reflexivity).
  assert (Hk : dict_lookup key (Cache.search_cache st0) = None) by (vm_compute; reflexivity).
  assert (Hnd : NoDup (map fst (Cache.search_cache st0))).
  { unfold st0. cbn [Cache.search_cache]. rewrite map_map. cbn [fst].
    apply NoDup_map_NoDup_ForallPairs; [|apply seq_NoDup].
    intros x y _ _ E. apply (f_equal (digits_to_N 0)) in E. rewrite !N_to_str_value in E. lia. }
  split; [exact Hl|split; [exact Hk|]].
  exact (proj2 (proj2 (cache_stays_bounded nat unit (fun s => s) (fun _ => "{}") (fun _ _ _ _ => 1%nat)
           (fun _ _ _ _ => 2%nat) st0 "aspirin" None true 10 0 false 0 1
           ltac:(rewrite Hl; lia) Hnd)) Hl Hk).
Defined.

(** *** Identities of [PharmaPreprocessor] *)

Lemma str_app_nonempty_r (a b : string) : b <> "" -> a ++ b <> "".
Proof. destruct a; simpl; [auto|discriminate]. Qed.

Lemma py_join_nonempty (sep x : string) (xs : list string) :
  In x xs -> x <> "" -> py_join sep xs <> "".
Proof.
  induction xs as [|y xs IH]; intros Hin Hx; [destruct Hin|].
  destruct xs as [|z xs].
  - destruct Hin as [->|[]]. exact Hx.
  - change (py_join sep (y :: z :: xs)) with (y ++ sep ++ py_join sep (z :: xs)).
    destruct Hin as [->|Hin].
    + destruct x; [contradiction|discriminate].
    + apply str_app_nonempty_r, str_app_nonempty_r, IH; assumption.
Qed.

Lemma detect_category_In (text : string) :
  In (Preprocessor.detect_category text)
     ["vitamins"; "minerals"; "probiotics"; "supplements"; "painkillers"; "antibiotics"; "other"].
Proof.
  unfold Preprocessor.detect_category.
  destruct (find _ Preprocessor.category_patterns) as [[c ps]|] eqn:E.
  - apply find_some in E. destruct E as [E _].
    apply (in_map fst) in E. simpl in E. simpl. tauto.
  - simpl. tauto.
Qed.

(** [preprocess_product] gives an empty [grouping_key] exactly for an empty
    title: for any other title the key holds the detected category, one of
    the six category names or ["other"].  So the first pass of
    [_group_products_hybrid] leaves exactly the products with an empty title
    ungrouped. *)
Theorem preprocess_grouping_key_empty (title brand_name : string) :
  (Preprocessor.grouping_key (Preprocessor.preprocess_product title brand_name) = "" <-> title = "")
  /\ (title <> "" ->
      In (Preprocessor.category (Preprocessor.preprocess_product title brand_name))
         ["vitamins"; "minerals"; "probiotics"; "supplements"; "painkillers"; "antibiotics"; "other"]).
Proof.
  unfold Preprocessor.preprocess_product.
  destruct (String.eqb title "") eqn:Et.
  - apply String.eqb_eq in Et. subst title. split; [split; reflexivity|intro H; contradiction].
  - apply String.eqb_neq in Et. cbv zeta. cbn [Preprocessor.grouping_key Preprocessor.category].
    set (cat := Preprocessor.detect_category (Preprocessor.basic_clean title)).
    assert (Hc : In cat ["vitamins"; "minerals"; "probiotics"; "supplements"; "painkillers"; "antibiotics"; "other"])
      by apply detect_category_In.
    assert (Hne : cat <> "")
      by (intro E; rewrite E in Hc; simpl in Hc; intuition discriminate).
    split; [|intros _; exact Hc].
    split; [|intro E; contradiction].
    intro Hk. exfalso. revert Hk. unfold Preprocessor.generate_grouping_key.
    apply (py_join_nonempty _ cat); [|exact Hne].
    apply in_concat. exists [cat]. split; [|left; reflexivity].
    destruct (String.eqb cat "") eqn:E; [apply String.eqb_eq in E; contradiction|].
    right. right. right. left. reflexivity.
Qed.

Lemma code_inj (x y : ascii) : code x = code y -> x = y.
Proof.
  unfold code. intro H. rewrite <- (ascii_nat_embedding x), <- (ascii_nat_embedding y), H.
  reflexivity.
Qed.

Lemma str_ltb_irrefl (s : string) : str_ltb s s = false.
Proof.
  induction s as [|x s IH]; simpl; [reflexivity|].
  rewrite Nat.ltb_irrefl. exact IH.
Qed.

Lemma str_ltb_trans (a b c : string) : str_ltb a b = true -> str_ltb b c = true -> str_ltb a c = true.
Proof.
  revert b c. induction a as [|x a IH]; intros [|y b] [|z c]; simpl; try discriminate; auto.
  destruct (code x <n code y) eqn:E1; destruct (code y <n code x) eqn:E2;
  destruct (code y <n code z) eqn:E3; destruct (code z <n code y) eqn:E4;
  rewrite ?Nat.ltb_lt, ?Nat.ltb_ge in *; intros H1 H2; try discriminate;
  destruct (code x <n code z) eqn:E5; destruct (code z <n code x) eqn:E6;
  rewrite ?Nat.ltb_lt, ?Nat.ltb_ge in *; try reflexivity; try lia.
  apply (IH b c); assumption.
Qed.

Lemma str_ltb_total (a b : string) : a <> b -> str_ltb a b = false -> str_ltb b a = true.
Proof.
  revert b. induction a as [|x a IH]; intros [|y b]; simpl; intros Hne H;
    try discriminate; try reflexivity; [contradiction|].
  destruct (code x <n code y) eqn:E1; [discriminate|].
  destruct (code y <n code x) eqn:E2; [reflexivity|].
  rewrite Nat.ltb_ge in E1, E2. assert (Hxy : x = y) by (apply code_inj; lia). subst y.
  apply IH; [intro E; apply Hne; rewrite E; reflexivity|exact H].
Qed.

Lemma insert_str_perm (x : string) (l : list string) : Permutation (insert_str x l) (x :: l).
Proof.
  induction l as [|y l IH]; simpl; [reflexivity|].
  destruct (str_ltb y x); [|reflexivity].
  rewrite IH. apply perm_swap.
Qed.

Lemma insert_str_sorted (x : string) (l : list string) :
  Sorted (fun a b => str_ltb a b = true) l -> ~ In x l ->
  Sorted (fun a b => str_ltb a b = true) (insert_str x l) /\
  (forall y, HdRel (fun a b => str_ltb a b = true) y l -> str_ltb y x = true ->
             HdRel (fun a b => str_ltb a b = true) y (insert_str x l)).
Proof.
  induction l as [|y0 l IH]; intros Hs Hn; simpl.
  - split; [repeat constructor|]. intros y _ H. constructor. exact H.
  - inversion Hs as [|? ? Hs' Hh]; subst.
    destruct (IH Hs' (fun H => Hn (or_intror H))) as [IH1 IH2].
    destruct (str_ltb y0 x) eqn:E.
    + split.
      * constructor; [exact IH1|]. apply IH2; assumption.
      * intros y Hy _. inversion Hy; subst. constructor. assumption.
    + assert (Hx : str_ltb x y0 = true).
      { apply str_ltb_total; [intro Heq; apply Hn; left; exact Heq|exact E]. }
      split.
      * constructor; [exact Hs|]. constructor. exact Hx.
      * intros y _ H. constructor. exact H.
Qed.

Lemma sort_strs_spec (l : list string) :
  NoDup l -> Sorted (fun a b => str_ltb a b = true) (sort_strs l) /\ Permutation (sort_strs l) l.
Proof.
  induction l as [|x l IH]; intro Hnd; simpl; [split; constructor|].
  inversion Hnd as [|? ? Hn Hd]; subst. destruct (IH Hd) as [Hs Hp].
  change (sort_strs (x :: l)) with (insert_str x (sort_strs l)).
  split.
  - apply insert_str_sorted; [exact Hs|]. intro H. apply Hn. eapply Permutation_in; eassumption.
  - rewrite insert_str_perm. apply perm_skip. exact Hp.
Qed.

(** The [search_tokens] of [preprocess_product] are in strictly increasing
    order (hence without repetition), and none of them is a noise word or
    shorter than two characters. *)
Theorem search_tokens_sorted_clean (title brand_name : string) :
  let ts := Preprocessor.search_tokens (Preprocessor.preprocess_product title brand_name) in
  Sorted (fun a b => str_ltb a b = true) ts /\ NoDup ts /\
  Forall (fun t => ~ In t Preprocessor.noise_words /\ 2 <= String.length t) ts.
Proof.
  intro ts. unfold ts, Preprocessor.preprocess_product.
  destruct (String.eqb title "").
  - cbn. split; [constructor|split; constructor].
  - cbv zeta. cbn [Preprocessor.search_tokens].
    unfold Preprocessor.generate_search_tokens, sorted_set. cbv zeta.
    match goal with |- context [nodup string_dec ?l] => set (L := l) end.
    destruct (sort_strs_spec (nodup string_dec L) (NoDup_nodup _ _)) as [Hs Hp].
    split; [exact Hs|split].
    + eapply Permutation_NoDup; [apply Permutation_sym; exact Hp|apply NoDup_nodup].
    + apply Forall_forall. intros t Ht. eapply Permutation_in in Ht; [|exact Hp].
      apply nodup_In in Ht. unfold L in Ht. apply filter_In in Ht. destruct Ht as [_ Ht].
      apply andb_true_iff in Ht. destruct Ht as [H1 H2]. apply negb_true_iff in H1.
      apply Nat.ltb_lt in H2. split; [|lia].
      intro Hin. unfold str_in in H1.
      assert (Hx : existsb (String.eqb t) Preprocessor.noise_words = true)
        by (apply existsb_exists; exists t; split; [exact Hin|apply String.eqb_refl]).
      congruence.
Qed.

(** *** Provenance of the hits of [SimilarityMatcher] *)

Lemma exact_word_matches_In (query_lower : string) (query_len : nat)
    (products : list (string * string)) (h : Matcher.Hit) :
  In h (Matcher.exact_word_matches query_lower query_len products) ->
  In (Matcher.hit_id h, snd h) products.
Proof.
  unfold Matcher.exact_word_matches. rewrite in_flat_map.
  intros [[pid name] [Hp Hh]]. cbv zeta in Hh.
  assert (Hform : forall s, h = (pid, s, name) -> In (Matcher.hit_id h, snd h) products)
    by (intros s ->; exact Hp).
  apply in_app_or in Hh. destruct Hh as [Hh|Hh].
  - destruct (query_len <=n 3); [|destruct Hh].
    destruct (existsb _ _); [destruct Hh as [<-|[]]; eapply Hform; reflexivity|].
    destruct (starts_with _ _); [destruct Hh as [<-|[]]; eapply Hform; reflexivity|destruct Hh].
  - destruct (str_in _ _); [destruct Hh as [<-|[]]; eapply Hform; reflexivity|].
    destruct (_ || _ || _); [destruct Hh as [<-|[]]; eapply Hform; reflexivity|destruct Hh].
Qed.

Lemma semantic_search_In (Index : Type) (faiss_search : Index -> string -> nat -> list (Z * Q))
    (index : option Index) (products : list (string * string)) (query : string) (k query_len : nat)
    (h : Matcher.Hit) :
  In h (Matcher._semantic_search Index faiss_search index products query k query_len) ->
  In (Matcher.hit_id h, snd h) products.
Proof.
  unfold Matcher._semantic_search. destruct index as [ix|]; [|intros []].
  rewrite in_flat_map. intros [[idx dist] [_ Hh]]. cbv zeta in Hh.
  destruct (_ && _); [|destruct Hh].
  destruct (Qltb _ _); [|destruct Hh].
  destruct (nth_error products (Z.to_nat idx)) as [[pid name]|] eqn:E; [|destruct Hh].
  destruct Hh as [<-|[]]. simpl. eapply nth_error_In. exact E.
Qed.

(** [find_similar_products] invents no product: every hit it returns is an
    exact-word or semantic hit, which carries the id and the name of a
    catalogue entry [(product_id, name)] (the semantic tier only reads
    indices inside the catalogue), or a hit of the fuzzy tier. *)
Theorem find_similar_products_provenance (Index : Type)
  (faiss_search : Index -> string -> nat -> list (Z * Q))
  (fuzzy_search : string -> nat -> nat -> list Matcher.Hit) (index : option Index)
  (products : list (string * string)) (query : string) (k : nat) (threshold : Q) :
  Forall (fun h => In (Matcher.hit_id h, snd h) products
                   \/ In h (fuzzy_search query k (String.length (py_strip (py_lower query)))))
    (Matcher.find_similar_products Index faiss_search fuzzy_search index products query k threshold).
Proof.
  apply Forall_forall. intros h Hh. unfold Matcher.find_similar_products in Hh. cbv zeta in Hh.
  apply In_firstn in Hh.
  destruct h as [[pid s] name].
  match type of Hh with
  | In _ (Matcher._combine_and_deduplicate_results ?hs ?t) =>
      destruct (combine_spec hs t) as [_ [Hc _]]
  end.
  destruct (Hc pid s name Hh) as [Hin _].
  apply in_app_or in Hin. destruct Hin as [Hin|Hin].
  - apply in_app_or in Hin. destruct Hin as [Hin|Hin].
    + left. exact (exact_word_matches_In _ _ _ _ Hin).
    + right. exact Hin.
  - left. exact (semantic_search_In _ _ _ _ _ _ _ _ Hin).
Qed.

(** *** Every product of the PostgreSQL grouping gets a group *)

Lemma NoDup_map_inj {A B : Type} (f : A -> B) (l : list A) (x y : A) :
  NoDup (map f l) -> In x l -> In y l -> f x = f y -> x = y.
Proof.
  induction l as [|a l IH]; simpl; intros Hnd Hx Hy Hf; [destruct Hx|].
  inversion Hnd as [|? ? Hn Hd]; subst.
  destruct Hx as [<-|Hx]; destruct Hy as [<-|Hy]; auto.
  - exfalso. apply Hn. rewrite Hf. apply in_map. exact Hy.
  - exfalso. apply Hn. rewrite <- Hf. apply in_map. exact Hx.
Qed.

Lemma remove_first_keeps (x p : Hybrid.Product) (u : list Hybrid.Product) :
  In p u -> Hybrid.p_id p <> Hybrid.p_id x -> In p (Hybrid.remove_first x u).
Proof.
  induction u as [|y u IH]; simpl; intros Hp Hne; [destruct Hp|].
  destruct (String.eqb (Hybrid.p_id y) (Hybrid.p_id x)) eqn:E.
  - destruct Hp as [<-|Hp]; [apply String.eqb_eq in E; contradiction|exact Hp].
  - destruct Hp as [<-|Hp]; [left; reflexivity|right; apply IH; assumption].
Qed.

Lemma hybrid_products_perm (ml : option Hybrid.MLPreprocessor) (py_hash : string -> Z)
    (products : list Hybrid.Product) (product_ids : list string) :
  Permutation (flat_map Hybrid.g_products (Hybrid.group_products_hybrid ml py_hash products product_ids))
              products.
Proof.
  unfold Hybrid.group_products_hybrid.
  set (pi := map (fun p => (p, Preprocessor.preprocess_product (Hybrid.p_title p) (Hybrid.p_brand_name p)))
                 products).
  pose proof (place_items_perm ml pi [] []) as H1.
  destruct (fold_left (Hybrid.place_item ml) pi ([], [])) as [groups ungrouped]. simpl in H1.
  unfold Hybrid.sort_groups.
  rewrite <- (perm_flat_map _ _ _ (stable_sort_perm _ _)).
  rewrite final_groups_perm.
  assert (Hm : map fst pi = products).
  { unfold pi. rewrite map_map. simpl. apply map_id. }
  rewrite <- Hm. apply Permutation_map.
  rewrite place_ungrouped_perm. exact H1.
Qed.

Section MLClusters.

Variable m : Hybrid.MLPreprocessor.
Variables (products : list Hybrid.Product) (product_ids : list string).
Hypothesis ids_distinct : NoDup (map Hybrid.p_id products).

Lemma ml_cluster_step_covers (p : Hybrid.Product) (gs : list Hybrid.Group) (uncl : list Hybrid.Product)
    (cl : string * list string) :
  In p products ->
  (In p uncl \/ exists g, In g gs /\ In p (Hybrid.g_products g)) ->
  let lookup pid := find (fun p => String.eqb (Hybrid.p_id p) pid) (rev products) in
  let cluster_products := flat_map (fun pid => match lookup pid with
                                               | Some p => [p] | None => [] end) (snd cl) in
  let uncl' := fold_left (fun u p => Hybrid.remove_first p u) cluster_products uncl in
  let r := match cluster_products with
           | [] => (gs, uncl')
           | _ => (app gs [Hybrid.create_group_from_products cluster_products product_ids
                             ("ml_cluster_" ++ fst cl)], uncl')
           end in
  In p (snd r) \/ exists g, In g (fst r) /\ In p (Hybrid.g_products g).
Proof.
  intros Hp Hcov lookup cluster_products uncl' r.
  assert (Hr : snd r = uncl') by (unfold r; destruct cluster_products; reflexivity).
  rewrite Hr.
  set (gs' := fst r).
  assert (Hgs : forall g, In g gs -> In g gs').
  { intros g Hg. unfold gs', r. destruct cluster_products; [exact Hg|].
    apply in_or_app. left. exact Hg. }
  assert (Hcp : forall x, In x cluster_products -> In x products).
  { intros x Hx. unfold cluster_products in Hx. apply in_flat_map in Hx.
    destruct Hx as [pid [_ Hx]]. unfold lookup in Hx.
    destruct (find _ (rev products)) as [y|] eqn:E; [|destruct Hx].
    destruct Hx as [<-|[]]. apply find_some in E. apply in_rev. apply E. }
  destruct Hcov as [Hu|[g [Hg Hpg]]]; [|right; exists g; split; [apply Hgs|]; assumption].
  destruct (existsb (fun x => String.eqb (Hybrid.p_id x) (Hybrid.p_id p)) cluster_products) eqn:Ex.
  - right. apply existsb_exists in Ex. destruct Ex as [x [Hx Hid]].
    apply String.eqb_eq in Hid.
    assert (Hxp : x = p) by (apply (NoDup_map_inj Hybrid.p_id products); auto).
    subst x.
    exists (Hybrid.create_group_from_products cluster_products product_ids ("ml_cluster_" ++ fst cl)).
    split.
    + unfold gs', r. destruct cluster_products as [|c cs]; [destruct Hx|].
      apply in_or_app. right. left. reflexivity.
    + rewrite create_group_products. eapply Permutation_in; [apply stable_sort_perm|exact Hx].
  - left. unfold uncl'.
    assert (Hn : forall x, In x cluster_products -> Hybrid.p_id p <> Hybrid.p_id x).
    { intros x Hx E. assert (Hf : existsb (fun x => String.eqb (Hybrid.p_id x) (Hybrid.p_id p)) cluster_products = true).
      { apply existsb_exists. exists x. split; [exact Hx|]. rewrite E. apply String.eqb_refl. }
      congruence. }
    clear Hr uncl' Ex Hgs gs' r. clearbody cluster_products. revert uncl Hu. induction cluster_products as [|x cs IH]; intros uncl Hu; simpl; [exact Hu|].
    apply IH.
    + intros y Hy. apply Hcp. right. exact Hy.
    + intros y Hy. apply Hn. right. exact Hy.
    + apply remove_first_keeps; [exact Hu|apply Hn; left; reflexivity].
Qed.

Lemma ml_clusters_cover (ml_clusters : list (string * list string)) (p : Hybrid.Product) :
  In p products ->
  exists g, In g (Hybrid.create_groups_from_ml_clusters m products ml_clusters product_ids)
            /\ In p (Hybrid.g_products g).
Proof.
  intro Hp. unfold Hybrid.create_groups_from_ml_clusters. cbv zeta.
  match goal with |- context [fold_left ?f _ _] => set (step := f) end.
  assert (G : forall cls gs uncl,
    (In p uncl \/ exists g, In g gs /\ In p (Hybrid.g_products g)) ->
    In p (snd (fold_left step cls (gs, uncl))) \/
    exists g, In g (fst (fold_left step cls (gs, uncl))) /\ In p (Hybrid.g_products g)).
  { induction cls as [|cl cls IH]; intros gs uncl H; cbn [fold_left]; [exact H|].
    pose proof (ml_cluster_step_covers p gs uncl cl Hp H) as Hs.
    assert (Hs' : In p (snd (step (gs, uncl) cl)) \/
                  exists g, In g (fst (step (gs, uncl) cl)) /\ In p (Hybrid.g_products g))
      by exact Hs.
    revert Hs'. destruct (step (gs, uncl) cl) as [gs1 uncl1]. apply IH. }
  pose proof (G ml_clusters [] products (or_introl Hp)) as Hf.
  destruct (fold_left step ml_clusters ([], products)) as [fg un]. simpl in Hf.
  assert (Hin : forall g l, In g l -> In g (Hybrid.sort_groups l)).
  { intros g l Hg. unfold Hybrid.sort_groups.
    eapply Permutation_in; [apply stable_sort_perm|exact Hg]. }
  destruct Hf as [Hu|[g [Hg Hpg]]].
  - exists (Hybrid.create_group_from_products [p] product_ids ("single_" ++ Hybrid.p_id p)).
    split.
    + apply Hin, in_or_app. right. apply (in_map (fun p => _) _ _ Hu).
    + rewrite create_group_products. eapply Permutation_in;
        [apply stable_sort_perm|left; reflexivity].
  - exists g. split; [apply Hin, in_or_app; left; exact Hg|exact Hpg].
Qed.

End MLClusters.

(** [_group_products_with_preprocessor] places every product in some
    group: on the ML path ([_create_groups_from_ml_clusters]) each product is
    either fetched into a cluster group or left among the unclustered ones
    and given a single group; on the fallback path the hybrid grouping keeps
    every product.  Products are the fetched rows, with distinct ids. *)
Theorem grouping_covers_products (ml : option Hybrid.MLPreprocessor) (py_hash : string -> Z)
    (products : list Hybrid.Product) (product_ids : list string) :
  NoDup (map Hybrid.p_id products) ->
  Forall (fun p => exists g, In g (Hybrid.group_products_with_preprocessor ml py_hash products product_ids)
                             /\ In p (Hybrid.g_products g)) products.
Proof.
  intro Hnd. apply Forall_forall. intros p Hp.
  assert (Hh : exists g, In g (Hybrid.group_products_hybrid ml py_hash products product_ids)
                         /\ In p (Hybrid.g_products g)).
  { apply in_flat_map.
    eapply Permutation_in; [apply Permutation_sym, hybrid_products_perm|exact Hp]. }
  unfold Hybrid.group_products_with_preprocessor.
  destruct products as [|p0 ps]; [destruct Hp|].
  destruct ml as [m|]; [|exact Hh].
  destruct (Hybrid.get_ml_clusters m product_ids) as [|c cs]; [exact Hh|].
  apply (ml_clusters_cover m (p0 :: ps) product_ids Hnd (c :: cs) p Hp).
Qed.

Lemma grouping_covers_products_witness :
  let ps := [Hybrid.mkProduct "a" "Vitamin C 500 mg" 5 "v1" "Hemofarm";
             Hybrid.mkProduct "b" "Magnezijum 300 mg" 10 "v2" "Galenika"] in
  let m := Hybrid.mkML (fun _ _ _ => false) (fun _ _ => 0%Q) (fun _ => [("c", ["a"; "a"])]) in
  NoDup (map Hybrid.p_id ps) /\
  Forall (fun p => exists g, In g (Hybrid.group_products_with_preprocessor (Some m) (fun _ => 0%Z) ps ["a"; "b"])
                             /\ In p (Hybrid.g_products g)) ps.
Proof.
  intros ps m. assert (H : NoDup (map Hybrid.p_id ps)).
  { unfold ps. simpl. constructor; [simpl; intros [E|[]]; discriminate E|].
    constructor; [intros []|constructor]. }
  split; [exact H|apply (grouping_covers_products (Some m) (fun _ => 0%Z) ps ["a"; "b"] H)].
Defined.
